(** * chrome-control: session controller and capture compressor

    A shallow embedding of [src/server/index.js] (the [compressImageToFit]
    function, the [BrowserManager] class and the [chrome_launch],
    [chrome_screenshot] and [chrome_close] request handlers) and of
    [src/server/utils.js] ([findChrome]), followed by the properties proved
    about them. *)

From Stdlib Require Import ZArith QArith Qround Lia List Bool String.
From stdpp Require Import base option list gmap strings pretty.
From Equations Require Import Equations.

Local Open Scope Z_scope.

(** ** JavaScript numbers

    Every number the modelled code handles is an integer (image metadata,
    schema-validated integers, results of [Math.round] and [Math.floor]) or
    an intermediate quotient or product of such integers.  Integers are
    [Z]; intermediate values are exact rationals [Q], where the code has
    IEEE-754 doubles.  The two agree on [Math.floor(n * 0.8)] and
    [Math.floor(n * 0.9)] for the integers that occur.  They can differ in
    the clamp's [Math.round] when the exact quotient or product is a tie
    (a half-integer): the double can fall just below the tie, and the code
    then rounds down where [Math_round] rounds up, one pixel apart (for
    2560x1019 clamped to width 1280 the exact height is 509.5; the code
    gets 509, the model 510).  Statements about the clamp are therefore
    made relative to [clamp_dimensions] or as bounds that both roundings
    meet. *)

Definition num (z : Z) : Q := inject_Z z.

Definition Math_floor (x : Q) : Z := Qfloor x.

(** [Math.round] rounds to the nearest integer, ties towards +infinity;
    here on the exact value of its argument. *)
Definition Math_round (x : Q) : Z := Qfloor (x + (1 # 2))%Q.

Definition Math_max (a b : Z) : Z := Z.max a b.

(** ** Exceptions *)

(** JavaScript exceptions. *)
Inductive Error : Set :=
| TypeError (message : string)
| GenericError (message : string).

Inductive Outcome (A : Type) : Type :=
| Returned (a : A)
| Thrown (e : Error).
Arguments Returned {A} a.
Arguments Thrown {A} e.

(** Code that may throw: the first throw ends it. *)
#[export] Instance Outcome_ret : MRet Outcome := fun A a => Returned a.

#[export] Instance Outcome_bind : MBind Outcome := fun A B f m =>
  match m with
  | Returned a => f a
  | Thrown e => Thrown e
  end.

(** ** Capture compressor ([compressImageToFit])

    The input is taken to be a bitmap that [sharp] can decode, as every
    capture the driver hands over is; what is modelled of [sharp] is the
    pipeline a call builds and the validation of the parameters it is
    given, which is where [compressImageToFit] can fail. *)

(** [z.enum(["png", "jpeg"])] *)
Inductive Format : Set := png | jpeg.

Definition is_jpeg (format : Format) : bool :=
  match format with jpeg => true | png => false end.

(** The decoded input buffer ([imgBuffer]) together with what
    [sharp(imgBuffer).metadata()] reports about it.  For a bitmap that
    [sharp] can decode both dimensions are positive; the statements that
    depend on this assume it. *)
Record Image : Set := mkImage {
  img_data : nat;
  meta_width : Z;
  meta_height : Z
}.

(** A [sharp] pipeline: the input and the pending [resize] operation. *)
Record Sharp : Set := mkSharp {
  sh_input : Image;
  sh_resize : option (Z * Z)
}.

Definition sharp (imgBuffer : Image) : Sharp :=
  {| sh_input := imgBuffer; sh_resize := None |}.

(** The error [sharp] throws for a parameter it does not accept. *)
Definition invalidParameterError (name expected : string) (actual : Z) : Error :=
  GenericError ("Expected " ++ expected ++ " for " ++ name ++ " but received "
                  ++ pretty actual ++ " of type number")%string.

(** [image.resize(width, height, { fit: 'inside' })].  [sharp] validates
    the two numbers when the call is made and throws unless each is a
    positive integer. *)
Definition resize (width height : Z) (image : Sharp) : Outcome Sharp :=
  if 0 <? width then
    if 0 <? height then
      Returned {| sh_input := sh_input image; sh_resize := Some (width, height) |}
    else Thrown (invalidParameterError "height" "positive integer" height)
  else Thrown (invalidParameterError "width" "positive integer" width).

(** The box a pipeline is asked to fit its output in: the box of the
    pending [resize], or the input's own dimensions when there is none.
    With [fit: 'inside'] the encoded bitmap keeps the aspect ratio of the
    input and is the largest that fits the box, so one of its sides can be
    smaller than the box's; the box is all that [compressImageToFit]
    chooses. *)
Definition sharp_dims (image : Sharp) : Z * Z :=
  match sh_resize image with
  | Some d => d
  | None => (meta_width (sh_input image), meta_height (sh_input image))
  end.

Inductive Codec : Set :=
| JpegOptions (quality : Z)
| PngOptions (compressionLevel : Z).

(** The buffer produced by [image.jpeg(..).toBuffer()] or
    [image.png(..).toBuffer()], represented by the request that produced
    it. *)
Record Buffer : Set := mkBuffer {
  buf_image : Sharp;
  buf_codec : Codec
}.

(** [image.jpeg({ quality }).toBuffer()].  [sharp] throws unless the
    quality is an integer between 1 and 100. *)
Definition toBuffer_jpeg (image : Sharp) (quality : Z) : Outcome Buffer :=
  if (1 <=? quality) && (quality <=? 100) then
    Returned {| buf_image := image; buf_codec := JpegOptions quality |}
  else Thrown (invalidParameterError "quality" "integer between 1 and 100" quality).

(** [image.png({ compressionLevel }).toBuffer()]; the code passes the
    constant 9, which [sharp] accepts. *)
Definition toBuffer_png (image : Sharp) (compressionLevel : Z) : Buffer :=
  {| buf_image := image; buf_codec := PngOptions compressionLevel |}.

(** The encoder is external: the byte length of an encoded buffer is an
    arbitrary function of the encoding request. *)
Class Encoder := { Buffer_length : Buffer -> Z }.

(** Pre-loop dimension clamp (index.js, lines 121-133); returns
    [(currentWidth, currentHeight)]. *)
Definition clamp_dimensions (metadata_width metadata_height maxWidth maxHeight : Z)
  : Z * Z :=
  let currentWidth := metadata_width in
  let currentHeight := metadata_height in
  if (maxWidth <? currentWidth) || (maxHeight <? currentHeight) then
    let aspectRatio := (num currentWidth / num currentHeight)%Q in
    let '(currentWidth, currentHeight) :=
      if maxWidth <? currentWidth
      then (maxWidth, Math_round (num maxWidth / aspectRatio))
      else (currentWidth, currentHeight) in
    let '(currentWidth, currentHeight) :=
      if maxHeight <? currentHeight
      then (Math_round (num maxHeight * aspectRatio), maxHeight)
      else (currentWidth, currentHeight) in
    (currentWidth, currentHeight)
  else (currentWidth, currentHeight).

(** The pipeline after the clamp (line 134): resized only when the clamp
    fired, and then the [resize] call can throw. *)
Definition clamp_image (imgBuffer : Image) (maxWidth maxHeight : Z) : Outcome Sharp :=
  let image := sharp imgBuffer in
  if (maxWidth <? meta_width imgBuffer) || (maxHeight <? meta_height imgBuffer) then
    let '(currentWidth, currentHeight) :=
      clamp_dimensions (meta_width imgBuffer) (meta_height imgBuffer) maxWidth maxHeight in
    resize currentWidth currentHeight image
  else Returned image.

(** The mutable locals of [compressImageToFit]. *)
Record Locals : Set := mkLocals {
  image : Sharp;
  currentWidth : Z;
  currentHeight : Z;
  currentQuality : Z;
  compressedBuffer : option Buffer;
  iterations : nat
}.

Definition maxIterations : nat := 10.

(** Lines 143-147: encode with the current pipeline. *)
Definition encode (format : Format) (st : Locals) : Outcome Buffer :=
  if is_jpeg format
  then toBuffer_jpeg (image st) (currentQuality st)
  else Returned (toBuffer_png (image st) 9).

(** Line 154: [Math.max(10, Math.floor(currentQuality * 0.8))] *)
Definition decay_quality (currentQuality : Z) : Z :=
  Math_max 10 (Math_floor (num currentQuality * 0.8)%Q).

(** Lines 157-158: [Math.floor(current * 0.9)] *)
Definition shrink (current : Z) : Z := Math_floor (num current * 0.9)%Q.

(** Lines 153-162: the reduction applied when the loop does not break;
    the pipeline is rebuilt from the input, and that [resize] call can
    throw. *)
Definition reduce (imgBuffer : Image) (format : Format) (st : Locals) : Outcome Locals :=
  if is_jpeg format then
    let currentQuality' := decay_quality (currentQuality st) in
    image' ← resize (currentWidth st) (currentHeight st) (sharp imgBuffer);
    mret {| image := image';
            currentWidth := currentWidth st;
            currentHeight := currentHeight st;
            currentQuality := currentQuality';
            compressedBuffer := compressedBuffer st;
            iterations := S (iterations st) |}
  else
    let currentWidth' := shrink (currentWidth st) in
    let currentHeight' := shrink (currentHeight st) in
    image' ← resize currentWidth' currentHeight' (sharp imgBuffer);
    mret {| image := image';
            currentWidth := currentWidth';
            currentHeight := currentHeight';
            currentQuality := currentQuality st;
            compressedBuffer := compressedBuffer st;
            iterations := S (iterations st) |}.

Definition with_buffer (b : Buffer) (st : Locals) : Locals :=
  {| image := image st;
     currentWidth := currentWidth st;
     currentHeight := currentHeight st;
     currentQuality := currentQuality st;
     compressedBuffer := Some b;
     iterations := iterations st |}.

(** Line 149: the [break] test. *)
Definition break_test `{Encoder} (maxSizeBytes : Z) (b : Buffer) (st : Locals) : bool :=
  (Buffer_length b <=? maxSizeBytes) || (currentQuality st <=? 10).

(** A value together with the equation that says what it is. *)
Definition inspect {A : Type} (a : A) : { b : A | a = b } := exist _ a eq_refl.

(** Lines 142-163: the [while (iterations < maxIterations)] loop. *)
Equations? while_loop `{Encoder} (imgBuffer : Image) (format : Format)
    (maxSizeBytes : Z) (st : Locals) : Outcome Locals
    by wf (maxIterations - iterations st)%nat lt :=
  while_loop imgBuffer format maxSizeBytes st
    with lt_dec (iterations st) maxIterations => {
    | right _ := Returned st
    | left _ with encode format st => {
      | Thrown e := Thrown e
      | Returned b with break_test maxSizeBytes b (with_buffer b st) => {
        | true := Returned (with_buffer b st)
        | false with inspect (reduce imgBuffer format (with_buffer b st)) => {
          | exist _ (Thrown e) _ := Thrown e
          | exist _ (Returned st') Hreduce :=
              while_loop imgBuffer format maxSizeBytes st' } } } }.
Proof.
  assert (Hnext : iterations st' = S (iterations st)).
  { unfold reduce, resize in Hreduce.
    destruct (is_jpeg format);
      repeat match type of Hreduce with
             | context [if ?c then _ else _] => destruct c
             end;
      try discriminate; cbn in Hreduce; injection Hreduce as <-; reflexivity. }
  rewrite Hnext. lia.
Qed.

(** One pass through the loop body that does not break. *)
Definition iteration (imgBuffer : Image) (format : Format) (st : Locals)
  : Outcome Locals :=
  b ← encode format st;
  reduce imgBuffer format (with_buffer b st).

(** The locals after [k] passes that did not break. *)
Fixpoint after (imgBuffer : Image) (format : Format) (k : nat) (st : Locals)
  : Outcome Locals :=
  match k with
  | O => Returned st
  | S k' => st' ← after imgBuffer format k' st; iteration imgBuffer format st'
  end.

(** Whether the pass starting from [st] breaks. *)
Definition stops `{Encoder} (format : Format) (maxSizeBytes : Z) (st : Locals)
  : Outcome bool :=
  b ← encode format st;
  mret (break_test maxSizeBytes b (with_buffer b st)).

(** The object returned by [compressImageToFit]; [base64] is a rendering
    of [buffer] and is not modelled separately. *)
Module Compressed.
Record t : Set := mk {
  buffer : Buffer;
  size : Z;
  width : Z;
  height : Z;
  finalQuality : Z
}.
End Compressed.

Definition default_maxSizeBytes : Z := 950000.

(** Lines 116-140: the locals on entry to the loop. *)
Definition initial_locals (imgBuffer : Image) (quality maxWidth maxHeight : Z)
  : Outcome Locals :=
  let '(w, h) :=
    clamp_dimensions (meta_width imgBuffer) (meta_height imgBuffer) maxWidth maxHeight in
  image' ← clamp_image imgBuffer maxWidth maxHeight;
  mret {| image := image';
          currentWidth := w;
          currentHeight := h;
          currentQuality := quality;
          compressedBuffer := None;
          iterations := 0%nat |}.

(** Lines 115-173.  Reading [compressedBuffer.length] on line 168 throws
    when no buffer was ever assigned. *)
Definition compressImageToFit `{Encoder} (imgBuffer : Image) (format : Format)
    (quality maxWidth maxHeight : Z) (maxSizeBytes : option Z)
  : Outcome Compressed.t :=
  let maxSizeBytes := default default_maxSizeBytes maxSizeBytes in
  st0 ← initial_locals imgBuffer quality maxWidth maxHeight;
  st ← while_loop imgBuffer format maxSizeBytes st0;
  match compressedBuffer st with
  | None => Thrown (TypeError "Cannot read properties of undefined")
  | Some b =>
      Returned {| Compressed.buffer := b;
                  Compressed.size := Buffer_length b;
                  Compressed.width := currentWidth st;
                  Compressed.height := currentHeight st;
                  Compressed.finalQuality := currentQuality st |}
  end.

(** ** Executable discovery ([findChrome], utils.js) *)

(** What [findChrome] reads from the host: [os.platform()], [process.env],
    [fs.existsSync] and the output of the [which ...] command run through
    [execSync] ([None] when [execSync] throws). *)
Record Host : Type := mkHost {
  platform : string;
  process_env : string -> option string;
  existsSync : string -> bool;
  execSync_which : option string
}.

(** [process.env.X + suffix]: an unset variable concatenates as
    ["undefined"]. *)
Definition env_concat (h : Host) (name suffix : string) : string :=
  (default "undefined" (process_env h name) ++ suffix)%string.

Definition is_white_space (a : Ascii.ascii) : bool :=
  let n := Ascii.nat_of_ascii a in
  ((9 <=? n) && (n <=? 13))%nat || (n =? 32)%nat.

Fixpoint trim_start (s : string) : string :=
  match s with
  | String a s' => if is_white_space a then trim_start s' else s
  | EmptyString => EmptyString
  end.

Fixpoint trim_end (s : string) : string :=
  match s with
  | String a s' =>
      match trim_end s' with
      | EmptyString => if is_white_space a then EmptyString else String a EmptyString
      | t => String a t
      end
  | EmptyString => EmptyString
  end.

(** [String.prototype.trim], on ASCII white space (tab, line feed,
    vertical tab, form feed, carriage return, space), which is what ends
    the output of a shell command.  [trim] also strips the Unicode white
    space and line terminators beyond ASCII; a string with such a
    character at either end is trimmed further by the code than by this
    function. *)
Definition trim (s : string) : string := trim_end (trim_start s).

(** JavaScript truthiness of a string. *)
Definition truthy (s : string) : bool :=
  match s with EmptyString => false | _ => true end.

Fixpoint join (sep : string) (l : list string) : string :=
  match l with
  | [] => EmptyString
  | [x] => x
  | x :: rest => (x ++ sep ++ join sep rest)%string
  end.

Definition chromePaths (h : Host) : list string :=
  if String.eqb (platform h) "win32" then
    [ env_concat h "LOCALAPPDATA" "\Google\Chrome\Application\chrome.exe";
      env_concat h "PROGRAMFILES" "\Google\Chrome\Application\chrome.exe";
      env_concat h "PROGRAMFILES(X86)" "\Google\Chrome\Application\chrome.exe";
      env_concat h "LOCALAPPDATA" "\Chromium\Application\chrome.exe";
      env_concat h "PROGRAMFILES" "\Chromium\Application\chrome.exe";
      env_concat h "PROGRAMFILES(X86)" "\Chromium\Application\chrome.exe";
      "C:\Program Files\Google\Chrome\Application\chrome.exe";
      "C:\Program Files (x86)\Google\Chrome\Application\chrome.exe" ]
  else if String.eqb (platform h) "darwin" then
    [ "/Applications/Google Chrome.app/Contents/MacOS/Google Chrome";
      "/Applications/Chromium.app/Contents/MacOS/Chromium";
      "/Applications/Google Chrome Canary.app/Contents/MacOS/Google Chrome Canary";
      env_concat h "HOME" "/Applications/Google Chrome.app/Contents/MacOS/Google Chrome";
      env_concat h "HOME" "/Applications/Chromium.app/Contents/MacOS/Chromium" ]
  else
    let paths :=
      [ "/usr/bin/google-chrome";
        "/usr/bin/google-chrome-stable";
        "/usr/bin/chromium";
        "/usr/bin/chromium-browser";
        "/snap/bin/chromium";
        "/usr/local/bin/chrome";
        "/usr/local/bin/chromium" ] in
    match execSync_which h with
    | Some out =>
        let whichChrome := trim out in
        if truthy whichChrome then whichChrome :: paths else paths
    | None => paths
    end.

Definition findChrome (h : Host) : Outcome string :=
  match List.find (fun path => truthy path && existsSync h path) (chromePaths h) with
  | Some path => Returned path
  | None =>
      Thrown (GenericError
        ("Chrome not found. Please install Google Chrome or Chromium browser. Searched paths: "
           ++ join ", " (chromePaths h))%string)
  end.

(** ** The browser driver (puppeteer-core) as the session controller sees it

    Browser and page objects live in a store and are referred to by
    handle, so that [this.page], the entries of [browser.pages()] and the
    page of a [targetcreated] event can alias one another. *)

Abbreviation BrowserHandle := nat (only parsing).
Abbreviation PageHandle := nat (only parsing).

Record PageObject : Type := mkPage {
  pg_browser : BrowserHandle;
  pg_url : string;
  pg_closed : bool;
  pg_viewport : option (Z * Z);
  (** number of [evaluateOnNewDocument] injections of the [window.open]
      override *)
  pg_open_override : nat
}.

Record BrowserObject : Type := mkBrowser {
  br_connected : bool;
  br_executablePath : option string;
  br_headless : bool;
  br_args : list string;
  br_defaultViewport : Z * Z;
  (** open pages, in creation order: what [browser.pages()] resolves to *)
  br_pages : list PageHandle;
  (** number of registered ['targetcreated'] listeners *)
  br_targetcreated : nat
}.

(** [screenshotOptions] (index.js, lines 860-867 and 877); [encoding] is
    always ['base64']. *)
Record ScreenshotOptions : Set := mkScreenshotOptions {
  so_type : Format;
  so_quality : option Z;
  so_fullPage : option bool
}.

(** Calls that leave the process.  [CFindChrome] records a run of
    [findChrome], whose outcome is computed from the host; every other call
    goes to the driver, which may reject it. *)
Inductive Call : Type :=
| CFindChrome
| CLaunch (executablePath : option string) (headless : bool) (width height : Z)
| CPages (b : BrowserHandle)
| CNewPage (b : BrowserHandle)
| CSetViewport (p : PageHandle) (width height : Z)
| CEvaluateOnNewDocument (p : PageHandle)
| CGoto (p : PageHandle) (url : string)
| CPageClose (p : PageHandle)
| CBrowserClose (b : BrowserHandle)
| CQuery (p : PageHandle) (selector : string)
| CElementScreenshot (p : PageHandle) (selector : string) (options : ScreenshotOptions)
| CPageScreenshot (p : PageHandle) (options : ScreenshotOptions).

Record World : Type := mkWorld {
  host : Host;
  browsers : gmap nat BrowserObject;
  pages : gmap nat PageObject;
  next_handle : nat;
  (** which driver calls reject *)
  rejects : Call -> bool;
  (** how many blank pages a freshly launched browser opens with *)
  launch_pages : nat;
  (** whether [page.$(selector)] finds an element *)
  matches : PageHandle -> string -> bool;
  (** the bitmap a capture of the page (or of one of its elements) decodes to *)
  captured : PageHandle -> option string -> ScreenshotOptions -> Image;
  (** the calls made so far, most recent first *)
  log : list Call
}.

(** [class BrowserManager]: the fields set by the constructor. *)
Record BrowserManager : Type := mkManager {
  browser : option BrowserHandle;
  page : option PageHandle;
  chromePath : option string
}.

Definition constructor : BrowserManager :=
  {| browser := None; page := None; chromePath := None |}.

Record State : Type := mkState {
  this : BrowserManager;
  world : World
}.

(** Computations that read and write the state and may throw; what was
    written before a throw stays written. *)
Definition Js (A : Type) : Type := State -> Outcome A * State.

#[export] Instance Js_ret : MRet Js := fun A a st => (Returned a, st).

#[export] Instance Js_bind : MBind Js := fun A B f m st =>
  match m st with
  | (Returned a, st') => f a st'
  | (Thrown e, st') => (Thrown e, st')
  end.

Definition throw {A : Type} (e : Error) : Js A := fun st => (Thrown e, st).

Definition gets {A : Type} (f : State -> A) : Js A := fun st => (Returned (f st), st).

Definition modify_this (f : BrowserManager -> BrowserManager) : Js unit :=
  fun st => (Returned tt, {| this := f (this st); world := world st |}).

Definition modify_world (f : World -> World) : Js unit :=
  fun st => (Returned tt, {| this := this st; world := f (world st) |}).

Definition lift_outcome {A : Type} (o : Outcome A) : Js A := fun st => (o, st).

Definition set_browsers (bs : gmap nat BrowserObject) (w : World) : World :=
  {| host := host w; browsers := bs; pages := pages w; next_handle := next_handle w;
     rejects := rejects w; launch_pages := launch_pages w; matches := matches w;
     captured := captured w; log := log w |}.

Definition set_pages (ps : gmap nat PageObject) (w : World) : World :=
  {| host := host w; browsers := browsers w; pages := ps; next_handle := next_handle w;
     rejects := rejects w; launch_pages := launch_pages w; matches := matches w;
     captured := captured w; log := log w |}.

Definition set_next_handle (n : nat) (w : World) : World :=
  {| host := host w; browsers := browsers w; pages := pages w; next_handle := n;
     rejects := rejects w; launch_pages := launch_pages w; matches := matches w;
     captured := captured w; log := log w |}.

Definition set_log (l : list Call) (w : World) : World :=
  {| host := host w; browsers := browsers w; pages := pages w; next_handle := next_handle w;
     rejects := rejects w; launch_pages := launch_pages w; matches := matches w;
     captured := captured w; log := l |}.

(** The error a rejected driver call throws. *)
Definition rejected : Error := GenericError "driver call rejected".

(** Record the call; throw if the driver rejects it. *)
Definition call (c : Call) : Js unit :=
  modify_world (fun w => set_log (c :: log w) w) ;;
  r ← gets (fun st => rejects (world st) c);
  if r : bool then throw rejected else mret tt.

Definition fresh_handle : Js nat :=
  n ← gets (fun st => next_handle (world st));
  modify_world (set_next_handle (S n)) ;;
  mret n.

Definition blank_page (b : BrowserHandle) : PageObject :=
  {| pg_browser := b; pg_url := "about:blank"; pg_closed := false;
     pg_viewport := None; pg_open_override := 0 |}.

Definition set_br_pages (ps : list PageHandle) (br : BrowserObject) : BrowserObject :=
  {| br_connected := br_connected br; br_executablePath := br_executablePath br;
     br_headless := br_headless br; br_args := br_args br;
     br_defaultViewport := br_defaultViewport br;
     br_pages := ps;
     br_targetcreated := br_targetcreated br |}.

Definition add_page (b : BrowserHandle) (p : PageHandle) (w : World) : World :=
  set_browsers
    (alter (fun br => set_br_pages (br_pages br ++ [p]) br) b (browsers w))
    (set_pages (<[p := blank_page b]> (pages w)) w).

(** Open a blank page in browser [b]. *)
Definition open_page (b : BrowserHandle) : Js PageHandle :=
  p ← fresh_handle;
  modify_world (add_page b p) ;;
  mret p.

Fixpoint open_pages (n : nat) (b : BrowserHandle) : Js unit :=
  match n with
  | O => mret tt
  | S n' => open_page b ;; open_pages n' b
  end.

Definition launch_args (width height : Z) : list string :=
  [ "--no-sandbox";
    "--disable-setuid-sandbox";
    "--disable-dev-shm-usage";
    "--disable-web-security";
    "--disable-features=IsolateOrigins,site-per-process";
    ("--window-size=" ++ pretty width ++ "," ++ pretty height)%string ].

Definition new_browser (executablePath : option string) (headless : bool)
    (width height : Z) : BrowserObject :=
  {| br_connected := true; br_executablePath := executablePath;
     br_headless := headless; br_args := launch_args width height;
     br_defaultViewport := (width, height);
     br_pages := []; br_targetcreated := 0 |}.

(** [puppeteer.launch({ executablePath, headless, args, defaultViewport })] *)
Definition puppeteer_launch (executablePath : option string) (headless : bool)
    (width height : Z) : Js BrowserHandle :=
  call (CLaunch executablePath headless width height) ;;
  b ← fresh_handle;
  modify_world (fun w =>
    set_browsers (<[b := new_browser executablePath headless width height]> (browsers w)) w) ;;
  n ← gets (fun st => launch_pages (world st));
  open_pages n b ;;
  mret b.

(** The world after [open_pages n b]. *)
Fixpoint opened (n : nat) (b : BrowserHandle) (w : World) : World :=
  match n with
  | O => w
  | S n' => opened n' b (add_page b (next_handle w) (set_next_handle (S (next_handle w)) w))
  end.

(** [browser.isConnected()] *)
Definition isConnected (b : BrowserHandle) (w : World) : bool :=
  match browsers w !! b with
  | Some br => br_connected br
  | None => false
  end.

(** [page.isClosed()] *)
Definition isClosed (p : PageHandle) (w : World) : bool :=
  match pages w !! p with
  | Some pg => pg_closed pg
  | None => true
  end.

(** [page.url()] *)
Definition page_url (p : PageHandle) (w : World) : string :=
  match pages w !! p with
  | Some pg => pg_url pg
  | None => EmptyString
  end.

Definition add_listener (br : BrowserObject) : BrowserObject :=
  {| br_connected := br_connected br; br_executablePath := br_executablePath br;
     br_headless := br_headless br; br_args := br_args br;
     br_defaultViewport := br_defaultViewport br;
     br_pages := br_pages br;
     br_targetcreated := S (br_targetcreated br) |}.

(** [browser.on('targetcreated', handler)] *)
Definition browser_on_targetcreated (b : BrowserHandle) : Js unit :=
  modify_world (fun w => set_browsers (alter add_listener b (browsers w)) w).

(** [browser.pages()] *)
Definition browser_pages (b : BrowserHandle) : Js (list PageHandle) :=
  call (CPages b) ;;
  gets (fun st => default [] (br_pages <$> browsers (world st) !! b)).

(** [browser.newPage()] *)
Definition browser_newPage (b : BrowserHandle) : Js PageHandle :=
  call (CNewPage b) ;;
  open_page b.

Definition update_page (f : PageObject -> PageObject) (p : PageHandle) : Js unit :=
  modify_world (fun w => set_pages (alter f p (pages w)) w).

Definition set_viewport (width height : Z) (pg : PageObject) : PageObject :=
  {| pg_browser := pg_browser pg; pg_url := pg_url pg; pg_closed := pg_closed pg;
     pg_viewport := Some (width, height);
     pg_open_override := pg_open_override pg |}.

Definition inject_open_override (pg : PageObject) : PageObject :=
  {| pg_browser := pg_browser pg; pg_url := pg_url pg; pg_closed := pg_closed pg;
     pg_viewport := pg_viewport pg;
     pg_open_override := S (pg_open_override pg) |}.

Definition navigate (url : string) (pg : PageObject) : PageObject :=
  {| pg_browser := pg_browser pg; pg_url := url; pg_closed := pg_closed pg;
     pg_viewport := pg_viewport pg;
     pg_open_override := pg_open_override pg |}.

(** [page.setViewport({ width, height })] *)
Definition page_setViewport (p : PageHandle) (width height : Z) : Js unit :=
  call (CSetViewport p width height) ;;
  update_page (set_viewport width height) p.

(** [page.evaluateOnNewDocument(() => { window.open = ... })] *)
Definition page_evaluateOnNewDocument (p : PageHandle) : Js unit :=
  call (CEvaluateOnNewDocument p) ;;
  update_page inject_open_override p.

(** [page.goto(url)] *)
Definition page_goto (p : PageHandle) (url : string) : Js unit :=
  call (CGoto p url) ;;
  update_page (navigate url) p.

Definition mark_closed (pg : PageObject) : PageObject :=
  {| pg_browser := pg_browser pg; pg_url := pg_url pg; pg_closed := true;
     pg_viewport := pg_viewport pg; pg_open_override := pg_open_override pg |}.

Definition forget_page (p : PageHandle) (br : BrowserObject) : BrowserObject :=
  set_br_pages (List.filter (fun q => negb (q =? p)%nat) (br_pages br)) br.

(** [page.close()] *)
Definition page_close (p : PageHandle) : Js unit :=
  call (CPageClose p) ;;
  modify_world (fun w =>
    set_browsers (forget_page p <$> browsers w)
      (set_pages (alter mark_closed p (pages w)) w)).

Definition disconnect (br : BrowserObject) : BrowserObject :=
  {| br_connected := false; br_executablePath := br_executablePath br;
     br_headless := br_headless br; br_args := br_args br;
     br_defaultViewport := br_defaultViewport br;
     br_pages := [];
     br_targetcreated := br_targetcreated br |}.

Definition close_pages_of (b : BrowserHandle) (pg : PageObject) : PageObject :=
  if (pg_browser pg =? b)%nat then mark_closed pg else pg.

(** [browser.close()]: the process goes away and with it its pages. *)
Definition browser_close (b : BrowserHandle) : Js unit :=
  call (CBrowserClose b) ;;
  modify_world (fun w =>
    set_browsers (alter disconnect b (browsers w))
      (set_pages (close_pages_of b <$> pages w) w)).

(** ** Session controller ([class BrowserManager]) *)

Definition set_browser (b : option BrowserHandle) (m : BrowserManager) : BrowserManager :=
  {| browser := b; page := page m; chromePath := chromePath m |}.

Definition set_page (p : option PageHandle) (m : BrowserManager) : BrowserManager :=
  {| browser := browser m; page := p; chromePath := chromePath m |}.

Definition set_chromePath (c : option string) (m : BrowserManager) : BrowserManager :=
  {| browser := browser m; page := page m; chromePath := c |}.

(** Truthiness of [this.chromePath]. *)
Definition has_chromePath (m : BrowserManager) : bool :=
  match chromePath m with
  | Some path => truthy path
  | None => false
  end.

(** Lines 182-186. *)
Definition initialize : Js unit :=
  known ← gets (fun st => has_chromePath (this st));
  if known : bool then mret tt
  else
    modify_world (fun w => set_log (CFindChrome :: log w) w) ;;
    found ← gets (fun st => findChrome (host (world st)));
    path ← lift_outcome found;
    modify_this (set_chromePath (Some path)).

(** [this.browser && this.browser.isConnected()] *)
Definition browser_live (m : BrowserManager) (w : World) : bool :=
  match browser m with
  | Some b => isConnected b w
  | None => false
  end.

(** [this.page && !this.page.isClosed()] *)
Definition page_usable (m : BrowserManager) (w : World) : bool :=
  match page m with
  | Some p => negb (isClosed p w)
  | None => false
  end.

(** Lines 190-222: the branch that launches a browser and installs the
    ['targetcreated'] listener on it. *)
Definition launch_browser (headless : bool) (width height : Z) : Js unit :=
  initialize ;;
  executablePath ← gets (fun st => chromePath (this st));
  b ← puppeteer_launch executablePath headless width height;
  modify_this (set_browser (Some b)) ;;
  browser_on_targetcreated b.

(** Lines 226-242: the branch that (re)acquires the current page. *)
Definition acquire_page (width height : Z) : Js unit :=
  ob ← gets (fun st => browser (this st));
  match ob with
  | None => throw (TypeError "Cannot read properties of null (reading 'pages')")
  | Some b =>
      pages ← browser_pages b;
      match pages with
      | p :: _ => modify_this (set_page (Some p))
      | [] => p ← browser_newPage b; modify_this (set_page (Some p))
      end ;;
      op ← gets (fun st => page (this st));
      match op with
      | None => throw (TypeError "Cannot read properties of null (reading 'setViewport')")
      | Some p =>
          page_setViewport p width height ;;
          page_evaluateOnNewDocument p
      end
  end.

(** Lines 225-245: the page test, its branch, and the returned pair. *)
Definition ensure_page (width height : Z)
  : Js (option BrowserHandle * option PageHandle) :=
  usable ← gets (fun st => page_usable (this st) (world st));
  (if usable : bool then mret tt else acquire_page width height) ;;
  gets (fun st => (browser (this st), page (this st))).

(** Lines 188-246.  The three parameters default to [false], [1280] and
    [720] when the caller omits them. *)
Definition ensureBrowser (headless : option bool) (width height : option Z)
  : Js (option BrowserHandle * option PageHandle) :=
  let headless := default false headless in
  let width := default 1280 width in
  let height := default 720 height in
  live ← gets (fun st => browser_live (this st) (world st));
  (if live : bool then mret tt else launch_browser headless width height) ;;
  ensure_page width height.

(** Lines 248-254. *)
Definition closeBrowser : Js unit :=
  ob ← gets (fun st => browser (this st));
  match ob with
  | Some b =>
      browser_close b ;;
      modify_this (set_browser None) ;;
      modify_this (set_page None)
  | None => mret tt
  end.

(** The target of a ['targetcreated'] event: [target.type()] and what
    [target.page()] resolves to. *)
Record Target : Type := mkTarget {
  target_type : string;
  target_page : option PageHandle
}.

Definition same_page (a : option PageHandle) (p : PageHandle) : bool :=
  match a with
  | Some q => (q =? p)%nat
  | None => false
  end.

(** Lines 209-222: the ['targetcreated'] listener. *)
Definition on_targetcreated (target : Target) : Js unit :=
  if String.eqb (target_type target) "page" then
    match target_page target with
    | Some newPage =>
        current ← gets (fun st => page (this st));
        if same_page current newPage then mret tt
        else
          url ← gets (fun st => page_url newPage (world st));
          (if truthy url && negb (String.eqb url "about:blank") then
             current ← gets (fun st => page (this st));
             match current with
             | Some p => page_goto p url
             | None => throw (TypeError "Cannot read properties of null (reading 'goto')")
             end
           else mret tt) ;;
          page_close newPage
    | None => mret tt
    end
  else mret tt.

(** ** The [chrome_screenshot] and [chrome_close] request handlers *)

(** The [arguments] object of a [chrome_screenshot] request. *)
Record ScreenshotArgs : Type := mkScreenshotArgs {
  arg_full_page : option bool;
  arg_selector : option string;
  arg_format : option string;
  arg_quality : option Z;
  arg_max_width : option Z;
  arg_max_height : option Z
}.

Record ScreenshotParams : Type := mkScreenshotParams {
  full_page : bool;
  selector : option string;
  format : Format;
  quality : Z;
  max_width : Z;
  max_height : Z
}.

Definition ZodError : Error := GenericError "ZodError".

(** [z.number().int().min(lo).max(hi).optional().default(d)] *)
Definition parse_int (lo hi d : Z) (v : option Z) : Outcome Z :=
  match v with
  | None => Returned d
  | Some n => if (lo <=? n) && (n <=? hi) then Returned n else Thrown ZodError
  end.

(** [z.enum(["png", "jpeg"]).optional().default("jpeg")] *)
Definition parse_format (v : option string) : Outcome Format :=
  match v with
  | None => Returned jpeg
  | Some s =>
      if String.eqb s "png" then Returned png
      else if String.eqb s "jpeg" then Returned jpeg
      else Thrown ZodError
  end.

(** [ScreenshotSchema.parse(args || {})], lines 40-47. *)
Definition ScreenshotSchema_parse (args : ScreenshotArgs) : Outcome ScreenshotParams :=
  match parse_format (arg_format args) with
  | Thrown e => Thrown e
  | Returned format =>
  match parse_int 1 100 60 (arg_quality args) with
  | Thrown e => Thrown e
  | Returned quality =>
  match parse_int 100 2560 1280 (arg_max_width args) with
  | Thrown e => Thrown e
  | Returned max_width =>
  match parse_int 100 1440 1440 (arg_max_height args) with
  | Thrown e => Thrown e
  | Returned max_height =>
      Returned {| full_page := default false (arg_full_page args);
                  selector := arg_selector args;
                  format := format;
                  quality := quality;
                  max_width := max_width;
                  max_height := max_height |}
  end end end end.

(** The [content] array of a successful capture: the image item and the
    text item. *)
Record ScreenshotResponse : Type := mkScreenshotResponse {
  image_data : Buffer;
  image_mimeType : string;
  text : string
}.

Definition selector_given (params : ScreenshotParams) : option string :=
  match selector params with
  | Some s => if truthy s then Some s else None
  | None => None
  end.

(** Lines 856-904. *)
Definition chrome_screenshot `{Encoder} (args : ScreenshotArgs) : Js ScreenshotResponse :=
  params ← lift_outcome (ScreenshotSchema_parse args);
  handles ← ensureBrowser None None None;
  match handles.2 with
  | None => throw (TypeError "Cannot read properties of null")
  | Some page =>
      let screenshotOptions :=
        {| so_type := format params;
           so_quality := if is_jpeg (format params) then Some (quality params) else None;
           so_fullPage := None |} in
      screenshot ←
        match selector_given params with
        | Some s =>
            call (CQuery page s) ;;
            found ← gets (fun st => matches (world st) page s);
            if found : bool then
              call (CElementScreenshot page s screenshotOptions) ;;
              gets (fun st => captured (world st) page (Some s) screenshotOptions)
            else throw (GenericError ("Element not found: " ++ s)%string)
        | None =>
            let screenshotOptions :=
              {| so_type := so_type screenshotOptions;
                 so_quality := so_quality screenshotOptions;
                 so_fullPage := Some (full_page params) |} in
            call (CPageScreenshot page screenshotOptions) ;;
            gets (fun st => captured (world st) page None screenshotOptions)
        end;
      compressed ← lift_outcome
        (compressImageToFit screenshot (format params) (quality params)
           (max_width params) (max_height params) None);
      let mimeType := if is_jpeg (format params) then "image/jpeg" else "image/png" in
      mret {| image_data := Compressed.buffer compressed;
              image_mimeType := mimeType;
              text := ("Screenshot captured: " ++ pretty (Compressed.width compressed)
                         ++ "x" ++ pretty (Compressed.height compressed) ++ "px, "
                         ++ pretty (Math_round (num (Compressed.size compressed) / 1024)%Q)
                         ++ "KB")%string |}
  end.

(** Lines 1199-1212. *)
Definition chrome_close : Js string :=
  closeBrowser ;;
  mret "Browser closed".

(** ** The [chrome_launch] request handler *)

(** The [arguments] object of a [chrome_launch] request. *)
Record LaunchArgs : Type := mkLaunchArgs {
  arg_headless : option bool;
  arg_width : option Z;
  arg_height : option Z
}.

Module LaunchParams.
Record t : Type := mk {
  headless : bool;
  width : Z;
  height : Z
}.
End LaunchParams.

(** [LaunchBrowserSchema.parse(args || {})], lines 11-15. *)
Definition LaunchBrowserSchema_parse (args : LaunchArgs) : Outcome LaunchParams.t :=
  match parse_int 100 7680 1280 (arg_width args) with
  | Thrown e => Thrown e
  | Returned width =>
  match parse_int 100 4320 720 (arg_height args) with
  | Thrown e => Thrown e
  | Returned height =>
      Returned {| LaunchParams.headless := default false (arg_headless args);
                  LaunchParams.width := width;
                  LaunchParams.height := height |}
  end end.

(** The object the handler serialises into its text item. *)
Record LaunchResponse : Type := mkLaunchResponse {
  resp_success : bool;
  resp_message : string;
  resp_headless : bool;
  resp_viewport : Z * Z
}.

(** Lines 748-764. *)
Definition chrome_launch (args : LaunchArgs) : Js LaunchResponse :=
  params ← lift_outcome (LaunchBrowserSchema_parse args);
  ensureBrowser (Some (LaunchParams.headless params)) (Some (LaunchParams.width params))
    (Some (LaunchParams.height params)) ;;
  mret {| resp_success := true;
          resp_message := "Browser launched successfully";
          resp_headless := LaunchParams.headless params;
          resp_viewport := (LaunchParams.width params, LaunchParams.height params) |}.

(** ** Vocabulary of the statements *)

(** [!(url && url !== 'about:blank')] *)
Definition is_blank_or_empty (url : string) : bool :=
  negb (truthy url) || String.eqb url "about:blank".

(** The interception property as the specification words it: with a
    current page to redirect and a driver that accepts [close], the
    intercepted page is closed when the listener is done, whatever becomes
    of the redirect. *)
Definition new_context_always_closed : Prop :=
  forall (st : State) (newPage : PageHandle),
    is_Some (page (this st)) ->
    same_page (page (this st)) newPage = false ->
    is_blank_or_empty (page_url newPage (world st)) = false ->
    rejects (world st) (CPageClose newPage) = false ->
    isClosed newPage
      (world (on_targetcreated {| target_type := "page"; target_page := Some newPage |} st).2)
      = true.

(** Discovery and launch calls. *)
Definition is_launch (c : Call) : bool :=
  match c with
  | CLaunch _ _ _ _ => true
  | CFindChrome => true
  | _ => false
  end.

(** The step kept the browser handle and the cached path, changed no
    browser's connection, and made no discovery or launch call. *)
Definition no_relaunch (st st' : State) : Prop :=
  browser (this st') = browser (this st) /\
  chromePath (this st') = chromePath (this st) /\
  (forall b, isConnected b (world st') = isConnected b (world st)) /\
  exists more, log (world st') = more ++ log (world st) /\
               forallb (fun c => negb (is_launch c)) more = true.

Definition keeps_session {A : Type} (m : Js A) : Prop :=
  forall st, no_relaunch st (m st).2.

(** The session invariant: a manager without a browser holds no page. *)
Definition session_inv (m : BrowserManager) : Prop :=
  browser m = None -> page m = None.

(** The managers that can arise: the constructed one, and what a method
    or the listener leaves behind, whatever the world did in between and
    whether the step returned or threw. *)
Inductive reachable : BrowserManager -> Prop :=
| reach_constructor : reachable constructor
| reach_ensureBrowser (m : BrowserManager) (w : World)
    (headless : option bool) (width height : option Z) :
    reachable m ->
    reachable (this (ensureBrowser headless width height {| this := m; world := w |}).2)
| reach_closeBrowser (m : BrowserManager) (w : World) :
    reachable m ->
    reachable (this (closeBrowser {| this := m; world := w |}).2)
| reach_targetcreated (m : BrowserManager) (w : World) (target : Target) :
    reachable m ->
    reachable (this (on_targetcreated target {| this := m; world := w |}).2).

(** The executable path [initialize] settles on: the cached one, or the
    result of a new discovery. *)
Definition discovered (m : BrowserManager) (h : Host) : Outcome (option string) :=
  if has_chromePath m then Returned (chromePath m)
  else match findChrome h with
       | Returned path => Returned (Some path)
       | Thrown e => Thrown e
       end.

(** ** Sample inputs *)

(** An encoder whose output size is proportional to the pixel count: three
    bytes per pixel for PNG (incompressible RGB content), and
    [quality / 100] bytes per pixel for JPEG. *)
Definition pixel_encoder : Encoder :=
  {| Buffer_length b :=
       let '(w, h) := sharp_dims (buf_image b) in
       match buf_codec b with
       | JpegOptions quality => w * h * quality / 100
       | PngOptions _ => 3 * w * h
       end |}.

(** A 2560x1440 capture. *)
Definition wide_capture : Image :=
  {| img_data := 0; meta_width := 2560; meta_height := 1440 |}.

(** A Linux host on which Chromium is installed or not. *)
Definition linux_host (installed : bool) : Host :=
  {| platform := "linux";
     process_env := fun _ => None;
     existsSync := fun path => installed && String.eqb path "/usr/bin/chromium";
     execSync_which := None |}.

Definition blank_capture : Image :=
  {| img_data := 0; meta_width := 1280; meta_height := 720 |}.

Definition open_page_at (b : BrowserHandle) (url : string) : PageObject :=
  {| pg_browser := b; pg_url := url; pg_closed := false;
     pg_viewport := Some (1280, 720); pg_open_override := 1 |}.

(** A session whose browser [0] shows page [1]; the site has just opened
    a popup, page [2]. *)
Definition popup_world (rejects : Call -> bool) : World :=
  {| host := linux_host true;
     browsers := {[ 0%nat :=
       {| br_connected := true; br_executablePath := Some "/usr/bin/chromium";
          br_headless := false; br_args := launch_args 1280 720;
          br_defaultViewport := (1280, 720);
          br_pages := [1%nat; 2%nat]; br_targetcreated := 1 |} ]};
     pages := <[ 1%nat := open_page_at 0%nat "https://example.org/" ]>
              {[ 2%nat := open_page_at 0%nat "https://example.org/popup" ]};
     next_handle := 3;
     rejects := rejects;
     launch_pages := 1;
     matches := fun _ _ => true;
     captured := fun _ _ _ => blank_capture;
     log := [] |}.

Definition popup_state (rejects : Call -> bool) : State :=
  {| this := {| browser := Some 0%nat; page := Some 1%nat;
                chromePath := Some "/usr/bin/chromium" |};
     world := popup_world rejects |}.

Definition popup_target : Target :=
  {| target_type := "page"; target_page := Some 2%nat |}.

(** A driver that rejects every navigation and nothing else. *)
Definition goto_fails (c : Call) : bool :=
  match c with CGoto _ _ => true | _ => false end.

(** A driver that rejects nothing. *)
Definition never_rejects (c : Call) : bool := false.

(** The session of [popup_state] after page [1] was closed from outside:
    the browser now lists page [2] only. *)
Definition closed_page_state : State :=
  {| this := {| browser := Some 0%nat; page := Some 1%nat;
                chromePath := Some "/usr/bin/chromium" |};
     world :=
       {| host := linux_host true;
          browsers := {[ 0%nat :=
            {| br_connected := true; br_executablePath := Some "/usr/bin/chromium";
               br_headless := false; br_args := launch_args 1280 720;
               br_defaultViewport := (1280, 720);
               br_pages := [2%nat]; br_targetcreated := 1 |} ]};
          pages := <[ 1%nat := mark_closed (open_page_at 0%nat "https://example.org/") ]>
                   {[ 2%nat := blank_page 0%nat ]};
          next_handle := 3;
          rejects := never_rejects;
          launch_pages := 1;
          matches := fun _ _ => true;
          captured := fun _ _ _ => blank_capture;
          log := [] |} |}.

(** A new manager on a host without any browser installed. *)
Definition no_chrome_state : State :=
  {| this := constructor;
     world :=
       {| host := linux_host false;
          browsers := ∅;
          pages := ∅;
          next_handle := 0;
          rejects := never_rejects;
          launch_pages := 1;
          matches := fun _ _ => true;
          captured := fun _ _ _ => blank_capture;
          log := [] |} |}.

(** The error [findChrome] throws on that host. *)
Definition chrome_not_found : Error :=
  Eval vm_compute in
    match findChrome (linux_host false) with
    | Thrown e => e
    | Returned _ => GenericError EmptyString
    end.

(** A [chrome_screenshot] request without arguments. *)
Definition no_arguments : ScreenshotArgs :=
  {| arg_full_page := None; arg_selector := None; arg_format := None;
     arg_quality := None; arg_max_width := None; arg_max_height := None |}.

(** ** Vocabulary and sample inputs of the further properties *)

(** A Linux host on which only [which] knows where the browser is: the
    command prints the path followed by a newline. *)
Definition which_host : Host :=
  {| platform := "linux";
     process_env := fun _ => None;
     existsSync := fun path => String.eqb path "/opt/google/chrome/chrome";
     execSync_which :=
       Some ("/opt/google/chrome/chrome" ++ String (Ascii.ascii_of_nat 10) EmptyString)%string |}.

(** The platforms handled by the last branch of [findChrome]. *)
Definition other_platform (h : Host) : bool :=
  negb (String.eqb (platform h) "win32") && negb (String.eqb (platform h) "darwin").

(** A Windows host with no environment variable set, on which the only
    browser sits under a directory literally named [undefined]. *)
Definition bare_windows_host : Host :=
  {| platform := "win32";
     process_env := fun _ => None;
     existsSync := fun path =>
       String.eqb path "undefined\Google\Chrome\Application\chrome.exe";
     execSync_which := None |}.

(** How many ['targetcreated'] listeners browser [b] carries. *)
Definition listeners (b : BrowserHandle) (w : World) : nat :=
  default 0%nat (br_targetcreated <$> browsers w !! b).

(** A step that registers no listener. *)
Definition keeps_listeners {A : Type} (m : Js A) : Prop :=
  forall st b, listeners b (world (m st).2) = listeners b (world st).

(** The manager and the world on leaving an accepted launch branch that
    used the executable path [path]. *)
Definition launched_this (st : State) (path : option string) : BrowserManager :=
  set_browser (Some (next_handle (world st))) (set_chromePath path (this st)).

Definition launched_world (st : State) (path : option string) (headless : bool)
    (width height : Z) : World :=
  let w := world st in
  let entries :=
    CLaunch path headless width height ::
      (if has_chromePath (this st) then [] else [CFindChrome]) in
  let w1 :=
    set_browsers
      (<[next_handle w := new_browser path headless width height]> (browsers w))
      (set_next_handle (S (next_handle w)) (set_log (entries ++ log w) w)) in
  let w2 := opened (launch_pages w) (next_handle w) w1 in
  set_browsers (alter add_listener (next_handle w) (browsers w2)) w2.

(** A session whose browser [0] has gone away while its page [1] still
    reports open. *)
Definition crashed_state : State :=
  {| this := {| browser := Some 0%nat; page := Some 1%nat;
                chromePath := Some "/usr/bin/chromium" |};
     world :=
       {| host := linux_host false;
          browsers := {[ 0%nat := disconnect (new_browser (Some "/usr/bin/chromium")
                                               false 1280 720) ]};
          pages := {[ 1%nat := open_page_at 0%nat "https://example.org/" ]};
          next_handle := 2;
          rejects := never_rejects;
          launch_pages := 1;
          matches := fun _ _ => true;
          captured := fun _ _ _ => blank_capture;
          log := [] |} |}.

(** The driver calls of a launch that also has to acquire its page, most
    recent first: [newPage] is called only when the browser came up with no
    page. *)
Definition fresh_calls (st : State) (path : option string) (headless : bool)
    (width height : Z) : list Call :=
  let n := next_handle (world st) in
  [CEvaluateOnNewDocument (S n); CSetViewport (S n) width height] ++
  (if launch_pages (world st) is O then [CNewPage n] else []) ++
  [CPages n; CLaunch path headless width height].

(** [lo <= v <= hi], or [v] left out. *)
Definition in_range (lo hi : Z) (v : option Z) : bool :=
  match v with
  | None => true
  | Some n => (lo <=? n) && (n <=? hi)
  end.

Definition known_format (v : option string) : bool :=
  match v with
  | None => true
  | Some s => String.eqb s "png" || String.eqb s "jpeg"
  end.

(** A new manager on a Linux host with Chromium installed; the browser
    comes up with one blank page. *)
Definition new_state : State :=
  {| this := constructor;
     world :=
       {| host := linux_host true;
          browsers := ∅;
          pages := ∅;
          next_handle := 0;
          rejects := never_rejects;
          launch_pages := 1;
          matches := fun _ _ => false;
          captured := fun _ _ _ => blank_capture;
          log := [] |} |}.

(** The arguments a [chrome_screenshot] request may carry. *)
Definition valid_screenshot_args (args : ScreenshotArgs) : bool :=
  known_format (arg_format args) &&
  in_range 1 100 (arg_quality args) &&
  in_range 100 2560 (arg_max_width args) &&
  in_range 100 1440 (arg_max_height args).

(** What the schema makes of valid arguments. *)
Definition screenshot_defaults (args : ScreenshotArgs) : ScreenshotParams :=
  {| full_page := default false (arg_full_page args);
     selector := arg_selector args;
     format := match arg_format args with
               | Some s => if String.eqb s "png" then png else jpeg
               | None => jpeg
               end;
     quality := default 60 (arg_quality args);
     max_width := default 1280 (arg_max_width args);
     max_height := default 1440 (arg_max_height args) |}.

Definition with_selector (s : option string) (args : ScreenshotArgs) : ScreenshotArgs :=
  {| arg_full_page := arg_full_page args; arg_selector := s;
     arg_format := arg_format args; arg_quality := arg_quality args;
     arg_max_width := arg_max_width args; arg_max_height := arg_max_height args |}.

Definition with_full_page (f : option bool) (args : ScreenshotArgs) : ScreenshotArgs :=
  {| arg_full_page := f; arg_selector := arg_selector args;
     arg_format := arg_format args; arg_quality := arg_quality args;
     arg_max_width := arg_max_width args; arg_max_height := arg_max_height args |}.

(** A session whose browser [0] shows page [1], on which only [#logo]
    matches an element. *)
Definition ready_state : State :=
  {| this := {| browser := Some 0%nat; page := Some 1%nat;
                chromePath := Some "/usr/bin/chromium" |};
     world :=
       {| host := linux_host true;
          browsers := {[ 0%nat := set_br_pages [1%nat]
                                    (add_listener (new_browser (Some "/usr/bin/chromium")
                                                     false 1280 720)) ]};
          pages := {[ 1%nat := open_page_at 0%nat "https://example.org/" ]};
          next_handle := 2;
          rejects := never_rejects;
          launch_pages := 1;
          matches := fun _ s => String.eqb s "#logo";
          captured := fun _ _ _ => blank_capture;
          log := [] |} |}.

(** Events the listener lets pass: targets that are not pages, targets
    without a page object, and the current page itself. *)
Definition ignored (m : BrowserManager) (target : Target) : bool :=
  negb (String.eqb (target_type target) "page") ||
  match target_page target with
  | Some newPage => same_page (page m) newPage
  | None => true
  end.

(** The session of [ready_state] before the manager has taken a page: the
    browser has just opened its blank page [1]. *)
Definition pageless_state : State :=
  {| this := {| browser := Some 0%nat; page := None;
                chromePath := Some "/usr/bin/chromium" |};
     world := set_pages {[ 1%nat := blank_page 0%nat ]} (world ready_state) |}.

(** ** Vocabulary and sample inputs of the amended statements *)



(** [closeBrowser] as the specification words it: the handles are
    released whatever happens. *)
Definition closeBrowser_always_releases : Prop :=
  forall st : State,
    session_inv (this st) ->
    browser (this (closeBrowser st).2) = None /\ page (this (closeBrowser st).2) = None.

(** A driver that rejects [browser.close()] and nothing else. *)
Definition close_fails (c : Call) : bool :=
  match c with CBrowserClose _ => true | _ => false end.

(** Page reacquisition as the specification words it: the page that
    replaces a closed one gets the viewport the session was configured
    with, the default viewport its browser was launched with. *)
Definition reacquired_page_keeps_configured_viewport : Prop :=
  forall (st st' : State) (b : BrowserHandle) (br : BrowserObject) (p : PageHandle)
         (headless : option bool) (width height : option Z),
    browser (this st) = Some b ->
    browsers (world st) !! b = Some br ->
    br_connected br = true ->
    page_usable (this st) (world st) = false ->
    ensureBrowser headless width height st = (Returned (Some b, Some p), st') ->
    exists pg, pages (world st') !! p = Some pg /\
               pg_viewport pg = Some (br_defaultViewport br).

(** The browser of a session launched at 1920x1080. *)
Definition hd_browser : BrowserObject :=
  {| br_connected := true; br_executablePath := Some "/usr/bin/chromium";
     br_headless := false; br_args := launch_args 1920 1080;
     br_defaultViewport := (1920, 1080);
     br_pages := [2%nat]; br_targetcreated := 1 |}.

(** That session after its page [1] was closed from outside; the browser
    still lists the blank page [2]. *)
Definition hd_closed_page_state : State :=
  {| this := {| browser := Some 0%nat; page := Some 1%nat;
                chromePath := Some "/usr/bin/chromium" |};
     world :=
       {| host := linux_host true;
          browsers := {[ 0%nat := hd_browser ]};
          pages := <[ 1%nat := mark_closed
                                 (set_viewport 1920 1080
                                    (open_page_at 0%nat "https://example.org/")) ]>
                   {[ 2%nat := blank_page 0%nat ]};
          next_handle := 3;
          rejects := never_rejects;
          launch_pages := 1;
          matches := fun _ _ => true;
          captured := fun _ _ _ => blank_capture;
          log := [] |} |}.

(** * Properties *)

(** ** Arithmetic of the modelled JavaScript numbers *)

Lemma Math_floor_ratio (a b : Z) : Math_floor (num a / num b)%Q = a / b.
Proof. unfold Math_floor, num. symmetry. apply Zdiv_Qdiv. Qed.

Lemma Math_floor_compat (x y : Q) : (x == y)%Q -> Math_floor x = Math_floor y.
Proof. intros E. unfold Math_floor. now rewrite E. Qed.

(** [Math.floor(n * 0.8)] on an integer [n]. *)
Lemma floor_times_08 (n : Z) : Math_floor (num n * 0.8)%Q = 4 * n / 5.
Proof.
  rewrite <- Math_floor_ratio. apply Math_floor_compat.
  unfold num. rewrite inject_Z_mult. field.
Qed.

(** [Math.floor(n * 0.9)] on an integer [n]. *)
Lemma floor_times_09 (n : Z) : Math_floor (num n * 0.9)%Q = 9 * n / 10.
Proof.
  rewrite <- Math_floor_ratio. apply Math_floor_compat.
  unfold num. rewrite inject_Z_mult. field.
Qed.

Lemma num_nonzero (n : Z) : n <> 0 -> ~ (num n == 0)%Q.
Proof.
  intros Hn E. unfold num, Qeq in E. simpl in E. lia.
Qed.

(** [Math.round(m / (w / h))], the height that goes with width [m]. *)
Lemma round_div_ratio (m w h : Z) :
  0 < w -> 0 < h ->
  Math_round (num m / (num w / num h))%Q = (2 * m * h + w) / (2 * w).
Proof.
  intros Hw Hh. unfold Math_round. fold (Math_floor (num m / (num w / num h) + (1 # 2))%Q).
  rewrite <- Math_floor_ratio. apply Math_floor_compat.
  unfold num. rewrite inject_Z_plus, !inject_Z_mult. fold (num w) (num h) (num m).
  field. split; apply num_nonzero; lia.
Qed.

(** [Math.round(m * (w / h))], the width that goes with height [m]. *)
Lemma round_mul_ratio (m w h : Z) :
  0 < h ->
  Math_round (num m * (num w / num h))%Q = (2 * m * w + h) / (2 * h).
Proof.
  intros Hh. unfold Math_round. fold (Math_floor (num m * (num w / num h) + (1 # 2))%Q).
  rewrite <- Math_floor_ratio. apply Math_floor_compat.
  unfold num. rewrite inject_Z_plus, !inject_Z_mult. fold (num w) (num h) (num m).
  field. apply num_nonzero; lia.
Qed.

Lemma div_bounds (a b : Z) : 0 < b -> b * (a / b) <= a < b * (a / b) + b.
Proof.
  intros Hb. pose proof (Z.mul_div_le a b Hb). pose proof (Z.mul_succ_div_gt a b Hb). lia.
Qed.

(** ** The parameters [sharp] accepts *)

Ltac outcome_unfold := unfold mbind, Outcome_bind, mret, Outcome_ret in *.

Lemma resize_returned (width height : Z) (image image' : Sharp) :
  resize width height image = Returned image' ->
  0 < width /\ 0 < height /\
  image' = {| sh_input := sh_input image; sh_resize := Some (width, height) |}.
Proof.
  unfold resize. destruct (Z.ltb_spec 0 width); [|discriminate].
  destruct (Z.ltb_spec 0 height); [|discriminate].
  intros [= <-]. auto.
Qed.

Lemma resize_accepts (width height : Z) (image : Sharp) :
  0 < width -> 0 < height ->
  resize width height image =
    Returned {| sh_input := sh_input image; sh_resize := Some (width, height) |}.
Proof.
  intros Hw Hh. unfold resize.
  destruct (Z.ltb_spec 0 width); [|lia]. destruct (Z.ltb_spec 0 height); [|lia].
  reflexivity.
Qed.

Lemma resize_thrown (width height : Z) (image : Sharp) (e : Error) :
  resize width height image = Thrown e -> width <= 0 \/ height <= 0.
Proof.
  unfold resize. destruct (Z.ltb_spec 0 width); [|lia].
  destruct (Z.ltb_spec 0 height); [discriminate|lia].
Qed.

Lemma toBuffer_jpeg_returned (image : Sharp) (quality : Z) (b : Buffer) :
  toBuffer_jpeg image quality = Returned b ->
  1 <= quality <= 100 /\ b = {| buf_image := image; buf_codec := JpegOptions quality |}.
Proof.
  unfold toBuffer_jpeg.
  destruct (Z.leb_spec 1 quality); destruct (Z.leb_spec quality 100); simpl;
    try discriminate.
  intros [= <-]. split; [lia|reflexivity].
Qed.

Lemma toBuffer_jpeg_accepts (image : Sharp) (quality : Z) :
  1 <= quality <= 100 ->
  toBuffer_jpeg image quality =
    Returned {| buf_image := image; buf_codec := JpegOptions quality |}.
Proof.
  intros Hq. unfold toBuffer_jpeg.
  destruct (Z.leb_spec 1 quality); destruct (Z.leb_spec quality 100); simpl;
    try lia; reflexivity.
Qed.

Lemma toBuffer_jpeg_thrown (image : Sharp) (quality : Z) (e : Error) :
  toBuffer_jpeg image quality = Thrown e -> quality < 1 \/ 100 < quality.
Proof.
  unfold toBuffer_jpeg.
  destruct (Z.leb_spec 1 quality); destruct (Z.leb_spec quality 100); simpl;
    try discriminate; lia.
Qed.

(** What an encode that did not throw is. *)
Lemma encode_returned (format : Format) (st : Locals) (b : Buffer) :
  encode format st = Returned b ->
  buf_image b = image st /\
  match format with
  | jpeg => 1 <= currentQuality st <= 100 /\ buf_codec b = JpegOptions (currentQuality st)
  | png => buf_codec b = PngOptions 9
  end.
Proof.
  unfold encode. destruct format; cbn [is_jpeg].
  - intros [= <-]. split; reflexivity.
  - intros Hb. apply toBuffer_jpeg_returned in Hb as [Hq ->]. auto.
Qed.

(** What a reduction that did not throw leaves. *)
Lemma reduce_returned (imgBuffer : Image) (format : Format) (st st' : Locals) :
  reduce imgBuffer format st = Returned st' ->
  iterations st' = S (iterations st) /\
  compressedBuffer st' = compressedBuffer st /\
  image st' = {| sh_input := imgBuffer;
                 sh_resize := Some (currentWidth st', currentHeight st') |} /\
  0 < currentWidth st' /\ 0 < currentHeight st' /\
  match format with
  | jpeg => currentQuality st' = decay_quality (currentQuality st) /\
            currentWidth st' = currentWidth st /\ currentHeight st' = currentHeight st
  | png => currentQuality st' = currentQuality st /\
           currentWidth st' = shrink (currentWidth st) /\
           currentHeight st' = shrink (currentHeight st)
  end.
Proof.
  unfold reduce. destruct format; cbn [is_jpeg]; cbv zeta; outcome_unfold;
    match goal with |- context [resize ?w ?h ?i] =>
      destruct (resize w h i) as [image'|e] eqn:Hresize end;
    try discriminate; intros [= <-];
    apply resize_returned in Hresize as (Hw & Hh & ->);
    cbn [iterations compressedBuffer image currentWidth currentHeight currentQuality
         sh_input sharp];
    repeat split; assumption.
Qed.

Lemma reduce_thrown (imgBuffer : Image) (format : Format) (st : Locals) (e : Error) :
  reduce imgBuffer format st = Thrown e ->
  match format with
  | jpeg => currentWidth st <= 0 \/ currentHeight st <= 0
  | png => shrink (currentWidth st) <= 0 \/ shrink (currentHeight st) <= 0
  end.
Proof.
  unfold reduce. destruct format; cbn [is_jpeg]; cbv zeta; outcome_unfold;
    match goal with |- context [resize ?w ?h ?i] =>
      destruct (resize w h i) as [image'|e'] eqn:Hresize end;
    try discriminate; intros _; exact (resize_thrown _ _ _ _ Hresize).
Qed.

Lemma reduce_accepts (imgBuffer : Image) (format : Format) (st : Locals) :
  match format with
  | jpeg => 0 < currentWidth st /\ 0 < currentHeight st
  | png => 0 < shrink (currentWidth st) /\ 0 < shrink (currentHeight st)
  end ->
  exists st', reduce imgBuffer format st = Returned st'.
Proof.
  unfold reduce. destruct format; cbn [is_jpeg]; cbv zeta; intros [Hw Hh];
    rewrite resize_accepts by assumption; outcome_unfold; eexists; reflexivity.
Qed.

(** ** The bounded loop *)

Lemma while_loop_step `{Encoder} imgBuffer format maxSizeBytes st :
  while_loop imgBuffer format maxSizeBytes st =
    if (iterations st <? maxIterations)%nat then
      b ← encode format st;
      if break_test maxSizeBytes b (with_buffer b st) then Returned (with_buffer b st)
      else st' ← reduce imgBuffer format (with_buffer b st);
           while_loop imgBuffer format maxSizeBytes st'
    else Returned st.
Proof.
  rewrite while_loop_equation_1. unfold while_loop_unfold_clause_1.
  destruct (lt_dec (iterations st) maxIterations) as [Hlt|Hge].
  - rewrite (proj2 (Nat.ltb_lt _ _) Hlt). unfold mbind, Outcome_bind.
    destruct (encode format st) as [b|e]; cbn; [|reflexivity].
    destruct (break_test maxSizeBytes b (with_buffer b st)); cbn; [reflexivity|].
    destruct (reduce imgBuffer format (with_buffer b st)); reflexivity.
  - apply Nat.ltb_nlt in Hge. rewrite Hge. reflexivity.
Qed.

Lemma iteration_returned imgBuffer format st st' :
  iteration imgBuffer format st = Returned st' ->
  exists b, encode format st = Returned b /\
            reduce imgBuffer format (with_buffer b st) = Returned st'.
Proof.
  unfold iteration. outcome_unfold.
  destruct (encode format st) as [b|e]; [|discriminate]. eauto.
Qed.

Lemma iteration_thrown imgBuffer format st e :
  iteration imgBuffer format st = Thrown e ->
  encode format st = Thrown e \/
  exists b, encode format st = Returned b /\
            reduce imgBuffer format (with_buffer b st) = Thrown e.
Proof.
  unfold iteration. outcome_unfold.
  destruct (encode format st) as [b|e']; [eauto|]. intros [= ->]. auto.
Qed.

Lemma iterations_iteration imgBuffer format st st' :
  iteration imgBuffer format st = Returned st' -> iterations st' = S (iterations st).
Proof.
  intros Hit. apply iteration_returned in Hit as (b & _ & Hred).
  apply reduce_returned in Hred as (Hi & _). exact Hi.
Qed.

Lemma after_S_inner imgBuffer format k st :
  after imgBuffer format (S k) st =
    (st1 ← iteration imgBuffer format st; after imgBuffer format k st1).
Proof.
  induction k as [|k IH].
  - cbn [after]. outcome_unfold. destruct (iteration imgBuffer format st); reflexivity.
  - change (after imgBuffer format (S (S k)) st)
      with (st' ← after imgBuffer format (S k) st; iteration imgBuffer format st').
    rewrite IH. cbn [after]. outcome_unfold.
    destruct (iteration imgBuffer format st); reflexivity.
Qed.

(** The passes before a pass that was reached were all completed. *)
Lemma after_prefix imgBuffer format n k st stn :
  after imgBuffer format n st = Returned stn -> (k <= n)%nat ->
  exists stk, after imgBuffer format k st = Returned stk.
Proof.
  revert stn. induction n as [|n IH]; intros stn Hn Hk.
  - assert (k = 0%nat) by lia. subst k. eauto.
  - destruct (Nat.eq_dec k (S n)) as [->|Hne]; [eauto|].
    cbn [after] in Hn. outcome_unfold.
    destruct (after imgBuffer format n st) as [st'|e]; [|discriminate].
    apply (IH st' eq_refl). lia.
Qed.

Lemma after_S_returned imgBuffer format k st st' :
  after imgBuffer format (S k) st = Returned st' ->
  exists stk b,
    after imgBuffer format k st = Returned stk /\
    encode format stk = Returned b /\
    iteration imgBuffer format stk = Returned st' /\
    compressedBuffer st' = Some b.
Proof.
  cbn [after]. outcome_unfold.
  destruct (after imgBuffer format k st) as [stk|e]; [|discriminate].
  intros Hit. destruct (iteration_returned _ _ _ _ Hit) as (b & Hb & Hred).
  exists stk, b. split; [reflexivity|]. split; [exact Hb|]. split; [exact Hit|].
  apply reduce_returned in Hred as (_ & Hbuf & _). rewrite Hbuf. reflexivity.
Qed.

Lemma stops_false `{Encoder} format maxSizeBytes st :
  stops format maxSizeBytes st = Returned false <->
  exists b, encode format st = Returned b /\
            maxSizeBytes < Buffer_length b /\ 10 < currentQuality st.
Proof.
  unfold stops, break_test. outcome_unfold. cbn [currentQuality with_buffer].
  destruct (encode format st) as [b|e].
  - split.
    + intros Hs. exists b. split; [reflexivity|].
      destruct (Z.leb_spec (Buffer_length b) maxSizeBytes);
        destruct (Z.leb_spec (currentQuality st) 10); simpl in Hs;
        try discriminate. lia.
    + intros (b' & Hb' & Hsize & Hq). injection Hb' as Hb'. subst b'.
      destruct (Z.leb_spec (Buffer_length b) maxSizeBytes); [lia|].
      destruct (Z.leb_spec (currentQuality st) 10); [lia|]. reflexivity.
  - split; [discriminate|]. intros (b & Hb & _). discriminate.
Qed.

Lemma stops_true `{Encoder} format maxSizeBytes st :
  stops format maxSizeBytes st = Returned true <->
  exists b, encode format st = Returned b /\
            (Buffer_length b <= maxSizeBytes \/ currentQuality st <= 10).
Proof.
  unfold stops, break_test. outcome_unfold. cbn [currentQuality with_buffer].
  destruct (encode format st) as [b|e].
  - split.
    + intros Hs. exists b. split; [reflexivity|].
      destruct (Z.leb_spec (Buffer_length b) maxSizeBytes); [lia|].
      destruct (Z.leb_spec (currentQuality st) 10); [lia|]. discriminate.
    + intros (b' & Hb' & Hor). injection Hb' as Hb'. subst b'.
      destruct (Z.leb_spec (Buffer_length b) maxSizeBytes); [reflexivity|].
      destruct (Z.leb_spec (currentQuality st) 10); [reflexivity|]. lia.
  - split; [discriminate|]. intros (b & Hb & _). discriminate.
Qed.

(** How a run of the loop ends.  It makes [n] passes that do not break
    and then breaks on the next encode, or has used up its
    [maxIterations] passes, or throws in the next pass: at the encode, or
    at the [resize] of the reduction. *)
Lemma while_loop_run `{Encoder} imgBuffer format maxSizeBytes st :
  (iterations st <= maxIterations)%nat ->
  exists (n : nat) (stn : Locals),
    (iterations st + n <= maxIterations)%nat /\
    after imgBuffer format n st = Returned stn /\
    (forall k stk, (k < n)%nat -> after imgBuffer format k st = Returned stk ->
       stops format maxSizeBytes stk = Returned false) /\
    (((iterations st + n < maxIterations)%nat /\
      exists b, encode format stn = Returned b /\
                stops format maxSizeBytes stn = Returned true /\
                while_loop imgBuffer format maxSizeBytes st = Returned (with_buffer b stn)) \/
     ((iterations st + n = maxIterations)%nat /\
      while_loop imgBuffer format maxSizeBytes st = Returned stn) \/
     ((iterations st + n < maxIterations)%nat /\
      exists e, while_loop imgBuffer format maxSizeBytes st = Thrown e /\
                (encode format stn = Thrown e \/
                 (stops format maxSizeBytes stn = Returned false /\
                  iteration imgBuffer format stn = Thrown e)))).
Proof.
  remember (maxIterations - iterations st)%nat as d eqn:Hd.
  revert st Hd. induction d as [|d IH]; intros st Hd Hle.
  - exists 0%nat, st. split; [lia|]. split; [reflexivity|].
    split; [intros k stk Hk; lia|]. right. left. split; [lia|].
    rewrite while_loop_step.
    destruct (Nat.ltb_spec (iterations st) maxIterations); [lia|reflexivity].
  - rewrite while_loop_step.
    destruct (Nat.ltb_spec (iterations st) maxIterations); [|lia].
    unfold mbind, Outcome_bind.
    destruct (encode format st) as [b|e] eqn:Hb.
    2: { exists 0%nat, st. split; [lia|]. split; [reflexivity|].
         split; [intros k stk Hk; lia|]. right. right. split; [lia|].
         exists e. split; [reflexivity|]. left. exact Hb. }
    assert (Hstops : stops format maxSizeBytes st =
                     Returned (break_test maxSizeBytes b (with_buffer b st))).
    { unfold stops. rewrite Hb. reflexivity. }
    destruct (break_test maxSizeBytes b (with_buffer b st)) eqn:Hbreak.
    { exists 0%nat, st. split; [lia|]. split; [reflexivity|].
      split; [intros k stk Hk; lia|]. left. split; [lia|].
      exists b. split; [exact Hb|]. split; [exact Hstops|reflexivity]. }
    assert (Hit : iteration imgBuffer format st = reduce imgBuffer format (with_buffer b st)).
    { unfold iteration. rewrite Hb. reflexivity. }
    destruct (reduce imgBuffer format (with_buffer b st)) as [st1|e] eqn:Hred.
    2: { exists 0%nat, st. split; [lia|]. split; [reflexivity|].
         split; [intros k stk Hk; lia|]. right. right. split; [lia|].
         exists e. split; [reflexivity|]. right. split; assumption. }
    pose proof (iterations_iteration _ _ _ _ Hit) as Hi1.
    destruct (IH st1) as (n & stn & Hn & Hafter & Hbefore & Hend); [lia|lia|].
    rewrite Hi1 in Hn, Hend.
    assert (Hshift : forall k, after imgBuffer format (S k) st = after imgBuffer format k st1).
    { intros k. rewrite after_S_inner, Hit. reflexivity. }
    exists (S n), stn. split; [lia|]. split; [rewrite Hshift; exact Hafter|]. split.
    { intros [|k] stk Hk Hstk.
      - injection Hstk as <-. exact Hstops.
      - rewrite Hshift in Hstk. apply (Hbefore k stk); [lia|exact Hstk]. }
    destruct Hend as [(Hlt & Hs)|[(Heq & Hw)|(Hlt & Hs)]].
    + left. split; [lia|exact Hs].
    + right. left. split; [lia|exact Hw].
    + right. right. split; [lia|exact Hs].
Qed.

(** The lossy track: only the quality moves. *)
Lemma after_jpeg imgBuffer k st st' :
  after imgBuffer jpeg k st = Returned st' ->
  currentQuality st' = Nat.iter k decay_quality (currentQuality st) /\
  currentWidth st' = currentWidth st /\
  currentHeight st' = currentHeight st /\
  iterations st' = (iterations st + k)%nat /\
  (sh_input (image st) = imgBuffer -> sh_input (image st') = imgBuffer) /\
  (sharp_dims (image st) = (currentWidth st, currentHeight st) ->
   sharp_dims (image st') = (currentWidth st, currentHeight st)).
Proof.
  revert st'. induction k as [|k IH]; intros st' Hafter.
  - injection Hafter as <-. cbn [Nat.iter]. repeat split; auto.
  - apply after_S_returned in Hafter as (stk & b & Hk & _ & Hit & _).
    destruct (IH stk Hk) as (Hq & Hw & Hh & Hi & _).
    apply iteration_returned in Hit as (b' & _ & Hred).
    apply reduce_returned in Hred as (Hi' & _ & Himg & _ & _ & Hq' & Hw' & Hh').
    cbn [currentQuality currentWidth currentHeight iterations with_buffer] in *.
    rewrite Himg. cbn [Nat.iter sh_input sharp_dims sh_resize].
    rewrite Hq', Hw', Hh', Hi', Hq, Hw, Hh, Hi. repeat split; auto; lia.
Qed.

(** The lossless track: only the dimensions move, and the pipeline is
    rebuilt for the shrunk box. *)
Lemma after_png imgBuffer k st st' :
  after imgBuffer png k st = Returned st' ->
  currentQuality st' = currentQuality st /\
  currentWidth st' = Nat.iter k shrink (currentWidth st) /\
  currentHeight st' = Nat.iter k shrink (currentHeight st) /\
  iterations st' = (iterations st + k)%nat /\
  (sh_input (image st) = imgBuffer -> sh_input (image st') = imgBuffer) /\
  (sharp_dims (image st) = (currentWidth st, currentHeight st) ->
   sharp_dims (image st') = (currentWidth st', currentHeight st')) /\
  ((0 < k)%nat -> 0 < currentWidth st' /\ 0 < currentHeight st').
Proof.
  revert st'. induction k as [|k IH]; intros st' Hafter.
  - injection Hafter as <-. cbn [Nat.iter]. repeat split; auto; lia.
  - apply after_S_returned in Hafter as (stk & b & Hk & _ & Hit & _).
    destruct (IH stk Hk) as (Hq & Hw & Hh & Hi & _).
    apply iteration_returned in Hit as (b' & _ & Hred).
    apply reduce_returned in Hred as (Hi' & _ & Himg & Hpw & Hph & Hq' & Hw' & Hh').
    cbn [currentQuality currentWidth currentHeight iterations with_buffer] in *.
    rewrite Himg. cbn [Nat.iter sh_input sharp_dims sh_resize].
    rewrite !Nat.iter_succ.
    split; [congruence|]. split; [congruence|]. split; [congruence|].
    split; [lia|]. split; [reflexivity|]. split; [reflexivity|]. intros _. split; assumption.
Qed.

Lemma decay_quality_closed_form (q : Z) : decay_quality q = Z.max 10 (4 * q / 5).
Proof. unfold decay_quality, Math_max. now rewrite floor_times_08. Qed.

Lemma shrink_closed_form (d : Z) : shrink d = 9 * d / 10.
Proof. unfold shrink. apply floor_times_09. Qed.

Lemma iter_ext {A : Type} (f g : A -> A) (k : nat) (x : A) :
  (forall y, f y = g y) -> Nat.iter k f x = Nat.iter k g x.
Proof. intros Hfg. induction k as [|k IH]; simpl; [reflexivity|]. now rewrite IH, Hfg. Qed.

Lemma decay_quality_mono (p q : Z) : p <= q -> decay_quality p <= decay_quality q.
Proof.
  intros Hpq. rewrite !decay_quality_closed_form.
  assert (4 * p / 5 <= 4 * q / 5) by (apply Z.div_le_mono; lia). lia.
Qed.

Lemma decay_quality_floor (q : Z) : 10 <= decay_quality q.
Proof. rewrite decay_quality_closed_form. lia. Qed.

Lemma decay_quality_below (q : Z) : 10 <= q -> decay_quality q <= q.
Proof.
  intros Hq. rewrite decay_quality_closed_form.
  pose proof (div_bounds (4 * q) 5 ltac:(lia)). lia.
Qed.

Lemma iter_decay_mono (k : nat) (p q : Z) :
  p <= q -> Nat.iter k decay_quality p <= Nat.iter k decay_quality q.
Proof.
  intros Hpq. induction k as [|k IH]; simpl; [exact Hpq|].
  now apply decay_quality_mono.
Qed.

Lemma iter_decay_floor (k : nat) (q : Z) :
  (0 < k)%nat -> 10 <= Nat.iter k decay_quality q.
Proof. destruct k; [lia|]. intros _. simpl. apply decay_quality_floor. Qed.

Lemma iter_decay_range (k : nat) (q : Z) :
  10 <= q -> 10 <= Nat.iter k decay_quality q <= q.
Proof.
  intros Hq. induction k as [|k IH]; simpl; [lia|].
  pose proof (decay_quality_below (Nat.iter k decay_quality q) ltac:(lia)).
  pose proof (decay_quality_floor (Nat.iter k decay_quality q)). lia.
Qed.

(** Every quality the lossy track reaches from a quality [sharp] accepts
    is one it accepts. *)
Lemma iter_decay_accepted (k : nat) (q : Z) :
  1 <= q <= 100 -> 1 <= Nat.iter k decay_quality q <= 100.
Proof.
  intros Hq. induction k as [|k IH]; simpl; [lia|].
  pose proof (decay_quality_floor (Nat.iter k decay_quality q)).
  rewrite decay_quality_closed_form in *.
  pose proof (div_bounds (4 * Nat.iter k decay_quality q) 5 ltac:(lia)). lia.
Qed.

(** Ten decays bring any schema-valid quality to the floor. *)
Lemma ten_decays (q : Z) : q <= 100 -> Nat.iter 10 decay_quality q = 10.
Proof.
  intros Hq.
  pose proof (iter_decay_mono 10 q 100 Hq) as Hle.
  pose proof (iter_decay_floor 10 q ltac:(lia)) as Hge.
  assert (E : Nat.iter 10 decay_quality 100 = 10) by (vm_compute; reflexivity).
  lia.
Qed.

Lemma shrink_bounds (d : Z) : 0 <= d -> 0 <= shrink d <= d.
Proof.
  intros Hd. rewrite shrink_closed_form.
  pose proof (div_bounds (9 * d) 10 ltac:(lia)). lia.
Qed.

Lemma shrink_mono (p q : Z) : p <= q -> shrink p <= shrink q.
Proof. intros Hpq. rewrite !shrink_closed_form. apply Z.div_le_mono; lia. Qed.

Lemma iter_shrink_bounds (k : nat) (d : Z) : 0 <= d -> 0 <= Nat.iter k shrink d <= d.
Proof.
  intros Hd. induction k as [|k IH]; simpl; [lia|].
  pose proof (shrink_bounds (Nat.iter k shrink d) ltac:(lia)). lia.
Qed.

Lemma iter_shrink_mono (k : nat) (p q : Z) :
  p <= q -> Nat.iter k shrink p <= Nat.iter k shrink q.
Proof.
  intros Hpq. induction k as [|k IH]; simpl; [exact Hpq|]. now apply shrink_mono.
Qed.

(** A side of at least 12 survives ten shrinks; 11 does not. *)
Lemma ten_shrinks_positive (k : nat) (d : Z) :
  (k <= 10)%nat -> 12 <= d -> 0 < Nat.iter k shrink d.
Proof.
  intros Hk Hd.
  assert (Hten : 1 <= Nat.iter 10 shrink d).
  { pose proof (iter_shrink_mono 10 12 d Hd) as Hle.
    assert (E : Nat.iter 10 shrink 12 = 1) by (vm_compute; reflexivity). lia. }
  assert (Hdown : forall j, Nat.iter (k + j) shrink d <= Nat.iter k shrink d).
  { intros j. rewrite Nat.add_comm. rewrite Nat.iter_add.
    apply iter_shrink_bounds. apply iter_shrink_bounds. lia. }
  specialize (Hdown (10 - k)%nat). replace (k + (10 - k))%nat with 10%nat in Hdown by lia.
  lia.
Qed.

(** ** Entry to the loop *)

Lemma clamp_fired_dec (imgBuffer : Image) (maxWidth maxHeight : Z) :
  (maxWidth <? meta_width imgBuffer) || (maxHeight <? meta_height imgBuffer) = true <->
  maxWidth < meta_width imgBuffer \/ maxHeight < meta_height imgBuffer.
Proof.
  destruct (Z.ltb_spec maxWidth (meta_width imgBuffer));
    destruct (Z.ltb_spec maxHeight (meta_height imgBuffer)); simpl; split; intros;
    try discriminate; try reflexivity; lia.
Qed.

(** The clamp leaves an image that already fits untouched. *)
Lemma clamp_dimensions_fits_already (w h maxWidth maxHeight : Z) :
  w <= maxWidth -> h <= maxHeight ->
  clamp_dimensions w h maxWidth maxHeight = (w, h).
Proof.
  intros Hw Hh. unfold clamp_dimensions.
  destruct (Z.ltb_spec maxWidth w); [lia|].
  destruct (Z.ltb_spec maxHeight h); [lia|]. reflexivity.
Qed.

(** What the locals are when the loop is entered. *)
Lemma initial_locals_returned imgBuffer quality maxWidth maxHeight st0 :
  initial_locals imgBuffer quality maxWidth maxHeight = Returned st0 ->
  (currentWidth st0, currentHeight st0) =
    clamp_dimensions (meta_width imgBuffer) (meta_height imgBuffer) maxWidth maxHeight /\
  currentQuality st0 = quality /\ iterations st0 = 0%nat /\
  compressedBuffer st0 = None /\
  sh_input (image st0) = imgBuffer /\
  sharp_dims (image st0) = (currentWidth st0, currentHeight st0) /\
  (maxWidth < meta_width imgBuffer \/ maxHeight < meta_height imgBuffer ->
   0 < currentWidth st0 /\ 0 < currentHeight st0) /\
  (meta_width imgBuffer <= maxWidth /\ meta_height imgBuffer <= maxHeight ->
   image st0 = sharp imgBuffer).
Proof.
  unfold initial_locals, clamp_image.
  destruct ((maxWidth <? meta_width imgBuffer) || (maxHeight <? meta_height imgBuffer))
    eqn:Hex.
  - destruct (clamp_dimensions _ _ _ _) as [w h]. outcome_unfold.
    destruct (resize w h (sharp imgBuffer)) as [image'|e] eqn:Hresize; [|discriminate].
    apply resize_returned in Hresize as (Hw & Hh & ->). intros [= <-].
    cbn [currentWidth currentHeight currentQuality iterations compressedBuffer image
         sh_input sharp_dims sh_resize sharp].
    apply clamp_fired_dec in Hex.
    split; [reflexivity|]. split; [reflexivity|]. split; [reflexivity|].
    split; [reflexivity|]. split; [reflexivity|]. split; [reflexivity|].
    split; [intros _; split; assumption|]. intros [? ?]. lia.
  - assert (Hfits : meta_width imgBuffer <= maxWidth /\ meta_height imgBuffer <= maxHeight).
    { destruct (Z.ltb_spec maxWidth (meta_width imgBuffer));
        destruct (Z.ltb_spec maxHeight (meta_height imgBuffer)); simpl in Hex;
        try discriminate. lia. }
    rewrite clamp_dimensions_fits_already by lia. outcome_unfold. intros [= <-].
    cbn [currentWidth currentHeight currentQuality iterations compressedBuffer image
         sh_input sharp_dims sh_resize sharp].
    split; [reflexivity|]. split; [reflexivity|]. split; [reflexivity|].
    split; [reflexivity|]. split; [reflexivity|]. split; [reflexivity|].
    split; [intros [?|?]; lia|]. intros _. reflexivity.
Qed.


(** How a call ends: after [n <= 10] passes that did not break it returns
    the encode on which it broke, or, the ten passes used up, the encode
    of the tenth pass with the locals as reduced after it, or it throws in
    pass [n]. *)
Lemma compress_run `{Encoder} (imgBuffer : Image) (format : Format)
    (quality maxWidth maxHeight : Z) (maxSizeBytes : option Z) (st0 : Locals) :
  let ceiling := default default_maxSizeBytes maxSizeBytes in
  initial_locals imgBuffer quality maxWidth maxHeight = Returned st0 ->
  exists (n : nat) (stn : Locals),
    (n <= 10)%nat /\
    after imgBuffer format n st0 = Returned stn /\
    (forall k stk, (k < n)%nat -> after imgBuffer format k st0 = Returned stk ->
       stops format ceiling stk = Returned false) /\
    (((n < 10)%nat /\
      exists b, encode format stn = Returned b /\
                stops format ceiling stn = Returned true /\
                compressImageToFit imgBuffer format quality maxWidth maxHeight maxSizeBytes =
                  Returned {| Compressed.buffer := b;
                              Compressed.size := Buffer_length b;
                              Compressed.width := currentWidth stn;
                              Compressed.height := currentHeight stn;
                              Compressed.finalQuality := currentQuality stn |}) \/
     (n = 10%nat /\
      exists st9 b, after imgBuffer format 9 st0 = Returned st9 /\
                    encode format st9 = Returned b /\
                    iteration imgBuffer format st9 = Returned stn /\
                    compressImageToFit imgBuffer format quality maxWidth maxHeight
                      maxSizeBytes =
                      Returned {| Compressed.buffer := b;
                                  Compressed.size := Buffer_length b;
                                  Compressed.width := currentWidth stn;
                                  Compressed.height := currentHeight stn;
                                  Compressed.finalQuality := currentQuality stn |}) \/
     ((n < 10)%nat /\
      exists e, compressImageToFit imgBuffer format quality maxWidth maxHeight maxSizeBytes
                  = Thrown e /\
                (encode format stn = Thrown e \/
                 (stops format ceiling stn = Returned false /\
                  iteration imgBuffer format stn = Thrown e)))).
Proof.
  intros ceiling Hinit.
  destruct (initial_locals_returned _ _ _ _ _ Hinit) as (_ & _ & Hi0 & _).
  destruct (while_loop_run imgBuffer format ceiling st0) as (n & stn & Hn & Hafter & Hbefore & Hend);
    [rewrite Hi0; unfold maxIterations; lia|].
  rewrite Hi0 in Hn, Hend. unfold maxIterations in Hn, Hend. cbn [Nat.add] in Hn, Hend.
  exists n, stn. split; [exact Hn|]. split; [exact Hafter|]. split; [exact Hbefore|].
  assert (Hcomp :
    compressImageToFit imgBuffer format quality maxWidth maxHeight maxSizeBytes =
      match while_loop imgBuffer format ceiling st0 with
      | Returned st =>
          match compressedBuffer st with
          | None => Thrown (TypeError "Cannot read properties of undefined")
          | Some b =>
              Returned {| Compressed.buffer := b;
                          Compressed.size := Buffer_length b;
                          Compressed.width := currentWidth st;
                          Compressed.height := currentHeight st;
                          Compressed.finalQuality := currentQuality st |}
          end
      | Thrown e => Thrown e
      end).
  { unfold compressImageToFit. rewrite Hinit. reflexivity. }
  rewrite Hcomp.
  destruct Hend as [(Hlt & b & Hb & Hs & Hw)|[(Heq & Hw)|(Hlt & e & Hw & He)]];
    rewrite Hw.
  - left. split; [exact Hlt|]. exists b. split; [exact Hb|]. split; [exact Hs|].
    reflexivity.
  - right. left. subst n. split; [reflexivity|].
    destruct (after_S_returned _ _ _ _ _ Hafter) as (st9 & b & H9 & Hb & Hit & Hbuf).
    exists st9, b. split; [exact H9|]. split; [exact Hb|]. split; [exact Hit|].
    rewrite Hbuf. reflexivity.
  - right. right. split; [exact Hlt|]. exists e. split; [reflexivity|exact He].
Qed.

Lemma initial_locals_positive imgBuffer quality maxWidth maxHeight st0 :
  0 < meta_width imgBuffer -> 0 < meta_height imgBuffer ->
  initial_locals imgBuffer quality maxWidth maxHeight = Returned st0 ->
  0 < currentWidth st0 /\ 0 < currentHeight st0.
Proof.
  intros Hw Hh Hinit.
  destruct (initial_locals_returned _ _ _ _ _ Hinit) as (Hdims & _ & _ & _ & _ & _ & Hfired & _).
  destruct (Z.le_gt_cases (meta_width imgBuffer) maxWidth);
    destruct (Z.le_gt_cases (meta_height imgBuffer) maxHeight);
    try (apply Hfired; lia).
  rewrite clamp_dimensions_fits_already in Hdims by lia.
  injection Hdims as -> ->. auto.
Qed.

(** ** The pre-loop dimension clamp *)

(** Closed form of the clamp on integers. *)
Lemma clamp_dimensions_closed_form (w h maxWidth maxHeight : Z) :
  0 < w -> 0 < h ->
  clamp_dimensions w h maxWidth maxHeight =
    if maxWidth <? w then
      let h1 := (2 * maxWidth * h + w) / (2 * w) in
      if maxHeight <? h1 then ((2 * maxHeight * w + h) / (2 * h), maxHeight)
      else (maxWidth, h1)
    else if maxHeight <? h then ((2 * maxHeight * w + h) / (2 * h), maxHeight)
    else (w, h).
Proof.
  intros Hw Hh. unfold clamp_dimensions.
  destruct (Z.ltb_spec maxWidth w); simpl.
  - rewrite round_div_ratio by lia. rewrite round_mul_ratio by lia.
    destruct (Z.ltb_spec maxHeight ((2 * maxWidth * h + w) / (2 * w))); reflexivity.
  - destruct (Z.ltb_spec maxHeight h); simpl; [|reflexivity].
    rewrite round_mul_ratio by lia. reflexivity.
Qed.





(** ** The lossy track *)

(** C2.  Lossy track, for a call whose initial encode exists and is above
    the ceiling (so the requested quality is one [sharp] accepts, between
    1 and 100).  The decay is [q => max 10 (floor (q * 0.8))], written
    [Z.max 10 (4 * q / 5)] on integers, and [q k] is the requested quality
    after [k] decays.  The call returns after [n <= 10] decays, at least
    one if the requested quality is above 10.  It encodes once per pass,
    [min (n + 1) 10] times in all: pass [k] encodes the input at quality
    [q k] for the clamped box, and is followed by a decay only when its
    encode is above the ceiling and its quality above 10.  The returned
    dimensions are the clamped ones, and the returned buffer is the encode
    of the last pass.  When the loop broke ([n < 10]) that encode was made
    at the reported quality [q n], and it is within the ceiling or its
    quality is at most 10 (exactly 10 when the requested quality was at
    least 10).  When the ten passes were used up ([n = 10]) the reported
    quality is 10, but the returned buffer is the encode of the tenth pass,
    made at quality [q 9 > 10] and above the ceiling; no encode at the
    reported quality exists. *)
Theorem C2_lossy_quality_decay `{Encoder} (imgBuffer : Image)
    (quality maxWidth maxHeight : Z) (maxSizeBytes : option Z)
    (st0 : Locals) (b0 : Buffer) :
  let ceiling := default default_maxSizeBytes maxSizeBytes in
  let dims := (currentWidth st0, currentHeight st0) in
  let q (k : nat) := Nat.iter k (fun c => Z.max 10 (4 * c / 5)) quality in
  0 < meta_width imgBuffer -> 0 < meta_height imgBuffer ->
  initial_locals imgBuffer quality maxWidth maxHeight = Returned st0 ->
  encode jpeg st0 = Returned b0 ->
  ceiling < Buffer_length b0 ->
  (forall c, decay_quality c = Z.max 10 (4 * c / 5)) /\
  1 <= quality <= 100 /\
  exists (r : Compressed.t) (n : nat),
    compressImageToFit imgBuffer jpeg quality maxWidth maxHeight maxSizeBytes
      = Returned r /\
    (n <= 10)%nat /\
    (10 < quality -> (1 <= n)%nat) /\
    (forall k, (k <= Nat.min n 9)%nat ->
       exists (st : Locals) (b : Buffer),
         after imgBuffer jpeg k st0 = Returned st /\
         encode jpeg st = Returned b /\
         buf_codec b = JpegOptions (q k) /\
         sh_input (buf_image b) = imgBuffer /\
         sharp_dims (buf_image b) = dims /\
         ((k < n)%nat -> ceiling < Buffer_length b /\ 10 < q k)) /\
    Compressed.finalQuality r = q n /\
    (Compressed.width r, Compressed.height r) = dims /\
    sh_input (buf_image (Compressed.buffer r)) = imgBuffer /\
    sharp_dims (buf_image (Compressed.buffer r)) = dims /\
    buf_codec (Compressed.buffer r) = JpegOptions (q (Nat.min n 9)) /\
    Compressed.size r = Buffer_length (Compressed.buffer r) /\
    (Compressed.size r <= ceiling \/ Compressed.finalQuality r <= 10) /\
    (10 <= quality ->
     Compressed.size r <= ceiling \/ Compressed.finalQuality r = 10) /\
    ((n < 10)%nat ->
     buf_codec (Compressed.buffer r) = JpegOptions (Compressed.finalQuality r) /\
     (Compressed.size r <= ceiling \/ q n <= 10)) /\
    (n = 10%nat ->
     ceiling < Compressed.size r /\ 10 < q 9%nat /\ Compressed.finalQuality r = 10).
Proof.
  intros ceiling dims q Hmw Hmh Hinit Hb0 Hbig.
  destruct (initial_locals_returned _ _ _ _ _ Hinit)
    as (_ & Hq0 & _ & _ & Hin0 & Hdims0 & _).
  destruct (initial_locals_positive _ _ _ _ _ Hmw Hmh Hinit) as [Hpw Hph].
  destruct (encode_returned _ _ _ Hb0) as (_ & Hq & _). rewrite Hq0 in Hq.
  assert (Hqk : forall k, q k = Nat.iter k decay_quality quality).
  { intros k. subst q. cbv beta. apply iter_ext. intros c.
    symmetry. apply decay_quality_closed_form. }
  split; [exact decay_quality_closed_form|]. split; [exact Hq|].
  assert (Htrack : forall k stk, after imgBuffer jpeg k st0 = Returned stk ->
    currentQuality stk = q k /\
    currentWidth stk = currentWidth st0 /\ currentHeight stk = currentHeight st0 /\
    sh_input (image stk) = imgBuffer /\ sharp_dims (image stk) = dims).
  { intros k stk Hk. destruct (after_jpeg _ _ _ _ Hk) as (A & B & C & _ & D & E).
    rewrite Hq0 in A. rewrite Hqk.
    split; [exact A|]. split; [exact B|]. split; [exact C|].
    split; [exact (D Hin0)|exact (E Hdims0)]. }
  assert (Hencode : forall k stk, after imgBuffer jpeg k st0 = Returned stk ->
    encode jpeg stk = Returned {| buf_image := image stk; buf_codec := JpegOptions (q k) |}).
  { intros k stk Hk. destruct (Htrack k stk Hk) as (A & _).
    unfold encode. cbn [is_jpeg]. rewrite A. apply toBuffer_jpeg_accepts.
    rewrite Hqk. apply iter_decay_accepted. exact Hq. }
  destruct (compress_run imgBuffer jpeg quality maxWidth maxHeight maxSizeBytes st0 Hinit)
    as (n & stn & Hn & Hafter & Hbefore & Hend).
  fold ceiling in Hbefore, Hend.
  destruct (Htrack n stn Hafter) as (An & Bn & Cn & Dn & En).
  assert (Hrounds : forall k, (k <= n)%nat ->
    exists (st : Locals) (b : Buffer),
      after imgBuffer jpeg k st0 = Returned st /\
      encode jpeg st = Returned b /\
      buf_codec b = JpegOptions (q k) /\
      sh_input (buf_image b) = imgBuffer /\
      sharp_dims (buf_image b) = dims /\
      ((k < n)%nat -> ceiling < Buffer_length b /\ 10 < q k)).
  { intros k Hk. destruct (after_prefix _ _ _ k _ _ Hafter Hk) as (stk & Hstk).
    destruct (Htrack k stk Hstk) as (A & _ & _ & D & E).
    eexists stk, _. split; [exact Hstk|]. split; [exact (Hencode k stk Hstk)|].
    cbn [buf_codec buf_image]. split; [reflexivity|]. split; [exact D|]. split; [exact E|].
    intros Hlt. specialize (Hbefore k stk Hlt Hstk). apply stops_false in Hbefore.
    destruct Hbefore as (b & Hb & Hsize & Hqual).
    rewrite (Hencode k stk Hstk) in Hb. injection Hb as <-. rewrite A in Hqual. auto. }
  assert (Hfirst : 10 < quality -> (1 <= n)%nat).
  { intros Hgt. destruct n as [|n]; [|lia]. exfalso.
    injection Hafter as <-.
    destruct Hend as [(_ & b & Hb & Hs & _)|[(Heq & _)|(_ & e & _ & He)]]; [|lia|].
    - apply stops_true in Hs as (b' & Hb' & Hor).
      rewrite Hb0 in Hb'. injection Hb' as <-. rewrite Hq0 in Hor. lia.
    - destruct He as [He|[Hs He]]; [rewrite Hb0 in He; discriminate|].
      apply iteration_thrown in He as [He|(b & _ & He)];
        [rewrite Hb0 in He; discriminate|].
      apply reduce_thrown in He. cbn [currentWidth currentHeight with_buffer] in He. lia. }
  destruct Hend as [(Hlt & b & Hb & Hs & Hrun)|[(Heq & st9 & b & H9 & Hb & Hit & Hrun)
                   |(Hlt & e & _ & He)]].
  - (* the loop broke in pass n *)
    rewrite (Hencode n stn Hafter) in Hb. injection Hb as <-.
    apply stops_true in Hs as (b' & Hb' & Hor).
    rewrite (Hencode n stn Hafter) in Hb'. injection Hb' as <-. rewrite An in Hor.
    eexists; exists n. split; [exact Hrun|].
    cbn [Compressed.finalQuality Compressed.width Compressed.height Compressed.buffer
         Compressed.size buf_codec buf_image].
    replace (Nat.min n 9) with n by lia.
    split; [lia|]. split; [exact Hfirst|].
    split; [intros k Hk; apply Hrounds; lia|].
    split; [exact An|]. split; [unfold dims; congruence|]. split; [exact Dn|].
    split; [exact En|]. split; [reflexivity|]. split; [reflexivity|].
    rewrite An. split; [exact Hor|]. split.
    { intros Hge. destruct Hor as [Hor|Hor]; [left; exact Hor|right].
      destruct n as [|n]; [cbn in *; lia|].
      rewrite Hqk in *. pose proof (iter_decay_floor (S n) quality ltac:(lia)). lia. }
    split; [intros _; split; [reflexivity|exact Hor]|]. intros ->. lia.
  - (* the ten passes were used up *)
    subst n.
    destruct (Htrack 9%nat st9 H9) as (A9 & _ & _ & D9 & E9).
    rewrite (Hencode 9%nat st9 H9) in Hb. injection Hb as <-.
    assert (Hlast : ceiling < Buffer_length {| buf_image := image st9;
                                               buf_codec := JpegOptions (q 9%nat) |}
                    /\ 10 < q 9%nat).
    { specialize (Hbefore 9%nat st9 ltac:(lia) H9). apply stops_false in Hbefore.
      destruct Hbefore as (b & Hb & Hsize & Hqual).
      rewrite (Hencode 9%nat st9 H9) in Hb. injection Hb as <-. rewrite A9 in Hqual. auto. }
    assert (Hten : q 10%nat = 10) by (rewrite Hqk; apply ten_decays; lia).
    eexists; exists 10%nat. split; [exact Hrun|].
    cbn [Compressed.finalQuality Compressed.width Compressed.height Compressed.buffer
         Compressed.size buf_codec buf_image].
    change (Nat.min 10 9) with 9%nat.
    split; [lia|]. split; [exact Hfirst|].
    split; [intros k Hk; apply Hrounds; lia|].
    split; [exact An|]. split; [unfold dims; congruence|]. split; [exact D9|].
    split; [exact E9|]. split; [reflexivity|]. split; [reflexivity|].
    rewrite An, Hten. split; [right; lia|]. split; [intros _; right; reflexivity|].
    split; [intros Hlt; lia|]. intros _. destruct Hlast. auto.
  - (* nothing throws on this track *)
    exfalso. destruct He as [He|[_ He]].
    + rewrite (Hencode n stn Hafter) in He. discriminate.
    + apply iteration_thrown in He as [He|(b & _ & He)];
        [rewrite (Hencode n stn Hafter) in He; discriminate|].
      apply reduce_thrown in He. cbn [currentWidth currentHeight with_buffer] in He. lia.
Qed.

Lemma C2_lossy_quality_decay_witness :
  exists r : Compressed.t,
    @compressImageToFit pixel_encoder wide_capture jpeg 60 2560 1440 None = Returned r /\
    (Compressed.width r, Compressed.height r) = (2560, 1440) /\
    (Compressed.size r <= 950000 \/ Compressed.finalQuality r = 10).
Proof.
  assert (Hw : 0 < meta_width wide_capture) by (simpl; lia).
  assert (Hh : 0 < meta_height wide_capture) by (simpl; lia).
  assert (Hbig : 950000 < @Buffer_length pixel_encoder
                   {| buf_image := sharp wide_capture; buf_codec := JpegOptions 60 |})
    by (vm_compute; reflexivity).
  destruct (@C2_lossy_quality_decay pixel_encoder wide_capture 60 2560 1440 None
              {| image := sharp wide_capture; currentWidth := 2560; currentHeight := 1440;
                 currentQuality := 60; compressedBuffer := None; iterations := 0 |}
              {| buf_image := sharp wide_capture; buf_codec := JpegOptions 60 |}
              Hw Hh eq_refl eq_refl Hbig)
    as (_ & _ & r & n & Hr & _ & _ & _ & _ & Hdims & _ & _ & _ & _ & _ & Hstop & _).
  exists r. split; [exact Hr|]. split; [exact Hdims|]. apply Hstop. lia.
Defined.

(** ** The lossless track and the shape of the returned record *)

(** X24.  For PNG a requested quality of at most 10 ends the loop after
    the first encode, whatever its size: once the loop is entered (the
    clamp did not fire, or [sharp] accepted the clamped box) the call
    returns that encode with the clamped dimensions, and nothing is
    shrunk. *)
Lemma png_low_quality_never_shrinks `{Encoder} (imgBuffer : Image)
    (quality maxWidth maxHeight : Z) (maxSizeBytes : option Z) (st0 : Locals) :
  initial_locals imgBuffer quality maxWidth maxHeight = Returned st0 ->
  quality <= 10 ->
  compressImageToFit imgBuffer png quality maxWidth maxHeight maxSizeBytes =
    Returned {| Compressed.buffer := toBuffer_png (image st0) 9;
                Compressed.size := Buffer_length (toBuffer_png (image st0) 9);
                Compressed.width := currentWidth st0;
                Compressed.height := currentHeight st0;
                Compressed.finalQuality := quality |}.
Proof.
  intros Hinit Hq.
  destruct (initial_locals_returned _ _ _ _ _ Hinit) as (_ & Hq0 & Hi0 & _).
  unfold compressImageToFit. rewrite Hinit. unfold mbind at 1, Outcome_bind at 1.
  rewrite while_loop_step. rewrite Hi0. cbn [Nat.ltb Nat.leb maxIterations].
  unfold encode. cbn [is_jpeg]. unfold mbind at 2, Outcome_bind at 2.
  assert (Hbreak : break_test (default default_maxSizeBytes maxSizeBytes)
                     (toBuffer_png (image st0) 9)
                     (with_buffer (toBuffer_png (image st0) 9) st0) = true).
  { unfold break_test. cbn [currentQuality with_buffer]. rewrite Hq0.
    destruct (Z.leb_spec quality 10); [|lia]. apply orb_true_r. }
  rewrite Hbreak. unfold mbind, Outcome_bind.
  cbn [compressedBuffer with_buffer currentWidth currentHeight currentQuality].
  rewrite Hq0. reflexivity.
Qed.

(** X25.  When all ten passes are followed by a reduction, the returned
    buffer is the encode of the tenth pass while the record carries the
    locals as reduced after it. *)
Lemma bound_exit_reports_reduced_locals `{Encoder} (imgBuffer : Image) (format : Format)
    (quality maxWidth maxHeight : Z) (maxSizeBytes : option Z) (st0 st10 : Locals) :
  let ceiling := default default_maxSizeBytes maxSizeBytes in
  initial_locals imgBuffer quality maxWidth maxHeight = Returned st0 ->
  after imgBuffer format 10 st0 = Returned st10 ->
  (forall k st, (k < 10)%nat -> after imgBuffer format k st0 = Returned st ->
     stops format ceiling st = Returned false) ->
  exists (last : Locals) (b : Buffer),
    after imgBuffer format 9 st0 = Returned last /\
    encode format last = Returned b /\
    iteration imgBuffer format last = Returned st10 /\
    compressImageToFit imgBuffer format quality maxWidth maxHeight maxSizeBytes =
      Returned {| Compressed.buffer := b;
                  Compressed.size := Buffer_length b;
                  Compressed.width := currentWidth st10;
                  Compressed.height := currentHeight st10;
                  Compressed.finalQuality := currentQuality st10 |}.
Proof.
  intros ceiling Hinit H10 Hall.
  destruct (compress_run imgBuffer format quality maxWidth maxHeight maxSizeBytes st0 Hinit)
    as (n & stn & Hn & Hafter & _ & Hend).
  fold ceiling in Hend.
  assert (Hgo : (n < 10)%nat -> stops format ceiling stn = Returned false).
  { intros Hlt. exact (Hall n stn Hlt Hafter). }
  destruct Hend as [(Hlt & b & _ & Hs & _)|[(Heq & st9 & b & H9 & Hb & Hit & Hrun)
                   |(Hlt & e & _ & He)]].
  - rewrite (Hgo Hlt) in Hs. discriminate.
  - subst n. rewrite H10 in Hafter. injection Hafter as <-.
    exists st9, b. auto.
  - exfalso.
    destruct (after_prefix _ _ _ (S n) _ _ H10 ltac:(lia)) as (st' & Hnext).
    destruct (after_S_returned _ _ _ _ _ Hnext) as (stn' & b & Hn' & Hb & Hit & _).
    rewrite Hafter in Hn'. injection Hn' as <-.
    destruct He as [He|[_ He]]; congruence.
Qed.

(** X26.  The lossless track for a requested quality above 10, once the
    loop is entered.  The shrink is [d => floor (d * 0.9)], written
    [9 * d / 10] on integers, and [s k d] is the side [d] after [k]
    shrinks.  A call whose clamped sides are both at least 12 returns.
    Whenever the call returns, it has made [n <= 10] shrinks; pass [k]
    encodes the input as PNG for the box of the clamped sides shrunk [k]
    times, and a shrink follows only an encode above the ceiling; the
    reported dimensions are the clamped sides shrunk [n] times, both
    positive once a shrink was made, and the reported quality is the
    requested one.  When the loop broke ([n < 10]) the returned buffer is
    within the ceiling and was encoded for the box of the reported
    dimensions; when the ten passes were used up it is above the ceiling
    and was encoded for the box of the ninth shrink.  The encoded bitmap
    itself fits the box and keeps the input's aspect ratio. *)
Lemma lossless_track `{Encoder} (imgBuffer : Image)
    (quality maxWidth maxHeight : Z) (maxSizeBytes : option Z) (st0 : Locals) :
  let ceiling := default default_maxSizeBytes maxSizeBytes in
  let s (k : nat) (d : Z) := Nat.iter k (fun x => 9 * x / 10) d in
  let w0 := currentWidth st0 in
  let h0 := currentHeight st0 in
  initial_locals imgBuffer quality maxWidth maxHeight = Returned st0 ->
  10 < quality ->
  (forall d, shrink d = 9 * d / 10) /\
  (12 <= w0 -> 12 <= h0 ->
   exists r, compressImageToFit imgBuffer png quality maxWidth maxHeight maxSizeBytes
               = Returned r) /\
  forall r : Compressed.t,
    compressImageToFit imgBuffer png quality maxWidth maxHeight maxSizeBytes = Returned r ->
    exists n : nat,
      (n <= 10)%nat /\
      (forall k, (k <= Nat.min n 9)%nat ->
         exists st : Locals,
           after imgBuffer png k st0 = Returned st /\
           encode png st = Returned (toBuffer_png (image st) 9) /\
           sh_input (image st) = imgBuffer /\
           sharp_dims (image st) = (s k w0, s k h0) /\
           ((k < n)%nat -> ceiling < Buffer_length (toBuffer_png (image st) 9))) /\
      Compressed.width r = s n w0 /\
      Compressed.height r = s n h0 /\
      ((0 < n)%nat -> 0 < Compressed.width r /\ 0 < Compressed.height r) /\
      Compressed.finalQuality r = quality /\
      Compressed.size r = Buffer_length (Compressed.buffer r) /\
      buf_codec (Compressed.buffer r) = PngOptions 9 /\
      sh_input (buf_image (Compressed.buffer r)) = imgBuffer /\
      sharp_dims (buf_image (Compressed.buffer r)) = (s (Nat.min n 9) w0, s (Nat.min n 9) h0) /\
      ((n < 10)%nat ->
       Compressed.size r <= ceiling /\
       sharp_dims (buf_image (Compressed.buffer r)) =
         (Compressed.width r, Compressed.height r)) /\
      (n = 10%nat -> ceiling < Compressed.size r).
Proof.
  intros ceiling s w0 h0 Hinit Hq.
  destruct (initial_locals_returned _ _ _ _ _ Hinit)
    as (_ & Hq0 & _ & _ & Hin0 & Hdims0 & _).
  assert (Hs : forall k d, s k d = Nat.iter k shrink d).
  { intros k d. subst s. cbv beta. apply iter_ext. intros x.
    symmetry. apply shrink_closed_form. }
  split; [exact shrink_closed_form|].
  assert (Htrack : forall k stk, after imgBuffer png k st0 = Returned stk ->
    currentQuality stk = quality /\
    currentWidth stk = s k w0 /\ currentHeight stk = s k h0 /\
    sh_input (image stk) = imgBuffer /\ sharp_dims (image stk) = (s k w0, s k h0) /\
    ((0 < k)%nat -> 0 < currentWidth stk /\ 0 < currentHeight stk)).
  { intros k stk Hk. destruct (after_png _ _ _ _ Hk) as (A & B & C & _ & D & E & F).
    rewrite Hq0 in A. rewrite !Hs. fold w0 in B. fold h0 in C.
    split; [exact A|]. split; [exact B|]. split; [exact C|]. split; [exact (D Hin0)|].
    split; [rewrite (E Hdims0); congruence|exact F]. }
  destruct (compress_run imgBuffer png quality maxWidth maxHeight maxSizeBytes st0 Hinit)
    as (n & stn & Hn & Hafter & Hbefore & Hend).
  fold ceiling in Hbefore, Hend.
  destruct (Htrack n stn Hafter) as (An & Bn & Cn & Dn & En & Fn).
  assert (Hrounds : forall k, (k <= n)%nat ->
    exists st : Locals,
      after imgBuffer png k st0 = Returned st /\
      encode png st = Returned (toBuffer_png (image st) 9) /\
      sh_input (image st) = imgBuffer /\
      sharp_dims (image st) = (s k w0, s k h0) /\
      ((k < n)%nat -> ceiling < Buffer_length (toBuffer_png (image st) 9))).
  { intros k Hk. destruct (after_prefix _ _ _ k _ _ Hafter Hk) as (stk & Hstk).
    destruct (Htrack k stk Hstk) as (_ & _ & _ & D & E & _).
    exists stk. split; [exact Hstk|]. split; [reflexivity|]. split; [exact D|].
    split; [exact E|]. intros Hlt.
    specialize (Hbefore k stk Hlt Hstk). apply stops_false in Hbefore.
    destruct Hbefore as (b & Hb & Hsize & _). injection Hb as <-. exact Hsize. }
  split.
  - (* sides of at least 12 survive the ten shrinks *)
    intros Hw Hh.
    destruct Hend as [(_ & b & _ & _ & Hrun)|[(_ & st9 & b & _ & _ & _ & Hrun)
                     |(Hlt & e & _ & He)]]; [eauto|eauto|].
    exfalso. destruct He as [He|[_ He]]; [discriminate|].
    apply iteration_thrown in He as [He|(b & _ & He)]; [discriminate|].
    apply reduce_thrown in He. cbn [currentWidth currentHeight with_buffer] in He.
    rewrite Bn, Cn, !Hs in He.
    pose proof (ten_shrinks_positive (S n) w0 ltac:(lia) Hw) as Hpw.
    pose proof (ten_shrinks_positive (S n) h0 ltac:(lia) Hh) as Hph.
    rewrite Nat.iter_succ in Hpw, Hph. lia.
  - intros r Hr.
    destruct Hend as [(Hlt & b & Hb & Hstop & Hrun)|[(Heq & st9 & b & H9 & Hb & Hit & Hrun)
                     |(Hlt & e & Hrun & _)]]; [| |congruence].
    + rewrite Hrun in Hr. injection Hr as <-. injection Hb as <-.
      apply stops_true in Hstop as (b' & Hb' & Hor). injection Hb' as <-.
      exists n.
      cbn [Compressed.finalQuality Compressed.width Compressed.height Compressed.buffer
           Compressed.size buf_codec buf_image toBuffer_png].
      replace (Nat.min n 9) with n by lia.
      split; [lia|]. split; [intros k Hk; apply Hrounds; lia|].
      split; [exact Bn|]. split; [exact Cn|]. split; [exact Fn|]. split; [exact An|].
      split; [reflexivity|]. split; [reflexivity|]. split; [exact Dn|].
      split; [exact En|]. split; [|intros ->; lia].
      intros _. split; [rewrite An in Hor; lia|]. rewrite En. congruence.
    + subst n. rewrite Hrun in Hr. injection Hr as <-. injection Hb as <-.
      destruct (Htrack 9%nat st9 H9) as (_ & _ & _ & D9 & E9 & _).
      exists 10%nat.
      cbn [Compressed.finalQuality Compressed.width Compressed.height Compressed.buffer
           Compressed.size buf_codec buf_image toBuffer_png].
      change (Nat.min 10 9) with 9%nat.
      split; [lia|]. split; [intros k Hk; apply Hrounds; lia|].
      split; [exact Bn|]. split; [exact Cn|]. split; [exact Fn|]. split; [exact An|].
      split; [reflexivity|]. split; [reflexivity|]. split; [exact D9|].
      split; [exact E9|]. split; [intros Hlt; lia|]. intros _.
      specialize (Hbefore 9%nat st9 ltac:(lia) H9). apply stops_false in Hbefore.
      destruct Hbefore as (b & Hb & Hsize & _). injection Hb as <-. exact Hsize.
Qed.

(** C3.  At the failing input (PNG, requested quality 10, a 2560x1440
    capture of incompressible content) the loop breaks after the first
    encode: nothing is shrunk although the encode is far above the ceiling.
    The same capture at quality 11 is shrunk nine times. *)
Theorem C3_png_track_gated_by_quality :
  @compressImageToFit pixel_encoder wide_capture png 10 2560 1440 None =
    Returned {| Compressed.buffer := toBuffer_png (sharp wide_capture) 9;
                Compressed.size := 11059200;
                Compressed.width := 2560;
                Compressed.height := 1440;
                Compressed.finalQuality := 10 |} /\
  exists r : Compressed.t,
    @compressImageToFit pixel_encoder wide_capture png 11 2560 1440 None = Returned r /\
    sharp_dims (buf_image (Compressed.buffer r)) = (990, 556).
Proof.
  split; [vm_compute; reflexivity|].
  eexists. split; [vm_compute; reflexivity|]. reflexivity.
Qed.

(** C4.  At the failing input (PNG, default quality 60, a 2560x1440 capture
    of incompressible content) the loop uses up its ten passes: the
    returned buffer was encoded at 990x556, the record reports 891x500. *)
Theorem C4_record_disagrees_with_buffer :
  exists r : Compressed.t,
    @compressImageToFit pixel_encoder wide_capture png 60 2560 1440 None = Returned r /\
    sharp_dims (buf_image (Compressed.buffer r)) = (990, 556) /\
    (Compressed.width r, Compressed.height r) = (891, 500) /\
    Compressed.size r = 1651320.
Proof.
  eexists. split; [vm_compute; reflexivity|]. repeat split.
Qed.

(** ** Session controller *)

Ltac js_unfold :=
  unfold mbind, Js_bind, mret, Js_ret, gets, modify_this, modify_world, throw,
    lift_outcome in *.

Lemma call_run (c : Call) (st : State) :
  call c st =
    (if rejects (world st) c then Thrown rejected else Returned tt,
     {| this := this st; world := set_log (c :: log (world st)) (world st) |}).
Proof.
  unfold call. js_unfold. simpl. destruct (rejects (world st) c); reflexivity.
Qed.

(** C6.  From a state with a connected browser and an open current page,
    two calls of [ensureBrowser] in succession (with any arguments) both
    return the handles the manager already holds and leave the state,
    hence the log of driver calls, exactly as it was: no launch, no new
    page. *)
Theorem C6_ensureBrowser_idempotent (st : State)
    (headless1 headless2 : option bool) (width1 height1 width2 height2 : option Z) :
  browser_live (this st) (world st) = true ->
  page_usable (this st) (world st) = true ->
  let '(r1, st1) := ensureBrowser headless1 width1 height1 st in
  let '(r2, st2) := ensureBrowser headless2 width2 height2 st1 in
  r1 = Returned (browser (this st), page (this st)) /\
  r2 = r1 /\
  st1 = st /\ st2 = st /\
  log (world st2) = log (world st).
Proof.
  intros Hlive Husable.
  assert (Hrun : forall h w ht,
    ensureBrowser h w ht st = (Returned (browser (this st), page (this st)), st)).
  { intros h w ht. unfold ensureBrowser, ensure_page. js_unfold.
    rewrite Hlive, Husable. reflexivity. }
  rewrite Hrun, Hrun. auto.
Qed.

Lemma page_goto_run (p : PageHandle) (url : string) (st : State) :
  page_goto p url st =
    if rejects (world st) (CGoto p url)
    then (Thrown rejected,
          {| this := this st; world := set_log (CGoto p url :: log (world st)) (world st) |})
    else (Returned tt,
          {| this := this st;
             world := set_pages
               (alter (navigate url) p (pages (world st)))
               (set_log (CGoto p url :: log (world st)) (world st)) |}).
Proof.
  unfold page_goto, update_page. js_unfold. rewrite call_run. simpl.
  destruct (rejects (world st) (CGoto p url)); reflexivity.
Qed.

Lemma page_close_run (p : PageHandle) (st : State) :
  page_close p st =
    if rejects (world st) (CPageClose p)
    then (Thrown rejected,
          {| this := this st; world := set_log (CPageClose p :: log (world st)) (world st) |})
    else (Returned tt,
          {| this := this st;
             world := set_browsers (forget_page p <$> browsers (world st))
               (set_pages (alter mark_closed p (pages (world st)))
                  (set_log (CPageClose p :: log (world st)) (world st))) |}).
Proof.
  unfold page_close. js_unfold. rewrite call_run. simpl.
  destruct (rejects (world st) (CPageClose p)); reflexivity.
Qed.

(** ** The ['targetcreated'] listener *)

(** C1 as stated fails: with a driver that rejects the redirect (and
    nothing else), the popup of [popup_state] is still open when the
    listener is done. *)
Lemma C1_counterexample : ~ new_context_always_closed.
Proof.
  intros Hclaim.
  specialize (Hclaim (popup_state goto_fails) 2%nat
                (ex_intro _ 1%nat eq_refl) eq_refl eq_refl eq_refl).
  vm_compute in Hclaim. discriminate.
Qed.

(** C1, amended.  For an intercepted page with a non-blank URL the
    listener first navigates the current page to that URL.  If there is no
    current page, or the driver rejects the navigation, the listener
    throws at that point: it makes no [close] call and no page changes.
    If the navigation is accepted, the current page is at the URL and the
    listener calls [close] on the new page, which is closed when the
    driver accepts that call. *)
Theorem C1_new_context_closed_after_redirect (st : State) (newPage : PageHandle) :
  same_page (page (this st)) newPage = false ->
  is_blank_or_empty (page_url newPage (world st)) = false ->
  let url := page_url newPage (world st) in
  let '(r, st') :=
    on_targetcreated {| target_type := "page"; target_page := Some newPage |} st in
  this st' = this st /\
  match page (this st) with
  | None =>
      r = Thrown (TypeError "Cannot read properties of null (reading 'goto')") /\
      world st' = world st
  | Some p =>
      if rejects (world st) (CGoto p url) then
        r = Thrown rejected /\
        log (world st') = CGoto p url :: log (world st) /\
        pages (world st') = pages (world st) /\
        browsers (world st') = browsers (world st)
      else
        log (world st') = CPageClose newPage :: CGoto p url :: log (world st) /\
        (is_Some (pages (world st) !! p) -> page_url p (world st') = url) /\
        if rejects (world st) (CPageClose newPage) then
          r = Thrown rejected /\
          isClosed newPage (world st') = isClosed newPage (world st)
        else
          r = Returned tt /\ isClosed newPage (world st') = true
  end.
Proof.
  intros Hnew Hurl url. unfold on_targetcreated. simpl.
  js_unfold. rewrite Hnew.
  unfold is_blank_or_empty in Hurl. apply orb_false_elim in Hurl as [Ht Hb].
  apply negb_false_iff in Ht. fold url in Ht, Hb. fold url. rewrite Ht, Hb. simpl.
  destruct (page (this st)) as [p|] eqn:Hp.
  - rewrite page_goto_run. destruct (rejects (world st) (CGoto p url)) eqn:Hgoto.
    + simpl. auto.
    + rewrite page_close_run. simpl.
      assert (Hpn : p <> newPage).
      { unfold same_page in Hnew. apply Nat.eqb_neq in Hnew. exact Hnew. }
      destruct (rejects (world st) (CPageClose newPage)) eqn:Hclose; simpl.
      * split; [reflexivity|]. split; [reflexivity|]. split.
        { intros [pg Hpg]. unfold page_url. simpl. rewrite lookup_alter_eq, Hpg. reflexivity. }
        split; [reflexivity|]. unfold isClosed. simpl.
        rewrite lookup_alter_ne by exact Hpn. reflexivity.
      * split; [reflexivity|]. split; [reflexivity|]. split.
        { intros [pg Hpg]. unfold page_url. simpl.
          rewrite lookup_alter_ne by (intros E; apply Hpn; symmetry; exact E).
          rewrite lookup_alter_eq, Hpg. reflexivity. }
        split; [reflexivity|]. unfold isClosed. simpl. rewrite lookup_alter_eq.
        destruct (alter _ p (pages (world st)) !! newPage); reflexivity.
  - simpl. destruct st; auto.
Qed.

(** *** What a step leaves alone *)

Lemma no_relaunch_refl st : no_relaunch st st.
Proof. repeat split. exists []. auto. Qed.

Lemma no_relaunch_trans st1 st2 st3 :
  no_relaunch st1 st2 -> no_relaunch st2 st3 -> no_relaunch st1 st3.
Proof.
  intros (B1 & C1 & I1 & m1 & L1 & F1) (B2 & C2 & I2 & m2 & L2 & F2).
  split; [congruence|]. split; [congruence|]. split.
  - intros b. rewrite I2. apply I1.
  - exists (m2 ++ m1). rewrite L2, L1, app_assoc. split; [reflexivity|].
    rewrite forallb_app, F1, F2. reflexivity.
Qed.

Lemma keeps_session_bind {A B : Type} (m : Js A) (f : A -> Js B) :
  keeps_session m -> (forall a, keeps_session (f a)) -> keeps_session (m ≫= f).
Proof.
  intros Hm Hf st. unfold mbind, Js_bind.
  specialize (Hm st). destruct (m st) as [[a|e] st1]; simpl in *.
  - eapply no_relaunch_trans; [exact Hm|]. apply Hf.
  - exact Hm.
Qed.

Lemma keeps_session_ret {A : Type} (a : A) : keeps_session (mret a).
Proof. intros st. apply no_relaunch_refl. Qed.

Lemma keeps_session_gets {A : Type} (f : State -> A) : keeps_session (gets f).
Proof. intros st. apply no_relaunch_refl. Qed.

Lemma keeps_session_throw {A : Type} (e : Error) : keeps_session (@throw A e).
Proof. intros st. apply no_relaunch_refl. Qed.

Lemma keeps_session_call (c : Call) : is_launch c = false -> keeps_session (call c).
Proof.
  intros Hc st. rewrite call_run. simpl. repeat split.
  exists [c]. simpl. rewrite Hc. auto.
Qed.

Lemma keeps_session_set_page (p : option PageHandle) :
  keeps_session (modify_this (set_page p)).
Proof. intros st. simpl. repeat split. exists []. auto. Qed.

Lemma keeps_session_update_page (f : PageObject -> PageObject) (p : PageHandle) :
  keeps_session (update_page f p).
Proof. intros st. simpl. repeat split. exists []. auto. Qed.

Lemma isConnected_add_page (b b' : BrowserHandle) (p : PageHandle) (w : World) :
  isConnected b' (add_page b p w) = isConnected b' w.
Proof.
  unfold isConnected, add_page. simpl. rewrite lookup_alter.
  case_decide as Hb; [subst b'|reflexivity].
  destruct (browsers w !! b); reflexivity.
Qed.

Lemma keeps_session_open_page (b : BrowserHandle) : keeps_session (open_page b).
Proof.
  intros st. unfold open_page, fresh_handle. js_unfold. cbn [snd this world].
  repeat split.
  - intros b'. cbn [world]. rewrite isConnected_add_page. reflexivity.
  - exists []. auto.
Qed.

Lemma keeps_session_acquire_page (width height : Z) :
  keeps_session (acquire_page width height).
Proof.
  unfold acquire_page.
  apply keeps_session_bind; [apply keeps_session_gets|]. intros [b|].
  2: apply keeps_session_throw.
  apply keeps_session_bind.
  { unfold browser_pages. apply keeps_session_bind.
    - apply keeps_session_call. reflexivity.
    - intros _. apply keeps_session_gets. }
  intros ps. apply keeps_session_bind.
  { destruct ps as [|p ps].
    - apply keeps_session_bind.
      + unfold browser_newPage. apply keeps_session_bind.
        * apply keeps_session_call. reflexivity.
        * intros _. apply keeps_session_open_page.
      + intros p. apply keeps_session_set_page.
    - apply keeps_session_set_page. }
  intros _. apply keeps_session_bind; [apply keeps_session_gets|]. intros [p|].
  2: apply keeps_session_throw.
  apply keeps_session_bind.
  - unfold page_setViewport. apply keeps_session_bind.
    + apply keeps_session_call. reflexivity.
    + intros _. apply keeps_session_update_page.
  - intros _. unfold page_evaluateOnNewDocument. apply keeps_session_bind.
    + apply keeps_session_call. reflexivity.
    + intros _. apply keeps_session_update_page.
Qed.

Ltac wsimpl :=
  cbn [fst snd this world browser page chromePath set_page set_browser set_chromePath
       host browsers pages next_handle rejects launch_pages matches captured log
       set_browsers set_pages set_next_handle set_log add_page] in *.

(** *** Launching *)

Lemma open_pages_run (n : nat) (b : BrowserHandle) (st : State) :
  open_pages n b st = (Returned tt, {| this := this st; world := opened n b (world st) |}).
Proof.
  revert st. induction n as [|n IH]; intros st; simpl.
  - destruct st; reflexivity.
  - unfold mbind, Js_bind. unfold open_page at 1, fresh_handle. js_unfold.
    cbn [this world]. rewrite IH. reflexivity.
Qed.

Lemma opened_frame (n : nat) (b : BrowserHandle) (w : World) :
  log (opened n b w) = log w /\
  rejects (opened n b w) = rejects w /\
  host (opened n b w) = host w /\
  next_handle (opened n b w) = (next_handle w + n)%nat /\
  (forall b', isConnected b' (opened n b w) = isConnected b' w).
Proof.
  revert w. induction n as [|n IH]; intros w; simpl.
  - repeat split; auto.
  - destruct (IH (add_page b (next_handle w) (set_next_handle (S (next_handle w)) w)))
      as (L & R & H & N & C).
    rewrite L, R, H, N. simpl. repeat split; try lia.
    intros b'. rewrite C, isConnected_add_page. reflexivity.
Qed.

Lemma opened_pages_below (n : nat) (b : BrowserHandle) (w : World) (p : PageHandle) :
  (p < next_handle w)%nat -> pages (opened n b w) !! p = pages w !! p.
Proof.
  revert w. induction n as [|n IH]; intros w Hp; simpl; [reflexivity|].
  rewrite IH by (simpl; lia). simpl. apply lookup_insert_ne. lia.
Qed.

Lemma opened_browser (n : nat) (b : BrowserHandle) (w : World) (br : BrowserObject) :
  browsers w !! b = Some br ->
  browsers (opened n b w) !! b =
    Some (set_br_pages (br_pages br ++ seq (next_handle w) n) br).
Proof.
  revert w br. induction n as [|n IH]; intros w br Hbr; simpl.
  - rewrite app_nil_r, Hbr. destruct br; reflexivity.
  - erewrite IH.
    2: { simpl. rewrite lookup_alter_eq, Hbr. reflexivity. }
    simpl. rewrite <- app_assoc. reflexivity.
Qed.

Lemma opened_first_page (n : nat) (b : BrowserHandle) (w : World) :
  pages (opened (S n) b w) !! next_handle w = Some (blank_page b).
Proof.
  simpl. rewrite opened_pages_below by (simpl; lia). simpl. apply lookup_insert_eq.
Qed.

Lemma puppeteer_launch_run (executablePath : option string) (headless : bool)
    (width height : Z) (st : State) :
  let c := CLaunch executablePath headless width height in
  let w := world st in
  puppeteer_launch executablePath headless width height st =
    if rejects w c
    then (Thrown rejected, {| this := this st; world := set_log (c :: log w) w |})
    else (Returned (next_handle w),
          {| this := this st;
             world := opened (launch_pages w) (next_handle w)
               (set_browsers
                  (<[next_handle w := new_browser executablePath headless width height]>
                     (browsers w))
                  (set_next_handle (S (next_handle w)) (set_log (c :: log w) w))) |}).
Proof.
  intros c w. unfold puppeteer_launch. unfold mbind at 1, Js_bind at 1.
  rewrite call_run. fold c w. destruct (rejects w c); [reflexivity|].
  unfold fresh_handle. js_unfold. cbn [this world next_handle set_next_handle set_log
    launch_pages set_browsers]. rewrite open_pages_run. reflexivity.
Qed.

Lemma initialize_run (st : State) :
  initialize st =
    if has_chromePath (this st) then (Returned tt, st)
    else
      let w' := set_log (CFindChrome :: log (world st)) (world st) in
      match findChrome (host (world st)) with
      | Returned path =>
          (Returned tt, {| this := set_chromePath (Some path) (this st); world := w' |})
      | Thrown e => (Thrown e, {| this := this st; world := w' |})
      end.
Proof.
  unfold initialize. js_unfold. destruct (has_chromePath (this st)).
  - destruct st; reflexivity.
  - cbn [this world host set_log]. destruct (findChrome (host (world st))); reflexivity.
Qed.

Lemma launch_browser_run (headless : bool) (width height : Z) (st : State) :
  launch_browser headless width height st =
    match initialize st with
    | (Thrown e, st1) => (Thrown e, st1)
    | (Returned _, st1) =>
        match puppeteer_launch (chromePath (this st1)) headless width height st1 with
        | (Thrown e, st2) => (Thrown e, st2)
        | (Returned b, st2) =>
            (Returned tt,
             {| this := set_browser (Some b) (this st2);
                world := set_browsers (alter add_listener b (browsers (world st2)))
                           (world st2) |})
        end
    end.
Proof.
  unfold launch_browser, browser_on_targetcreated. js_unfold.
  destruct (initialize st) as [[[]|e] st1]; [|reflexivity].
  destruct (puppeteer_launch _ _ _ _ st1) as [[b|e] st2]; reflexivity.
Qed.

Lemma keeps_session_ensure_page (width height : Z) :
  keeps_session (ensure_page width height).
Proof.
  unfold ensure_page.
  apply keeps_session_bind; [apply keeps_session_gets|]. intros usable.
  apply keeps_session_bind.
  - destruct usable; [apply keeps_session_ret|apply keeps_session_acquire_page].
  - intros _. apply keeps_session_gets.
Qed.

Lemma isConnected_add_listener (b b' : BrowserHandle) (w : World) :
  isConnected b' (set_browsers (alter add_listener b (browsers w)) w) = isConnected b' w.
Proof.
  unfold isConnected. simpl. rewrite lookup_alter.
  case_decide as Hb; [subst b'|reflexivity].
  destruct (browsers w !! b); reflexivity.
Qed.

Lemma isConnected_lookup (b : BrowserHandle) (w : World) (br : BrowserObject) :
  browsers w !! b = Some br -> isConnected b w = br_connected br.
Proof. unfold isConnected. intros Hb. rewrite Hb. reflexivity. Qed.

(** A launch that the driver accepts: the state on leaving the launch
    branch. *)
Lemma launch_browser_accepted (headless : bool) (width height : Z) (st : State)
    (path : option string) :
  (if has_chromePath (this st) then chromePath (this st) = path
   else exists s, findChrome (host (world st)) = Returned s /\ path = Some s) ->
  rejects (world st) (CLaunch path headless width height) = false ->
  exists st',
    launch_browser headless width height st = (Returned tt, st') /\
    browser (this st') = Some (next_handle (world st)) /\
    page (this st') = page (this st) /\
    chromePath (this st') = path /\
    isConnected (next_handle (world st)) (world st') = true /\
    rejects (world st') = rejects (world st) /\
    next_handle (world st') = (S (next_handle (world st)) + launch_pages (world st))%nat /\
    browsers (world st') !! next_handle (world st) =
      Some (add_listener
             (set_br_pages (seq (S (next_handle (world st))) (launch_pages (world st)))
                (new_browser path headless width height))) /\
    (forall n, launch_pages (world st) = S n ->
       pages (world st') !! S (next_handle (world st)) =
         Some (blank_page (next_handle (world st)))) /\
    log (world st') =
      CLaunch path headless width height ::
        (if has_chromePath (this st) then [] else [CFindChrome]) ++ log (world st).
Proof.
  intros Hpath Hacc. rewrite launch_browser_run, initialize_run.
  destruct (has_chromePath (this st)) eqn:Hknown.
  - subst path. rewrite puppeteer_launch_run. cbv zeta. rewrite Hacc.
    eexists. split; [reflexivity|]. cbn [this world browser page chromePath set_browser].
    set (w1 := set_browsers _ (set_next_handle _ (set_log _ (world st)))).
    destruct (opened_frame (launch_pages (world st)) (next_handle (world st)) w1)
      as (L & R & _ & N & C).
    assert (Hb : browsers w1 !! next_handle (world st) =
                   Some (new_browser (chromePath (this st)) headless width height))
      by (subst w1; simpl; apply lookup_insert_eq).
    repeat split.
    + rewrite isConnected_add_listener, C. rewrite (isConnected_lookup _ _ _ Hb). reflexivity.
    + simpl. exact R.
    + simpl. rewrite N. reflexivity.
    + simpl. rewrite lookup_alter_eq. erewrite opened_browser by exact Hb. reflexivity.
    + intros n Hn. simpl. rewrite Hn.
      change (S (next_handle (world st))) with (next_handle w1). apply opened_first_page.
    + simpl. rewrite L. reflexivity.
  - destruct Hpath as (s & Hs & ->). rewrite Hs. cbv beta iota zeta.
    rewrite puppeteer_launch_run. cbv zeta.
    cbn [this world chromePath set_chromePath rejects set_log]. rewrite Hacc.
    eexists. split; [reflexivity|]. cbn [this world browser page chromePath set_browser].
    set (w1 := set_browsers _ (set_next_handle _ (set_log _ (set_log _ (world st))))).
    destruct (opened_frame (launch_pages (world st)) (next_handle (world st)) w1)
      as (L & R & _ & N & C).
    assert (Hb : browsers w1 !! next_handle (world st) =
                   Some (new_browser (Some s) headless width height))
      by (subst w1; simpl; apply lookup_insert_eq).
    repeat split.
    + rewrite isConnected_add_listener. cbn [launch_pages set_log next_handle].
      rewrite C. rewrite (isConnected_lookup _ _ _ Hb). reflexivity.
    + simpl. exact R.
    + simpl. rewrite N. reflexivity.
    + simpl. rewrite lookup_alter_eq. erewrite opened_browser by exact Hb. reflexivity.
    + intros n Hn. simpl. rewrite Hn.
      change (S (next_handle (world st))) with (next_handle w1). apply opened_first_page.
    + simpl. rewrite L. reflexivity.
Qed.

Lemma ensureBrowser_launch_branch (headless : option bool) (width height : option Z)
    (st : State) :
  browser_live (this st) (world st) = false ->
  ensureBrowser headless width height st =
    match launch_browser (default false headless) (default 1280 width)
            (default 720 height) st with
    | (Returned _, st') => ensure_page (default 1280 width) (default 720 height) st'
    | (Thrown e, st') => (Thrown e, st')
    end.
Proof.
  intros Hlive. unfold ensureBrowser. cbv zeta.
  unfold mbind, Js_bind, gets. rewrite Hlive.
  destruct (launch_browser _ _ _ st) as [[[]|e] st']; reflexivity.
Qed.

(** C9.  When discovery throws, [ensureBrowser] throws the same error
    without launching and leaves the manager as it was.  A later call, in
    any later world where the browser is still not live, runs discovery
    again: when discovery throws again so does the call; when it finds a
    path, the path is passed to [puppeteer.launch], and if the driver
    accepts the launch the manager holds the freshly allocated, connected
    browser. *)
Theorem C9_launch_failure_not_cached (st : State) (e : Error)
    (headless : option bool) (width height : option Z) :
  browser_live (this st) (world st) = false ->
  has_chromePath (this st) = false ->
  findChrome (host (world st)) = Thrown e ->
  let failed := ensureBrowser headless width height st in
  failed.1 = Thrown e /\
  this failed.2 = this st /\
  world failed.2 = set_log (CFindChrome :: log (world st)) (world st) /\
  forall (w2 : World) (headless2 : option bool) (width2 height2 : option Z),
    browser_live (this st) w2 = false ->
    let later :=
      ensureBrowser headless2 width2 height2 {| this := this failed.2; world := w2 |} in
    match findChrome (host w2) with
    | Thrown e2 =>
        later = (Thrown e2,
                 {| this := this st; world := set_log (CFindChrome :: log w2) w2 |})
    | Returned path =>
        let c := CLaunch (Some path) (default false headless2) (default 1280 width2)
                   (default 720 height2) in
        chromePath (this later.2) = Some path /\
        (exists more, log (world later.2) = more ++ c :: CFindChrome :: log w2) /\
        if rejects w2 c then later.1 = Thrown rejected
        else browser (this later.2) = Some (next_handle w2) /\
             isConnected (next_handle w2) (world later.2) = true
    end.
Proof.
  intros Hlive Hknown Hfind failed.
  assert (Hfailed : failed =
    (Thrown e, {| this := this st; world := set_log (CFindChrome :: log (world st)) (world st) |})).
  { subst failed. rewrite ensureBrowser_launch_branch by exact Hlive.
    rewrite launch_browser_run, initialize_run, Hknown, Hfind. reflexivity. }
  rewrite Hfailed. cbn [fst snd this world].
  split; [reflexivity|]. split; [reflexivity|]. split; [reflexivity|].
  intros w2 headless2 width2 height2 Hlive2.
  rewrite ensureBrowser_launch_branch by exact Hlive2.
  destruct (findChrome (host w2)) as [path|e2] eqn:Hfind2.
  - cbv zeta.
    destruct (rejects w2 (CLaunch (Some path) (default false headless2)
                (default 1280 width2) (default 720 height2))) eqn:Hrej.
    + rewrite launch_browser_run, initialize_run. cbn [this world]. rewrite Hknown, Hfind2.
      cbv beta iota zeta. rewrite puppeteer_launch_run. cbv zeta.
      cbn [this world chromePath set_chromePath rejects set_log]. rewrite Hrej.
      cbn [fst snd this world chromePath set_chromePath log set_log].
      split; [reflexivity|]. split; [exists []; reflexivity|reflexivity].
    + destruct (launch_browser_accepted (default false headless2) (default 1280 width2)
                  (default 720 height2) {| this := this st; world := w2 |} (Some path))
        as (st' & Hrun & Hb & _ & Hc & Hconn & _ & _ & _ & _ & Hlog).
      { cbn [this world]. rewrite Hknown. exists path. auto. }
      { exact Hrej. }
      rewrite Hrun. cbn [this world] in *. rewrite Hknown in Hlog.
      pose proof (keeps_session_ensure_page (default 1280 width2) (default 720 height2) st')
        as (Kb & Kc & Kconn & more & Klog & _).
      split; [congruence|]. split.
      * exists more. rewrite Klog, Hlog. reflexivity.
      * split; [congruence|]. rewrite Kconn. exact Hconn.
  - rewrite launch_browser_run, initialize_run. cbn [this world]. rewrite Hknown, Hfind2.
    reflexivity.
Qed.

(** *** Page acquisition *)

Lemma browser_pages_run (b : BrowserHandle) (st : State) :
  browser_pages b st =
    (if rejects (world st) (CPages b) then Thrown rejected
     else Returned (default [] (br_pages <$> browsers (world st) !! b)),
     {| this := this st; world := set_log (CPages b :: log (world st)) (world st) |}).
Proof.
  unfold browser_pages. js_unfold. rewrite call_run.
  destruct (rejects (world st) (CPages b)); reflexivity.
Qed.

Lemma browser_newPage_run (b : BrowserHandle) (st : State) :
  let w := set_log (CNewPage b :: log (world st)) (world st) in
  browser_newPage b st =
    if rejects (world st) (CNewPage b)
    then (Thrown rejected, {| this := this st; world := w |})
    else (Returned (next_handle (world st)),
          {| this := this st;
             world := add_page b (next_handle (world st))
                        (set_next_handle (S (next_handle (world st))) w) |}).
Proof.
  unfold browser_newPage, open_page, fresh_handle. js_unfold. rewrite call_run.
  destruct (rejects (world st) (CNewPage b)); reflexivity.
Qed.

(** Lines 232-242 on page [p]: [setViewport], then the [window.open]
    override. *)
Lemma configure_page_run (p : PageHandle) (width height : Z) (st : State) :
  let w := world st in
  let w1 := set_log (CSetViewport p width height :: log w) w in
  let w2 := set_pages (alter (set_viewport width height) p (pages w))
              (set_log (CEvaluateOnNewDocument p :: log w1) w1) in
  (page_setViewport p width height ;; page_evaluateOnNewDocument p) st =
    if rejects w (CSetViewport p width height)
    then (Thrown rejected, {| this := this st; world := w1 |})
    else if rejects w (CEvaluateOnNewDocument p)
    then (Thrown rejected, {| this := this st; world := w2 |})
    else (Returned tt,
          {| this := this st;
             world := set_pages (alter inject_open_override p (pages w2)) w2 |}).
Proof.
  cbv zeta. unfold page_setViewport, page_evaluateOnNewDocument, update_page.
  js_unfold. rewrite call_run.
  destruct (rejects (world st) (CSetViewport p width height)); [reflexivity|].
  rewrite call_run. cbn [this world rejects set_pages set_log].
  destruct (rejects (world st) (CEvaluateOnNewDocument p)); reflexivity.
Qed.

Lemma acquire_page_run (width height : Z) (st : State) (b : BrowserHandle) :
  browser (this st) = Some b ->
  let w := world st in
  let w1 := set_log (CPages b :: log w) w in
  acquire_page width height st =
    if rejects w (CPages b)
    then (Thrown rejected, {| this := this st; world := w1 |})
    else
      match default [] (br_pages <$> browsers w !! b) with
      | p :: _ =>
          (page_setViewport p width height ;; page_evaluateOnNewDocument p)
            {| this := set_page (Some p) (this st); world := w1 |}
      | [] =>
          let w2 := set_log (CNewPage b :: log w1) w1 in
          if rejects w (CNewPage b)
          then (Thrown rejected, {| this := this st; world := w2 |})
          else
            (page_setViewport (next_handle w) width height ;;
             page_evaluateOnNewDocument (next_handle w))
              {| this := set_page (Some (next_handle w)) (this st);
                 world := add_page b (next_handle w) (set_next_handle (S (next_handle w)) w2) |}
      end.
Proof.
  intros Hb. cbv zeta. unfold acquire_page.
  unfold mbind at 1, Js_bind at 1, gets at 1. rewrite Hb.
  unfold mbind at 1, Js_bind at 1. rewrite browser_pages_run.
  destruct (rejects (world st) (CPages b)); [reflexivity|].
  destruct (default [] (br_pages <$> browsers (world st) !! b)) as [|p ps].
  - unfold mbind at 1, Js_bind at 1. unfold mbind at 1, Js_bind at 1.
    rewrite browser_newPage_run. cbv zeta. cbn [this world rejects set_log].
    destruct (rejects (world st) (CNewPage b)); [reflexivity|].
    unfold modify_this at 1. cbn [this world set_page page].
    unfold mbind at 1, Js_bind at 1, gets at 1. cbn [this page set_page]. reflexivity.
  - unfold mbind at 1, Js_bind at 1. unfold modify_this at 1. cbn [this world].
    unfold mbind at 1, Js_bind at 1, gets at 1. cbn [this page set_page]. reflexivity.
Qed.

Lemma ensureBrowser_live_branch (headless : option bool) (width height : option Z)
    (st : State) :
  browser_live (this st) (world st) = true ->
  ensureBrowser headless width height st =
    ensure_page (default 1280 width) (default 720 height) st.
Proof.
  intros Hlive. unfold ensureBrowser. cbv zeta.
  unfold mbind, Js_bind, gets, mret, Js_ret. rewrite Hlive. reflexivity.
Qed.

Lemma ensure_page_acquire_branch (width height : Z) (st : State) :
  page_usable (this st) (world st) = false ->
  ensure_page width height st =
    match acquire_page width height st with
    | (Returned _, st') => (Returned (browser (this st'), page (this st')), st')
    | (Thrown e, st') => (Thrown e, st')
    end.
Proof.
  intros Husable. unfold ensure_page.
  unfold mbind, Js_bind, gets. rewrite Husable.
  destruct (acquire_page width height st) as [[[]|e] st']; reflexivity.
Qed.

(** C8 as stated fails: a session launched at 1920x1080 whose page was
    closed from outside gets, from the [ensureBrowser()] of the next
    request, a replacement page at 1280x720. *)
Lemma C8_counterexample : ~ reacquired_page_keeps_configured_viewport.
Proof.
  intros Hclaim.
  set (st' := (ensureBrowser None None None hd_closed_page_state).2).
  assert (Hrun : ensureBrowser None None None hd_closed_page_state =
                 (Returned (Some 0%nat, Some 2%nat), st'))
    by (vm_compute; reflexivity).
  assert (Hstale : page_usable (this hd_closed_page_state) (world hd_closed_page_state)
                   = false) by (vm_compute; reflexivity).
  assert (Hbr : browsers (world hd_closed_page_state) !! 0%nat = Some hd_browser)
    by (vm_compute; reflexivity).
  destruct (Hclaim hd_closed_page_state st' 0%nat hd_browser 2%nat None None None
              eq_refl Hbr eq_refl Hstale Hrun) as (pg & Hpg & Hview).
  subst st'. vm_compute in Hpg. injection Hpg as <-.
  vm_compute in Hview. discriminate.
Qed.

(** C8, amended.  With a connected browser and a current page that is
    absent or closed, a driver that accepts the calls involved and whose
    page list starts with an open page, [ensureBrowser] (run as one
    uninterrupted step) returns the same browser and the first page of the
    browser's list, or a freshly created page when the list is empty; that
    page becomes the current page and differs from the previous one, it
    carries the viewport of this call (the [width] and [height] it was
    given, 1280x720 when they are omitted) and one more injection of the
    [window.open] override, it is open, and the calls made are [pages],
    possibly [newPage], [setViewport] and [evaluateOnNewDocument]: no
    discovery and no launch.  The viewport the browser was launched with
    is neither read nor changed. *)
Theorem C8_page_reacquisition (st : State) (b : BrowserHandle) (br : BrowserObject)
    (headless : option bool) (width height : option Z) :
  browser (this st) = Some b ->
  browsers (world st) !! b = Some br ->
  br_connected br = true ->
  page_usable (this st) (world st) = false ->
  let w := default 1280 width in
  let h := default 720 height in
  let p := match br_pages br with q :: _ => q | [] => next_handle (world st) end in
  let calls :=
    [CEvaluateOnNewDocument p; CSetViewport p w h] ++
    match br_pages br with [] => [CNewPage b] | _ => [] end ++ [CPages b] in
  (forall c, In c calls -> rejects (world st) c = false) ->
  (forall q, head (br_pages br) = Some q ->
     exists pg, pages (world st) !! q = Some pg /\ pg_closed pg = false) ->
  exists (st' : State) (pg0 : PageObject),
    ensureBrowser headless width height st = (Returned (Some b, Some p), st') /\
    this st' = set_page (Some p) (this st) /\
    log (world st') = calls ++ log (world st) /\
    isConnected b (world st') = true /\
    match br_pages br with
    | [] => pg0 = blank_page b
    | q :: _ => pages (world st) !! q = Some pg0
    end /\
    pages (world st') !! p = Some (inject_open_override (set_viewport w h pg0)) /\
    page_usable (this st') (world st') = true /\
    (forall q, page (this st) = Some q -> (q < next_handle (world st))%nat -> q <> p) /\
    br_defaultViewport <$> browsers (world st') !! b = Some (br_defaultViewport br).
Proof.
  intros Hb Hbr Hconn Hstale w h p calls Hacc Hlisted.
  assert (Hlive : browser_live (this st) (world st) = true).
  { unfold browser_live. rewrite Hb, (isConnected_lookup _ _ _ Hbr). exact Hconn. }
  rewrite ensureBrowser_live_branch by exact Hlive. fold w h.
  rewrite ensure_page_acquire_branch by exact Hstale.
  rewrite (acquire_page_run w h st b Hb). cbv zeta.
  rewrite Hbr. change (default [] (br_pages <$> Some br)) with (br_pages br).
  subst p calls.
  destruct (br_pages br) as [|q qs] eqn:Hps.
  - rewrite (Hacc (CPages b)) by (simpl; auto).
    rewrite (Hacc (CNewPage b)) by (simpl; auto).
    rewrite configure_page_run. cbv zeta. wsimpl.
    rewrite (Hacc (CSetViewport _ w h)) by (simpl; auto).
    rewrite (Hacc (CEvaluateOnNewDocument _)) by (simpl; auto).
    wsimpl. rewrite Hb.
    eexists; exists (blank_page b). split; [reflexivity|]. wsimpl.
    split; [reflexivity|]. split; [reflexivity|]. split.
    { unfold isConnected. wsimpl. rewrite lookup_alter_eq, Hbr. exact Hconn. }
    split; [reflexivity|]. split.
    { rewrite lookup_alter_eq, lookup_alter_eq, lookup_insert_eq. reflexivity. }
    split.
    { unfold page_usable, isClosed. wsimpl.
      rewrite lookup_alter_eq, lookup_alter_eq, lookup_insert_eq. reflexivity. }
    split; [intros q' _ Hlt; lia|].
    rewrite lookup_alter_eq, Hbr. reflexivity.
  - destruct (Hlisted q eq_refl) as (pg & Hpg & Hopen).
    rewrite (Hacc (CPages b)) by (simpl; auto).
    rewrite configure_page_run. cbv zeta. wsimpl.
    rewrite (Hacc (CSetViewport q w h)) by (simpl; auto).
    rewrite (Hacc (CEvaluateOnNewDocument q)) by (simpl; auto).
    wsimpl. rewrite Hb.
    eexists; exists pg. split; [reflexivity|]. wsimpl.
    split; [reflexivity|]. split; [reflexivity|]. split.
    { unfold isConnected. wsimpl. rewrite Hbr. exact Hconn. }
    split; [exact Hpg|]. split.
    { rewrite lookup_alter_eq, lookup_alter_eq, Hpg. reflexivity. }
    split.
    { unfold page_usable, isClosed. wsimpl.
      rewrite lookup_alter_eq, lookup_alter_eq, Hpg. simpl. rewrite Hopen. reflexivity. }
    split; [|rewrite Hbr; reflexivity].
    intros q' Hq' _ ->. unfold page_usable, isClosed in Hstale.
    rewrite Hq', Hpg, Hopen in Hstale. discriminate.
Qed.

(** *** Closing *)

Lemma closeBrowser_run (st : State) :
  closeBrowser st =
    match browser (this st) with
    | None => (Returned tt, st)
    | Some b =>
        let w := set_log (CBrowserClose b :: log (world st)) (world st) in
        if rejects (world st) (CBrowserClose b)
        then (Thrown rejected, {| this := this st; world := w |})
        else (Returned tt,
              {| this := set_page None (set_browser None (this st));
                 world := set_browsers (alter disconnect b (browsers w))
                            (set_pages (close_pages_of b <$> pages w) w) |})
    end.
Proof.
  unfold closeBrowser. js_unfold. destruct (browser (this st)) as [b|].
  - unfold browser_close. js_unfold. rewrite call_run.
    destruct (rejects (world st) (CBrowserClose b)); reflexivity.
  - destruct st; reflexivity.
Qed.

Lemma discovered_launch (m : BrowserManager) (h : Host) (path : option string) :
  discovered m h = Returned path ->
  if has_chromePath m then chromePath m = path
  else exists s, findChrome h = Returned s /\ path = Some s.
Proof.
  unfold discovered. destruct (has_chromePath m).
  - intros [= ->]. reflexivity.
  - destruct (findChrome h) as [s|e]; [|discriminate]. intros [= <-]. eauto.
Qed.

(** From a manager that holds neither browser nor page, [ensureBrowser]
    goes through discovery (unless a path is cached), launch and page
    acquisition. *)
Lemma ensureBrowser_fresh (m : BrowserManager) (w2 : World)
    (headless : option bool) (width height : option Z) :
  browser m = None -> page m = None ->
  let next := ensureBrowser headless width height {| this := m; world := w2 |} in
  match discovered m (host w2) with
  | Thrown e => next.1 = Thrown e
  | Returned path =>
      let c := CLaunch path (default false headless) (default 1280 width)
                 (default 720 height) in
      In c (log (world next.2)) /\
      if rejects w2 c then next.1 = Thrown rejected
      else browser (this next.2) = Some (next_handle w2) /\
           isConnected (next_handle w2) (world next.2) = true /\
           forall ob op, next.1 = Returned (ob, op) ->
             ob = Some (next_handle w2) /\ op = Some (S (next_handle w2))
  end.
Proof.
  intros Hb Hp next. subst next.
  rewrite ensureBrowser_launch_branch by (unfold browser_live; cbn [this]; rewrite Hb; reflexivity).
  set (h := default false headless). set (w := default 1280 width).
  set (ht := default 720 height).
  destruct (discovered m (host w2)) as [path|e] eqn:Hdisc.
  - apply discovered_launch in Hdisc. cbv zeta.
    destruct (rejects w2 (CLaunch path h w ht)) eqn:Hrej.
    + rewrite launch_browser_run, initialize_run. cbn [this world].
      destruct (has_chromePath m).
      * subst path. rewrite puppeteer_launch_run. cbv zeta. wsimpl. rewrite Hrej.
        wsimpl. split; [left; reflexivity|reflexivity].
      * destruct Hdisc as (s & Hs & ->). rewrite Hs. cbv beta iota zeta.
        rewrite puppeteer_launch_run. cbv zeta. wsimpl. rewrite Hrej.
        wsimpl. split; [left; reflexivity|reflexivity].
    + destruct (launch_browser_accepted h w ht {| this := m; world := w2 |} path)
        as (st' & Hrun & Hb' & Hp' & _ & Hconn & Hrej' & Hnext & Hbr & Hfirst & Hlog);
        [exact Hdisc|exact Hrej|].
      rewrite Hrun. cbn [this world] in *.
      pose proof (keeps_session_ensure_page w ht st') as (Kb & _ & Kconn & more & Klog & _).
      split.
      { rewrite Klog, Hlog. apply in_or_app. right. left. reflexivity. }
      split; [congruence|]. split; [rewrite Kconn; exact Hconn|].
      intros ob op.
      rewrite ensure_page_acquire_branch
        by (unfold page_usable; rewrite Hp', Hp; reflexivity).
      rewrite (acquire_page_run w ht st' _ Hb'). cbv zeta.
      rewrite Hbr, Hrej', Hnext.
      change (default [] (br_pages <$> Some ?x)) with (br_pages x). cbn [br_pages add_listener set_br_pages].
      destruct (rejects w2 (CPages (next_handle w2))); [discriminate|].
      destruct (launch_pages w2) as [|k]; cbn [seq].
      * destruct (rejects w2 (CNewPage (next_handle w2))); [discriminate|].
        rewrite configure_page_run. cbv zeta. wsimpl. rewrite Hrej'.
        replace (S (next_handle w2) + 0)%nat with (S (next_handle w2)) by lia.
        destruct (rejects w2 (CSetViewport _ w ht)); [discriminate|].
        destruct (rejects w2 (CEvaluateOnNewDocument _)); [discriminate|].
        wsimpl. rewrite Hb'. intros [= <- <-]. auto.
      * rewrite configure_page_run. cbv zeta. wsimpl. rewrite Hrej'.
        destruct (rejects w2 (CSetViewport _ w ht)); [discriminate|].
        destruct (rejects w2 (CEvaluateOnNewDocument _)); [discriminate|].
        wsimpl. rewrite Hb'. intros [= <- <-]. auto.
  - unfold discovered in Hdisc. rewrite launch_browser_run, initialize_run. cbn [this world].
    destruct (has_chromePath m); [discriminate|].
    destruct (findChrome (host w2)) as [s|e']; [discriminate|]. injection Hdisc as ->.
    reflexivity.
Qed.

(** The constructor establishes the session invariant and every method
    keeps it. *)
Lemma session_inv_constructor : session_inv constructor.
Proof. intros _. reflexivity. Qed.

Lemma session_inv_closeBrowser (st : State) :
  session_inv (this st) -> session_inv (this (closeBrowser st).2).
Proof.
  intros Hinv. rewrite closeBrowser_run. destruct (browser (this st)) as [b|] eqn:Hb.
  - cbv zeta. destruct (rejects (world st) (CBrowserClose b)); cbn [snd this].
    + exact Hinv.
    + intros _. reflexivity.
  - exact Hinv.
Qed.

Lemma this_on_targetcreated (target : Target) (st : State) :
  this (on_targetcreated target st).2 = this st.
Proof.
  unfold on_targetcreated.
  destruct (String.eqb (target_type target) "page"); [|reflexivity].
  destruct (target_page target) as [newPage|]; [|reflexivity].
  js_unfold. destruct (same_page (page (this st)) newPage); [reflexivity|].
  destruct (truthy (page_url newPage (world st)) &&
            negb (String.eqb (page_url newPage (world st)) "about:blank")).
  - destruct (page (this st)) as [p|]; [|reflexivity].
    rewrite page_goto_run. destruct (rejects (world st) (CGoto p _)); [reflexivity|].
    rewrite page_close_run. wsimpl.
    destruct (rejects (world st) (CPageClose newPage)); reflexivity.
  - rewrite page_close_run.
    destruct (rejects (world st) (CPageClose newPage)); reflexivity.
Qed.

Lemma session_inv_ensureBrowser (headless : option bool) (width height : option Z)
    (st : State) :
  session_inv (this st) -> session_inv (this (ensureBrowser headless width height st).2).
Proof.
  intros Hinv.
  destruct (browser_live (this st) (world st)) eqn:Hlive.
  - rewrite ensureBrowser_live_branch by exact Hlive.
    destruct (keeps_session_ensure_page (default 1280 width) (default 720 height) st)
      as (Kb & _).
    intros Hnone. rewrite Kb in Hnone. unfold browser_live in Hlive.
    rewrite Hnone in Hlive. discriminate.
  - rewrite ensureBrowser_launch_branch by exact Hlive.
    rewrite launch_browser_run, initialize_run.
    assert (Hlaunched : forall st1, 
      session_inv (this st1) ->
      session_inv (this
        (match puppeteer_launch (chromePath (this st1)) (default false headless)
                 (default 1280 width) (default 720 height) st1 with
         | (Returned b, st2) =>
             ensure_page (default 1280 width) (default 720 height)
               {| this := set_browser (Some b) (this st2);
                  world := set_browsers (alter add_listener b (browsers (world st2)))
                             (world st2) |}
         | (Thrown e, st2) => (Thrown e, st2)
         end).2)).
    { intros st1 Hinv1. rewrite puppeteer_launch_run. cbv zeta.
      destruct (rejects (world st1) _); [exact Hinv1|].
      match goal with |- session_inv (this (ensure_page ?a ?b ?s).2) =>
        destruct (keeps_session_ensure_page a b s) as (Kb & _) end.
      intros Hnone. rewrite Kb in Hnone. discriminate. }
    destruct (has_chromePath (this st)).
    + specialize (Hlaunched st Hinv).
      destruct (puppeteer_launch _ _ _ _ st) as [[b|e] st2]; exact Hlaunched.
    + cbv zeta. destruct (findChrome (host (world st))) as [path|e]; [|exact Hinv].
      specialize (Hlaunched
        {| this := set_chromePath (Some path) (this st);
           world := set_log (CFindChrome :: log (world st)) (world st) |} Hinv).
      destruct (puppeteer_launch _ _ _ _ _) as [[b|e] st2]; exact Hlaunched.
Qed.

Lemma reachable_session_inv (m : BrowserManager) : reachable m -> session_inv m.
Proof.
  induction 1 as [|m w headless width height _ IH|m w _ IH|m w target _ IH].
  - apply session_inv_constructor.
  - apply session_inv_ensureBrowser. exact IH.
  - apply session_inv_closeBrowser. exact IH.
  - rewrite this_on_targetcreated. exact IH.
Qed.

Lemma ensureBrowser_ready_run (headless : option bool) (width height : option Z)
    (st : State) :
  browser_live (this st) (world st) = true ->
  page_usable (this st) (world st) = true ->
  ensureBrowser headless width height st =
    (Returned (browser (this st), page (this st)), st).
Proof.
  intros Hlive Husable. unfold ensureBrowser, ensure_page. js_unfold.
  rewrite Hlive, Husable. reflexivity.
Qed.

(** C7 as stated fails: when the driver rejects [browser.close()],
    [closeBrowser] throws before it reaches the two assignments, and the
    manager of [popup_state] still holds its browser and its page. *)
Lemma C7_counterexample : ~ closeBrowser_always_releases.
Proof.
  intros Hclaim.
  destruct (Hclaim (popup_state close_fails)) as [Hb _].
  - intros Hnone. discriminate Hnone.
  - vm_compute in Hb. discriminate.
Qed.

(** C7, amended.  In every state that satisfies the session invariant
    (every reachable manager does, [reachable_session_inv]): without a
    browser [closeBrowser] returns and changes nothing; with one it calls
    [browser.close()], and when the driver accepts the call it returns
    with the browser disconnected.  When the driver rejects the call,
    [closeBrowser] throws that error with both handles kept, and if the
    browser is still connected and the page open the next [ensureBrowser]
    returns these same handles without launching anything.  Whenever
    [closeBrowser] returns, the manager holds neither browser nor page,
    and the next [ensureBrowser], in any later world, runs discovery
    unless the path is cached (throwing the discovery error if there is
    one) and then [puppeteer.launch]; if the launch is accepted the
    manager holds the freshly allocated, connected browser, and a returned
    pair consists of the two handles allocated by this call. *)
Theorem C7_closeBrowser_releases (st : State) :
  session_inv (this st) ->
  (browser (this st) = None -> closeBrowser st = (Returned tt, st)) /\
  (forall b, browser (this st) = Some b ->
     rejects (world st) (CBrowserClose b) = false ->
     exists st', closeBrowser st = (Returned tt, st') /\
                 isConnected b (world st') = false) /\
  (forall b, browser (this st) = Some b ->
     rejects (world st) (CBrowserClose b) = true ->
     closeBrowser st =
       (Thrown rejected,
        {| this := this st;
           world := set_log (CBrowserClose b :: log (world st)) (world st) |}) /\
     (browser_live (this st) (world st) = true ->
      page_usable (this st) (world st) = true ->
      forall (headless : option bool) (width height : option Z),
        ensureBrowser headless width height (closeBrowser st).2 =
          (Returned (browser (this st), page (this st)), (closeBrowser st).2))) /\
  forall st', closeBrowser st = (Returned tt, st') ->
    browser (this st') = None /\ page (this st') = None /\
    forall (w2 : World) (headless : option bool) (width height : option Z),
      let next := ensureBrowser headless width height {| this := this st'; world := w2 |} in
      match discovered (this st') (host w2) with
      | Thrown e => next.1 = Thrown e
      | Returned path =>
          let c := CLaunch path (default false headless) (default 1280 width)
                     (default 720 height) in
          In c (log (world next.2)) /\
          if rejects w2 c then next.1 = Thrown rejected
          else browser (this next.2) = Some (next_handle w2) /\
               isConnected (next_handle w2) (world next.2) = true /\
               forall ob op, next.1 = Returned (ob, op) ->
                 ob = Some (next_handle w2) /\ op = Some (S (next_handle w2))
      end.
Proof.
  intros Hinv. split; [|split; [|split]].
  - intros Hb. rewrite closeBrowser_run, Hb. reflexivity.
  - intros b Hb Hacc. rewrite closeBrowser_run, Hb. cbv zeta. rewrite Hacc.
    eexists. split; [reflexivity|]. unfold isConnected. wsimpl.
    rewrite lookup_alter_eq. destruct (browsers (world st) !! b); reflexivity.
  - intros b Hb Hrej. rewrite closeBrowser_run, Hb. cbv zeta. rewrite Hrej.
    split; [reflexivity|]. intros Hlive Husable headless width height.
    cbn [snd].
    rewrite (ensureBrowser_ready_run headless width height
               {| this := this st;
                  world := set_log (CBrowserClose b :: log (world st)) (world st) |}
               Hlive Husable).
    cbn [this]. rewrite Hb. reflexivity.
  - intros st' Hclose.
    assert (Hreleased : browser (this st') = None /\ page (this st') = None).
    { rewrite closeBrowser_run in Hclose. destruct (browser (this st)) as [b|] eqn:Hb.
      - cbv zeta in Hclose. destruct (rejects (world st) (CBrowserClose b)); [discriminate|].
        injection Hclose as <-. auto.
      - injection Hclose as <-. auto. }
    destruct Hreleased as [Hb' Hp']. split; [exact Hb'|]. split; [exact Hp'|].
    intros w2 headless width height.
    apply ensureBrowser_fresh; assumption.
Qed.

(** ** The capture handler *)

(** C10.  The handler calls [compressImageToFit] without a sixth argument,
    which is the same as passing 950000: whenever [chrome_screenshot]
    answers, the image it returns is the buffer the loop produced for the
    captured bitmap, from the locals on entry, with the ceiling 950000. *)
Theorem C10_fixed_ceiling `{Encoder} (args : ScreenshotArgs) (st st' : State)
    (resp : ScreenshotResponse) :
  chrome_screenshot args st = (Returned resp, st') ->
  (forall imgBuffer format quality maxWidth maxHeight,
     compressImageToFit imgBuffer format quality maxWidth maxHeight None =
     compressImageToFit imgBuffer format quality maxWidth maxHeight (Some 950000)) /\
  exists (params : ScreenshotParams) (screenshot : Image) (r : Compressed.t),
    ScreenshotSchema_parse args = Returned params /\
    compressImageToFit screenshot (format params) (quality params)
      (max_width params) (max_height params) (Some 950000) = Returned r /\
    image_data resp = Compressed.buffer r /\
    exists st0 st1 : Locals,
      initial_locals screenshot (quality params) (max_width params) (max_height params)
        = Returned st0 /\
      while_loop screenshot (format params) 950000 st0 = Returned st1 /\
      compressedBuffer st1 = Some (image_data resp).
Proof.
  intros Hrun. split; [reflexivity|].
  unfold chrome_screenshot in Hrun. js_unfold.
  destruct (ScreenshotSchema_parse args) as [params|e]; [|discriminate].
  exists params.
  destruct (ensureBrowser None None None st) as [[[ob op]|e] st1]; [|discriminate].
  cbn [snd] in Hrun. destruct op as [page|]; [|discriminate].
  assert (Hfinish : forall screenshot st2,
    match compressImageToFit screenshot (format params) (quality params)
            (max_width params) (max_height params) None with
    | Returned compressed =>
        (Returned
           {| image_data := Compressed.buffer compressed;
              image_mimeType := if is_jpeg (format params) then "image/jpeg" else "image/png";
              text := ("Screenshot captured: " ++ pretty (Compressed.width compressed)
                         ++ "x" ++ pretty (Compressed.height compressed) ++ "px, "
                         ++ pretty (Math_round (num (Compressed.size compressed) / 1024)%Q)
                         ++ "KB")%string |}, st2)
    | Thrown e => (Thrown e, st2)
    end = (Returned resp, st') ->
    exists r,
      compressImageToFit screenshot (format params) (quality params)
        (max_width params) (max_height params) (Some 950000) = Returned r /\
      image_data resp = Compressed.buffer r /\
      exists st0 st1 : Locals,
        initial_locals screenshot (quality params) (max_width params) (max_height params)
          = Returned st0 /\
        while_loop screenshot (format params) 950000 st0 = Returned st1 /\
        compressedBuffer st1 = Some (image_data resp)).
  { intros screenshot st2 Hc.
    change (compressImageToFit screenshot (format params) (quality params)
              (max_width params) (max_height params) None)
      with (compressImageToFit screenshot (format params) (quality params)
              (max_width params) (max_height params) (Some 950000)) in Hc.
    destruct (compressImageToFit screenshot (format params) (quality params)
                (max_width params) (max_height params) (Some 950000)) as [r|e] eqn:Hr;
      [|discriminate].
    injection Hc as <- _. exists r. split; [reflexivity|]. split; [reflexivity|].
    unfold compressImageToFit in Hr. cbn [default from_option id] in Hr.
    unfold mbind, Outcome_bind in Hr.
    destruct (initial_locals screenshot (quality params) (max_width params)
                (max_height params)) as [l0|e]; [|discriminate].
    cbv beta iota in Hr.
    destruct (while_loop screenshot (format params) 950000 l0) as [l1|e] eqn:Hloop;
      [|discriminate].
    cbv beta iota in Hr.
    destruct (compressedBuffer l1) as [b|] eqn:Hbuf; [|discriminate].
    injection Hr as <-. exists l0, l1. auto. }
  destruct (selector_given params) as [s|].
  - rewrite call_run in Hrun. destruct (rejects (world st1) (CQuery page s)); [discriminate|].
    wsimpl. destruct (matches (world st1) page s); [|discriminate].
    rewrite call_run in Hrun. wsimpl.
    destruct (rejects (world st1) (CElementScreenshot page s _)); [discriminate|].
    destruct (Hfinish _ _ Hrun) as (r & Hr & Hdata & Hloop).
    eexists; exists r. split; [reflexivity|]. split; [exact Hr|]. split; assumption.
  - rewrite call_run in Hrun. wsimpl.
    destruct (rejects (world st1) (CPageScreenshot page _)); [discriminate|].
    destruct (Hfinish _ _ Hrun) as (r & Hr & Hdata & Hloop).
    eexists; exists r. split; [reflexivity|]. split; [exact Hr|]. split; assumption.
Qed.

(** ** Instances of the session theorems on the sample sessions *)

Lemma C1_new_context_closed_after_redirect_witness :
  same_page (page (this (popup_state never_rejects))) 2 = false /\
  is_blank_or_empty (page_url 2 (world (popup_state never_rejects))) = false /\
  let '(r, st') := on_targetcreated popup_target (popup_state never_rejects) in
  r = Returned tt /\ isClosed 2 (world st') = true.
Proof.
  assert (Hnew : same_page (page (this (popup_state never_rejects))) 2 = false)
    by reflexivity.
  assert (Hurl : is_blank_or_empty (page_url 2 (world (popup_state never_rejects))) = false)
    by (vm_compute; reflexivity).
  split; [exact Hnew|]. split; [exact Hurl|].
  pose proof (C1_new_context_closed_after_redirect (popup_state never_rejects) 2 Hnew Hurl)
    as Hthm.
  fold popup_target in Hthm.
  destruct (on_targetcreated popup_target (popup_state never_rejects)) as [r st'].
  destruct Hthm as (_ & Hthm). cbn in Hthm. destruct Hthm as (_ & _ & Hthm). exact Hthm.
Defined.

Lemma C6_ensureBrowser_idempotent_witness :
  browser_live (this (popup_state never_rejects)) (world (popup_state never_rejects)) = true /\
  page_usable (this (popup_state never_rejects)) (world (popup_state never_rejects)) = true /\
  let '(r1, st1) := ensureBrowser (Some false) (Some 1920) (Some 1080)
                      (popup_state never_rejects) in
  let '(r2, st2) := ensureBrowser None None None st1 in
  r1 = Returned (Some 0%nat, Some 1%nat) /\ r2 = r1 /\ log (world st2) = [].
Proof.
  assert (Hlive : browser_live (this (popup_state never_rejects))
                    (world (popup_state never_rejects)) = true) by (vm_compute; reflexivity).
  assert (Husable : page_usable (this (popup_state never_rejects))
                      (world (popup_state never_rejects)) = true) by (vm_compute; reflexivity).
  split; [exact Hlive|]. split; [exact Husable|].
  pose proof (C6_ensureBrowser_idempotent (popup_state never_rejects)
                (Some false) None (Some 1920) (Some 1080) None None Hlive Husable) as Hthm.
  destruct (ensureBrowser (Some false) (Some 1920) (Some 1080) (popup_state never_rejects))
    as [r1 st1].
  destruct (ensureBrowser None None None st1) as [r2 st2].
  destruct Hthm as (H1 & H2 & _ & _ & H5). auto.
Defined.

Lemma C7_closeBrowser_releases_witness :
  session_inv (this (popup_state never_rejects)) /\
  exists st', closeBrowser (popup_state never_rejects) = (Returned tt, st') /\
              isConnected 0 (world st') = false.
Proof.
  assert (Hinv : session_inv (this (popup_state never_rejects)))
    by (intros Hnone; discriminate Hnone).
  split; [exact Hinv|].
  destruct (C7_closeBrowser_releases (popup_state never_rejects) Hinv) as (_ & Hclose & _).
  apply (Hclose 0%nat); reflexivity.
Defined.

Lemma C8_page_reacquisition_witness :
  page_usable (this closed_page_state) (world closed_page_state) = false /\
  exists st',
    ensureBrowser None None None closed_page_state = (Returned (Some 0%nat, Some 2%nat), st') /\
    page_usable (this st') (world st') = true.
Proof.
  assert (Hstale : page_usable (this closed_page_state) (world closed_page_state) = false)
    by (vm_compute; reflexivity).
  split; [exact Hstale|].
  destruct (C8_page_reacquisition closed_page_state 0%nat
              {| br_connected := true; br_executablePath := Some "/usr/bin/chromium";
                 br_headless := false; br_args := launch_args 1280 720;
                 br_defaultViewport := (1280, 720);
                 br_pages := [2%nat]; br_targetcreated := 1 |}
              None None None eq_refl eq_refl eq_refl Hstale)
    as (st' & pg0 & Hrun & _ & _ & _ & _ & _ & Husable & _).
  - intros c _. reflexivity.
  - intros q Hq. injection Hq as <-. exists (blank_page 0%nat). split; reflexivity.
  - exists st'. split; [exact Hrun|exact Husable].
Defined.

Lemma C9_launch_failure_not_cached_witness :
  browser_live (this no_chrome_state) (world no_chrome_state) = false /\
  has_chromePath (this no_chrome_state) = false /\
  findChrome (host (world no_chrome_state)) = Thrown chrome_not_found /\
  (ensureBrowser None None None no_chrome_state).1 = Thrown chrome_not_found /\
  this (ensureBrowser None None None no_chrome_state).2 = constructor.
Proof.
  assert (Hlive : browser_live (this no_chrome_state) (world no_chrome_state) = false)
    by reflexivity.
  assert (Hknown : has_chromePath (this no_chrome_state) = false) by reflexivity.
  assert (Hfind : findChrome (host (world no_chrome_state)) = Thrown chrome_not_found)
    by (vm_compute; reflexivity).
  split; [exact Hlive|]. split; [exact Hknown|]. split; [exact Hfind|].
  destruct (C9_launch_failure_not_cached no_chrome_state chrome_not_found None None None
              Hlive Hknown Hfind) as (Hthrown & Hthis & _).
  split; [exact Hthrown|exact Hthis].
Defined.

Lemma C10_fixed_ceiling_witness :
  exists (resp : ScreenshotResponse) (st' : State) (screenshot : Image)
         (st0 st1 : Locals),
    @chrome_screenshot pixel_encoder no_arguments (popup_state never_rejects)
      = (Returned resp, st') /\
    initial_locals screenshot 60 1280 1440 = Returned st0 /\
    @while_loop pixel_encoder screenshot jpeg 950000 st0 = Returned st1 /\
    compressedBuffer st1 = Some (image_data resp).
Proof.
  assert (Hrun : { out | @chrome_screenshot pixel_encoder no_arguments
                           (popup_state never_rejects) = (Returned out.1, out.2) }).
  { eexists (_, _). vm_compute. reflexivity. }
  destruct Hrun as [[resp st'] Hrun]. cbn [fst snd] in Hrun.
  destruct (@C10_fixed_ceiling pixel_encoder no_arguments _ _ _ Hrun)
    as (_ & params & screenshot & r & Hparse & _ & _ & st0 & st1 & Hinit & Hloop & Hbuf).
  vm_compute in Hparse. injection Hparse as <-.
  exists resp, st', screenshot, st0, st1.
  split; [exact Hrun|]. split; [exact Hinit|]. split; [exact Hloop|exact Hbuf].
Defined.

(** * Further properties *)

(** ** Executable discovery *)

Lemma find_first {A : Type} (f : A -> bool) (l : list A) (x : A) :
  List.find f l = Some x ->
  f x = true /\
  exists before after, l = before ++ x :: after /\ forallb (fun y => negb (f y)) before = true.
Proof.
  induction l as [|a l IH]; simpl; [discriminate|].
  destruct (f a) eqn:Hfa.
  - intros [= ->]. split; [exact Hfa|]. exists [], l. auto.
  - intros Hfind. destruct (IH Hfind) as (Hfx & before & after & -> & Hnone).
    split; [exact Hfx|]. exists (a :: before), after. simpl. rewrite Hfa, Hnone. auto.
Qed.

(** X1.  A path returned by [findChrome] is a non-empty candidate that
    exists on the host, and no candidate listed before it exists: the
    candidates are tried in order. *)
Theorem findChrome_first_existing (h : Host) (path : string) :
  findChrome h = Returned path ->
  truthy path = true /\ existsSync h path = true /\
  exists before after,
    chromePaths h = before ++ path :: after /\
    forall q, In q before -> truthy q && existsSync h q = false.
Proof.
  unfold findChrome. intros Hret.
  destruct (List.find _ (chromePaths h)) as [p|] eqn:Hfind; [|discriminate].
  injection Hret as ->.
  apply find_first in Hfind as (Hok & before & after & Hsplit & Hnone).
  apply andb_true_iff in Hok as [Ht He].
  split; [exact Ht|]. split; [exact He|]. exists before, after. split; [exact Hsplit|].
  intros q Hq. rewrite forallb_forall in Hnone. specialize (Hnone q Hq).
  apply negb_true_iff in Hnone. exact Hnone.
Qed.

Lemma findChrome_first_existing_witness :
  findChrome (linux_host true) = Returned "/usr/bin/chromium" /\
  existsSync (linux_host true) "/usr/bin/chromium" = true.
Proof.
  assert (Hret : findChrome (linux_host true) = Returned "/usr/bin/chromium")
    by (vm_compute; reflexivity).
  split; [exact Hret|].
  destruct (findChrome_first_existing (linux_host true) "/usr/bin/chromium" Hret)
    as (_ & He & _). exact He.
Defined.

(** X2.  [findChrome] throws exactly when no non-empty candidate exists on
    the host, and what it throws is the error whose message lists every
    candidate searched. *)
Theorem findChrome_throws_iff_none_exists (h : Host) :
  ((exists e, findChrome h = Thrown e) <->
   (forall q, In q (chromePaths h) -> truthy q && existsSync h q = false)) /\
  (forall e, findChrome h = Thrown e ->
     e = GenericError
           ("Chrome not found. Please install Google Chrome or Chromium browser. Searched paths: "
              ++ join ", " (chromePaths h))%string).
Proof.
  unfold findChrome. split; [split|].
  - intros [e He]. destruct (List.find _ (chromePaths h)) eqn:Hfind; [discriminate|].
    intros q Hq. exact (find_none _ _ Hfind q Hq).
  - intros Hnone. destruct (List.find _ (chromePaths h)) as [p|] eqn:Hfind.
    + apply find_some in Hfind as [Hin Hok]. rewrite (Hnone p Hin) in Hok. discriminate.
    + eexists. reflexivity.
  - intros e He. destruct (List.find _ (chromePaths h)); [discriminate|].
    injection He as <-. reflexivity.
Qed.

(** X3.  On a platform other than win32 and darwin, when the [which]
    command prints a path that exists (surrounding white space apart), that
    path is what [findChrome] returns, whichever of the fixed locations
    exist as well. *)
Theorem findChrome_prefers_which (h : Host) (out : string) :
  other_platform h = true ->
  execSync_which h = Some out ->
  truthy (trim out) = true ->
  existsSync h (trim out) = true ->
  findChrome h = Returned (trim out).
Proof.
  unfold other_platform. intros Hplat Hout Ht He.
  apply andb_true_iff in Hplat as [Hw Hd].
  apply negb_true_iff in Hw. apply negb_true_iff in Hd.
  unfold findChrome, chromePaths. rewrite Hw, Hd, Hout. cbv zeta. rewrite Ht.
  cbn [List.find]. rewrite Ht, He. reflexivity.
Qed.

Lemma findChrome_prefers_which_witness :
  other_platform which_host = true /\
  findChrome which_host = Returned "/opt/google/chrome/chrome".
Proof.
  split; [reflexivity|].
  apply (findChrome_prefers_which which_host
           ("/opt/google/chrome/chrome" ++ String (Ascii.ascii_of_nat 10) EmptyString)%string);
    reflexivity.
Defined.

(** X4.  On win32 an unset [LOCALAPPDATA] is not an error: it is
    concatenated as the text [undefined], and if the resulting relative
    path exists it is the path returned. *)
Theorem findChrome_unset_env_is_undefined (h : Host) :
  platform h = "win32" ->
  process_env h "LOCALAPPDATA" = None ->
  existsSync h "undefined\Google\Chrome\Application\chrome.exe" = true ->
  findChrome h = Returned "undefined\Google\Chrome\Application\chrome.exe".
Proof.
  intros Hplat Henv Hex. unfold findChrome, chromePaths. rewrite Hplat.
  cbn [String.eqb Ascii.eqb Bool.eqb]. unfold env_concat at 1. rewrite Henv.
  change (default "undefined" None ++ "\Google\Chrome\Application\chrome.exe")%string
    with "undefined\Google\Chrome\Application\chrome.exe".
  cbn [List.find truthy andb]. rewrite Hex. reflexivity.
Qed.

Lemma findChrome_unset_env_is_undefined_witness :
  platform bare_windows_host = "win32" /\
  findChrome bare_windows_host = Returned "undefined\Google\Chrome\Application\chrome.exe".
Proof.
  split; [reflexivity|].
  apply findChrome_unset_env_is_undefined; reflexivity.
Defined.

(** ** The capture compressor, for every encoder *)


(** A call that returned entered the loop and made its first encode. *)
Lemma compress_returned_entered `{Encoder} (imgBuffer : Image) (format : Format)
    (quality maxWidth maxHeight : Z) (maxSizeBytes : option Z) (r : Compressed.t) :
  compressImageToFit imgBuffer format quality maxWidth maxHeight maxSizeBytes = Returned r ->
  exists st0 b0,
    initial_locals imgBuffer quality maxWidth maxHeight = Returned st0 /\
    encode format st0 = Returned b0.
Proof.
  intros Hr. unfold compressImageToFit in Hr. unfold mbind at 1, Outcome_bind at 1 in Hr.
  destruct (initial_locals imgBuffer quality maxWidth maxHeight) as [st0|e] eqn:Hinit;
    [|discriminate].
  destruct (initial_locals_returned _ _ _ _ _ Hinit) as (_ & _ & Hi0 & _).
  rewrite while_loop_step, Hi0 in Hr. cbn [Nat.ltb Nat.leb maxIterations] in Hr.
  unfold mbind, Outcome_bind in Hr.
  destruct (encode format st0) as [b0|e] eqn:Hb0; [|discriminate].
  exists st0, b0. split; [reflexivity|exact Hb0].
Qed.






(** X6.  When the first encode is within the ceiling, the call returns it
    as it is: one encode, the clamped dimensions and the requested quality,
    whatever the format. *)
Theorem compress_first_encode_fits `{Encoder} (imgBuffer : Image) (format : Format)
    (quality maxWidth maxHeight : Z) (maxSizeBytes : option Z)
    (st0 : Locals) (b : Buffer) :
  initial_locals imgBuffer quality maxWidth maxHeight = Returned st0 ->
  encode format st0 = Returned b ->
  Buffer_length b <= default default_maxSizeBytes maxSizeBytes ->
  compressImageToFit imgBuffer format quality maxWidth maxHeight maxSizeBytes =
    Returned {| Compressed.buffer := b;
                Compressed.size := Buffer_length b;
                Compressed.width := currentWidth st0;
                Compressed.height := currentHeight st0;
                Compressed.finalQuality := quality |}.
Proof.
  intros Hinit Hb Hfits.
  destruct (initial_locals_returned _ _ _ _ _ Hinit) as (_ & Hq0 & Hi0 & _).
  unfold compressImageToFit. rewrite Hinit. unfold mbind at 1, Outcome_bind at 1.
  rewrite while_loop_step, Hi0. cbn [Nat.ltb Nat.leb maxIterations].
  rewrite Hb. unfold mbind at 2, Outcome_bind at 2.
  assert (Hbreak : break_test (default default_maxSizeBytes maxSizeBytes) b
                     (with_buffer b st0) = true).
  { unfold break_test. destruct (Z.leb_spec (Buffer_length b)
                                   (default default_maxSizeBytes maxSizeBytes)); [|lia].
    reflexivity. }
  rewrite Hbreak. unfold mbind, Outcome_bind.
  cbn [compressedBuffer with_buffer currentWidth currentHeight currentQuality].
  rewrite Hq0. reflexivity.
Qed.

Lemma compress_first_encode_fits_witness :
  @compressImageToFit pixel_encoder blank_capture jpeg 60 1280 1440 None =
    Returned {| Compressed.buffer := {| buf_image := sharp blank_capture;
                                        buf_codec := JpegOptions 60 |};
                Compressed.size := 552960;
                Compressed.width := 1280;
                Compressed.height := 720;
                Compressed.finalQuality := 60 |}.
Proof.
  apply (@compress_first_encode_fits pixel_encoder blank_capture jpeg 60 1280 1440 None
           {| image := sharp blank_capture; currentWidth := 1280; currentHeight := 720;
              currentQuality := 60; compressedBuffer := None; iterations := 0 |}
           {| buf_image := sharp blank_capture; buf_codec := JpegOptions 60 |});
    [reflexivity|reflexivity|vm_compute; discriminate].
Defined.

Lemma clamp_dimensions_within (w h maxWidth maxHeight : Z) :
  0 < w -> 0 < h -> 0 <= maxWidth -> 0 <= maxHeight ->
  let '(cw, ch) := clamp_dimensions w h maxWidth maxHeight in
  0 <= cw <= Z.min w maxWidth /\ 0 <= ch <= Z.min h maxHeight.
Proof.
  intros Hw Hh Hmw Hmh. rewrite clamp_dimensions_closed_form by assumption. cbv zeta.
  pose proof (div_bounds (2 * maxWidth * h + w) (2 * w) ltac:(lia)).
  pose proof (div_bounds (2 * maxHeight * w + h) (2 * h) ltac:(lia)).
  destruct (Z.ltb_spec maxWidth w);
    [destruct (Z.ltb_spec maxHeight ((2 * maxWidth * h + w) / (2 * w)))
    |destruct (Z.ltb_spec maxHeight h)]; split; split; nia.
Qed.

(** X7.  For an image of positive dimensions and non-negative maxima, the
    width and height of a returned record are positive, never above the
    maxima and never above the dimensions of the input, whatever the
    format, the quality and the encoder. *)
Theorem compress_dimensions_within_box `{Encoder} (imgBuffer : Image) (format : Format)
    (quality maxWidth maxHeight : Z) (maxSizeBytes : option Z) (r : Compressed.t) :
  0 < meta_width imgBuffer -> 0 < meta_height imgBuffer ->
  0 <= maxWidth -> 0 <= maxHeight ->
  compressImageToFit imgBuffer format quality maxWidth maxHeight maxSizeBytes
    = Returned r ->
  0 < Compressed.width r <= Z.min (meta_width imgBuffer) maxWidth /\
  0 < Compressed.height r <= Z.min (meta_height imgBuffer) maxHeight.
Proof.
  intros Hw Hh Hmw Hmh Hr.
  destruct (compress_returned_entered _ _ _ _ _ _ _ Hr) as (st0 & b0 & Hinit & _).
  destruct (initial_locals_returned _ _ _ _ _ Hinit) as (Hdims & _).
  destruct (initial_locals_positive _ _ _ _ _ Hw Hh Hinit) as [Hpw Hph].
  pose proof (clamp_dimensions_within _ _ _ _ Hw Hh Hmw Hmh) as Hclamp.
  rewrite <- Hdims in Hclamp. cbv beta iota in Hclamp.
  destruct (compress_run imgBuffer format quality maxWidth maxHeight maxSizeBytes st0 Hinit)
    as (n & stn & Hn & Hafter & _ & Hend).
  assert (Hbox : 0 < currentWidth stn <= Z.min (meta_width imgBuffer) maxWidth /\
                 0 < currentHeight stn <= Z.min (meta_height imgBuffer) maxHeight).
  { destruct format.
    - destruct (after_png _ _ _ _ Hafter) as (_ & B & C & _ & _ & _ & F).
      pose proof (iter_shrink_bounds n (currentWidth st0) ltac:(lia)).
      pose proof (iter_shrink_bounds n (currentHeight st0) ltac:(lia)).
      destruct n as [|n]; [simpl in B, C; lia|].
      destruct F as [Fw Fh]; [lia|]. lia.
    - destruct (after_jpeg _ _ _ _ Hafter) as (_ & B & C & _). lia. }
  destruct Hend as [(_ & b & _ & _ & Hrun)|[(_ & st9 & b & _ & _ & _ & Hrun)
                   |(_ & e & Hrun & _)]]; [| |congruence];
    rewrite Hrun in Hr; injection Hr as <-;
    cbn [Compressed.width Compressed.height]; exact Hbox.
Qed.

Lemma compress_dimensions_within_box_witness :
  exists r : Compressed.t,
    @compressImageToFit pixel_encoder wide_capture png 60 1280 1440 None = Returned r /\
    0 < Compressed.width r <= 1280 /\ 0 < Compressed.height r <= 1440.
Proof.
  assert (Hrun : { r | @compressImageToFit pixel_encoder wide_capture png 60 1280 1440 None
                       = Returned r }).
  { eexists. vm_compute. reflexivity. }
  destruct Hrun as [r Hr]. exists r. split; [exact Hr|].
  destruct (@compress_dimensions_within_box pixel_encoder wide_capture png 60 1280 1440 None r
              ltac:(simpl; lia) ltac:(simpl; lia) ltac:(lia) ltac:(lia) Hr)
    as (Hwidth & Hheight).
  simpl in Hwidth, Hheight. lia.
Defined.

(** X8.  The quality of a returned record never rises and never crosses
    the floor: for PNG it is the requested quality, whatever that is; for
    JPEG the requested quality lies between 1 and 100 and the reported one
    is the requested one if that is below 10, and lies between 10 and the
    requested one otherwise. *)
Theorem compress_quality_range `{Encoder} (imgBuffer : Image) (format : Format)
    (quality maxWidth maxHeight : Z) (maxSizeBytes : option Z) (r : Compressed.t) :
  compressImageToFit imgBuffer format quality maxWidth maxHeight maxSizeBytes
    = Returned r ->
  match format with
  | png => Compressed.finalQuality r = quality
  | jpeg =>
      1 <= quality <= 100 /\
      if quality <? 10 then Compressed.finalQuality r = quality
      else 10 <= Compressed.finalQuality r <= quality
  end.
Proof.
  intros Hr.
  destruct (compress_returned_entered _ _ _ _ _ _ _ Hr) as (st0 & b0 & Hinit & Hb0).
  destruct (initial_locals_returned _ _ _ _ _ Hinit) as (_ & Hq0 & _).
  destruct (compress_run imgBuffer format quality maxWidth maxHeight maxSizeBytes st0 Hinit)
    as (n & stn & Hn & Hafter & Hbefore & Hend).
  assert (Hfinal : Compressed.finalQuality r = currentQuality stn).
  { destruct Hend as [(_ & b & _ & _ & Hrun)|[(_ & st9 & b & _ & _ & _ & Hrun)
                     |(_ & e & Hrun & _)]]; [| |congruence];
      rewrite Hrun in Hr; injection Hr as <-; reflexivity. }
  rewrite Hfinal. destruct format.
  - destruct (after_png _ _ _ _ Hafter) as (A & _). rewrite A. exact Hq0.
  - destruct (after_jpeg _ _ _ _ Hafter) as (A & _). rewrite A, Hq0.
    destruct (encode_returned _ _ _ Hb0) as (_ & Hq & _). rewrite Hq0 in Hq.
    split; [exact Hq|].
    destruct (Z.ltb_spec quality 10) as [Hlow|Hhigh].
    + destruct n as [|n]; [reflexivity|]. exfalso.
      specialize (Hbefore 0%nat st0 ltac:(lia) eq_refl). apply stops_false in Hbefore.
      destruct Hbefore as (_ & _ & _ & Hgt). rewrite Hq0 in Hgt. lia.
    + apply iter_decay_range. exact Hhigh.
Qed.

Lemma compress_quality_range_witness :
  exists r : Compressed.t,
    @compressImageToFit pixel_encoder wide_capture jpeg 60 2560 1440 None = Returned r /\
    10 <= Compressed.finalQuality r <= 60.
Proof.
  assert (Hrun : { r | @compressImageToFit pixel_encoder wide_capture jpeg 60 2560 1440 None
                       = Returned r }).
  { eexists. vm_compute. reflexivity. }
  destruct Hrun as [r Hr]. exists r. split; [exact Hr|].
  destruct (@compress_quality_range pixel_encoder wide_capture jpeg 60 2560 1440 None r Hr)
    as [_ Hrange].
  exact Hrange.
Defined.

Lemma lossless_track_witness :
  exists (r : Compressed.t) (n : nat),
    @compressImageToFit pixel_encoder wide_capture png 60 2560 1440 None = Returned r /\
    (n <= 10)%nat /\
    Compressed.width r = Nat.iter n (fun x => 9 * x / 10) 2560 /\
    Compressed.finalQuality r = 60.
Proof.
  destruct (@lossless_track pixel_encoder wide_capture 60 2560 1440 None
              {| image := sharp wide_capture; currentWidth := 2560; currentHeight := 1440;
                 currentQuality := 60; compressedBuffer := None; iterations := 0 |}
              eq_refl ltac:(lia))
    as (_ & Hreturns & Htrack).
  destruct Hreturns as (r & Hr); [simpl; lia|simpl; lia|].
  destruct (Htrack r Hr) as (n & Hn & _ & Hw & _ & _ & Hq & _).
  exists r, n. split; [exact Hr|]. split; [exact Hn|]. split; [exact Hw|exact Hq].
Defined.

Lemma png_low_quality_never_shrinks_witness :
  exists r : Compressed.t,
    @compressImageToFit pixel_encoder wide_capture png 5 2560 1440 None = Returned r /\
    (Compressed.width r, Compressed.height r) = (2560, 1440) /\
    950000 < Compressed.size r.
Proof.
  eexists. split.
  - apply (@png_low_quality_never_shrinks pixel_encoder wide_capture 5 2560 1440 None
             {| image := sharp wide_capture; currentWidth := 2560; currentHeight := 1440;
                currentQuality := 5; compressedBuffer := None; iterations := 0 |});
      [reflexivity|lia].
  - split; reflexivity.
Defined.

Lemma bound_exit_reports_reduced_locals_witness :
  exists r : Compressed.t,
    @compressImageToFit pixel_encoder wide_capture png 60 2560 1440 None = Returned r /\
    Compressed.width r = shrink (fst (sharp_dims (buf_image (Compressed.buffer r)))).
Proof.
  assert (H10 : { st10 | after wide_capture png 10
                           {| image := sharp wide_capture; currentWidth := 2560;
                              currentHeight := 1440; currentQuality := 60;
                              compressedBuffer := None; iterations := 0 |}
                         = Returned st10 }).
  { eexists. vm_compute. reflexivity. }
  destruct H10 as [st10 H10].
  destruct (@bound_exit_reports_reduced_locals pixel_encoder wide_capture png 60 2560 1440
              None _ st10 eq_refl H10) as (last & b & H9 & Hb & Hit & Hrun).
  { intros k st Hk.
    do 10 (destruct k as [|k];
           [intros Hst; vm_compute in Hst; injection Hst as <-; vm_compute; reflexivity|]).
    lia. }
  eexists. split; [exact Hrun|].
  cbn [Compressed.width Compressed.buffer].
  vm_compute in H9. injection H9 as <-.
  vm_compute in Hb. injection Hb as <-.
  vm_compute in H10. injection H10 as <-.
  vm_compute. reflexivity.
Defined.

(** ** The session controller, for every world *)

Lemma keeps_listeners_bind {A B : Type} (m : Js A) (f : A -> Js B) :
  keeps_listeners m -> (forall a, keeps_listeners (f a)) -> keeps_listeners (m ≫= f).
Proof.
  intros Hm Hf st b. unfold mbind, Js_bind.
  specialize (Hm st b). destruct (m st) as [[a|e] st1]; simpl in *.
  - rewrite Hf. exact Hm.
  - exact Hm.
Qed.

Lemma keeps_listeners_ret {A : Type} (a : A) : keeps_listeners (mret a).
Proof. intros st b. reflexivity. Qed.

Lemma keeps_listeners_gets {A : Type} (f : State -> A) : keeps_listeners (gets f).
Proof. intros st b. reflexivity. Qed.

Lemma keeps_listeners_throw {A : Type} (e : Error) : keeps_listeners (@throw A e).
Proof. intros st b. reflexivity. Qed.

Lemma keeps_listeners_call (c : Call) : keeps_listeners (call c).
Proof. intros st b. rewrite call_run. reflexivity. Qed.

Lemma keeps_listeners_modify_this (f : BrowserManager -> BrowserManager) :
  keeps_listeners (modify_this f).
Proof. intros st b. reflexivity. Qed.

Lemma keeps_listeners_update_page (f : PageObject -> PageObject) (p : PageHandle) :
  keeps_listeners (update_page f p).
Proof. intros st b. reflexivity. Qed.

Lemma listeners_add_page (b b' : BrowserHandle) (p : PageHandle) (w : World) :
  listeners b' (add_page b p w) = listeners b' w.
Proof.
  unfold listeners, add_page. simpl. rewrite lookup_alter.
  case_decide as Hb; [subst b'|reflexivity].
  destruct (browsers w !! b); reflexivity.
Qed.

Lemma keeps_listeners_open_page (b : BrowserHandle) : keeps_listeners (open_page b).
Proof.
  intros st b'. unfold open_page, fresh_handle. js_unfold. cbn [snd world].
  rewrite listeners_add_page. reflexivity.
Qed.

Lemma keeps_listeners_acquire_page (width height : Z) :
  keeps_listeners (acquire_page width height).
Proof.
  unfold acquire_page.
  apply keeps_listeners_bind; [apply keeps_listeners_gets|]. intros [b|].
  2: apply keeps_listeners_throw.
  apply keeps_listeners_bind.
  { unfold browser_pages. apply keeps_listeners_bind.
    - apply keeps_listeners_call.
    - intros _. apply keeps_listeners_gets. }
  intros ps. apply keeps_listeners_bind.
  { destruct ps as [|p ps].
    - apply keeps_listeners_bind.
      + unfold browser_newPage. apply keeps_listeners_bind.
        * apply keeps_listeners_call.
        * intros _. apply keeps_listeners_open_page.
      + intros p. apply keeps_listeners_modify_this.
    - apply keeps_listeners_modify_this. }
  intros _. apply keeps_listeners_bind; [apply keeps_listeners_gets|]. intros [p|].
  2: apply keeps_listeners_throw.
  apply keeps_listeners_bind.
  - unfold page_setViewport. apply keeps_listeners_bind.
    + apply keeps_listeners_call.
    + intros _. apply keeps_listeners_update_page.
  - intros _. unfold page_evaluateOnNewDocument. apply keeps_listeners_bind.
    + apply keeps_listeners_call.
    + intros _. apply keeps_listeners_update_page.
Qed.

Lemma keeps_listeners_ensure_page (width height : Z) :
  keeps_listeners (ensure_page width height).
Proof.
  unfold ensure_page.
  apply keeps_listeners_bind; [apply keeps_listeners_gets|]. intros usable.
  apply keeps_listeners_bind.
  - destruct usable; [apply keeps_listeners_ret|apply keeps_listeners_acquire_page].
  - intros _. apply keeps_listeners_gets.
Qed.

(** What a returning launch branch has done. *)
Lemma launch_browser_returned (headless : bool) (width height : Z) (st st' : State) :
  launch_browser headless width height st = (Returned tt, st') ->
  exists path,
    discovered (this st) (host (world st)) = Returned path /\
    rejects (world st) (CLaunch path headless width height) = false.
Proof.
  rewrite launch_browser_run, initialize_run. unfold discovered.
  destruct (has_chromePath (this st)).
  - rewrite puppeteer_launch_run. cbv zeta.
    destruct (rejects (world st) (CLaunch (chromePath (this st)) headless width height))
      eqn:Hrej; [discriminate|].
    intros _. eauto.
  - cbv zeta. destruct (findChrome (host (world st))) as [s|e]; [|discriminate].
    rewrite puppeteer_launch_run. cbv zeta. wsimpl.
    destruct (rejects (world st) (CLaunch (Some s) headless width height)) eqn:Hrej;
      [discriminate|].
    intros _. eauto.
Qed.

Lemma acquire_page_returned (width height : Z) (st st' : State) :
  acquire_page width height st = (Returned tt, st') ->
  exists p, page (this st') = Some p.
Proof.
  destruct (browser (this st)) as [b|] eqn:Hb.
  2: { unfold acquire_page. unfold mbind, Js_bind, gets, throw. rewrite Hb. discriminate. }
  rewrite (acquire_page_run width height st b Hb). cbv zeta.
  destruct (rejects (world st) (CPages b)); [discriminate|].
  destruct (default [] (br_pages <$> browsers (world st) !! b)) as [|p ps].
  - destruct (rejects (world st) (CNewPage b)); [discriminate|].
    rewrite configure_page_run. cbv zeta. wsimpl.
    destruct (rejects (world st) (CSetViewport _ width height)); [discriminate|].
    destruct (rejects (world st) (CEvaluateOnNewDocument _)); [discriminate|].
    intros [= <-]. eexists. reflexivity.
  - rewrite configure_page_run. cbv zeta. wsimpl.
    destruct (rejects (world st) (CSetViewport _ width height)); [discriminate|].
    destruct (rejects (world st) (CEvaluateOnNewDocument _)); [discriminate|].
    intros [= <-]. eexists. reflexivity.
Qed.

Lemma ensure_page_returned (width height : Z) (st st' : State)
    (ob : option BrowserHandle) (op : option PageHandle) :
  ensure_page width height st = (Returned (ob, op), st') ->
  ob = browser (this st') /\ op = page (this st') /\ (exists p, op = Some p) /\
  no_relaunch st st'.
Proof.
  intros Hrun.
  pose proof (keeps_session_ensure_page width height st) as Hkeep.
  rewrite Hrun in Hkeep. cbn [snd] in Hkeep.
  destruct (page_usable (this st) (world st)) eqn:Husable.
  - unfold ensure_page in Hrun. unfold mbind, Js_bind, gets, mret, Js_ret in Hrun.
    rewrite Husable in Hrun. injection Hrun as <- <- <-.
    split; [reflexivity|]. split; [reflexivity|]. split; [|exact Hkeep].
    unfold page_usable in Husable. destruct (page (this st)) as [p|]; [eauto|discriminate].
  - rewrite ensure_page_acquire_branch in Hrun by exact Husable.
    destruct (acquire_page width height st) as [[[]|e] st1] eqn:Hacq; [|discriminate].
    injection Hrun as <- <- <-.
    split; [reflexivity|]. split; [reflexivity|]. split; [|exact Hkeep].
    exact (acquire_page_returned _ _ _ _ Hacq).
Qed.

(** X9.  Whenever [ensureBrowser] returns, neither handle of the returned
    pair is null, the pair is what the manager now holds, and the browser
    is connected. *)
Theorem ensureBrowser_returns_ready (headless : option bool) (width height : option Z)
    (st st' : State) (ob : option BrowserHandle) (op : option PageHandle) :
  ensureBrowser headless width height st = (Returned (ob, op), st') ->
  ob = browser (this st') /\ op = page (this st') /\
  exists b p, ob = Some b /\ op = Some p /\ isConnected b (world st') = true.
Proof.
  intros Hrun.
  destruct (browser_live (this st) (world st)) eqn:Hlive.
  - rewrite ensureBrowser_live_branch in Hrun by exact Hlive.
    apply ensure_page_returned in Hrun as (Hob & Hop & (p & Hp) & (Kb & _ & Kconn & _)).
    split; [exact Hob|]. split; [exact Hop|].
    unfold browser_live in Hlive. destruct (browser (this st)) as [b|] eqn:Hb; [|discriminate].
    exists b, p. split; [congruence|]. split; [exact Hp|]. rewrite Kconn. exact Hlive.
  - rewrite ensureBrowser_launch_branch in Hrun by exact Hlive.
    destruct (launch_browser _ _ _ st) as [[[]|e] st1] eqn:Hlaunch; [|discriminate].
    destruct (launch_browser_returned _ _ _ _ _ Hlaunch) as (path & Hdisc & Hacc).
    destruct (launch_browser_accepted _ _ _ st path (discovered_launch _ _ _ Hdisc) Hacc)
      as (st1' & Hrun' & Hb & _ & _ & Hconn & _).
    rewrite Hlaunch in Hrun'. injection Hrun' as <-.
    apply ensure_page_returned in Hrun as (Hob & Hop & (p & Hp) & (Kb & _ & Kconn & _)).
    split; [exact Hob|]. split; [exact Hop|].
    exists (next_handle (world st)), p. split; [congruence|]. split; [exact Hp|].
    rewrite Kconn. exact Hconn.
Qed.

Lemma ensureBrowser_returns_ready_witness :
  exists st' b p,
    ensureBrowser None None None closed_page_state = (Returned (Some b, Some p), st') /\
    isConnected b (world st') = true.
Proof.
  assert (Hrun : { out | ensureBrowser None None None closed_page_state
                         = (Returned (Some out.1.1, Some out.1.2), out.2) }).
  { eexists (_, _, _). vm_compute. reflexivity. }
  destruct Hrun as [[[b0 p0] st'] Hrun]. cbn [fst snd] in Hrun.
  destruct (ensureBrowser_returns_ready _ _ _ _ _ _ _ Hrun)
    as (_ & _ & b & p & Hb & Hp & Hconn).
  injection Hb as ->. injection Hp as ->.
  exists st', b, p. split; [exact Hrun|exact Hconn].
Defined.

(** X10.  With a connected browser [ensureBrowser] never runs discovery
    and never launches, whether it returns or throws and whatever the
    driver rejects: the browser handle and the cached path stay, no
    browser's connection changes, and the calls it adds to the log are
    neither [findChrome] nor [puppeteer.launch]. *)
Theorem ensureBrowser_live_never_launches (headless : option bool)
    (width height : option Z) (st : State) :
  browser_live (this st) (world st) = true ->
  let st' := (ensureBrowser headless width height st).2 in
  browser (this st') = browser (this st) /\
  chromePath (this st') = chromePath (this st) /\
  (forall b, isConnected b (world st') = isConnected b (world st)) /\
  exists more, log (world st') = more ++ log (world st) /\
               forallb (fun c => negb (is_launch c)) more = true.
Proof.
  intros Hlive. cbv zeta. rewrite ensureBrowser_live_branch by exact Hlive.
  apply keeps_session_ensure_page.
Qed.

Lemma ensureBrowser_live_never_launches_witness :
  browser_live (this closed_page_state) (world closed_page_state) = true /\
  browser (this (ensureBrowser None None None closed_page_state).2) = Some 0%nat.
Proof.
  assert (Hlive : browser_live (this closed_page_state) (world closed_page_state) = true)
    by (vm_compute; reflexivity).
  split; [exact Hlive|].
  destruct (ensureBrowser_live_never_launches None None None closed_page_state Hlive)
    as (Hb & _). exact Hb.
Defined.

Lemma launch_browser_accepted_world (headless : bool) (width height : Z) (st : State)
    (path : option string) :
  discovered (this st) (host (world st)) = Returned path ->
  rejects (world st) (CLaunch path headless width height) = false ->
  launch_browser headless width height st =
    (Returned tt,
     {| this := launched_this st path;
        world := launched_world st path headless width height |}).
Proof.
  intros Hdisc Hacc. apply discovered_launch in Hdisc.
  rewrite launch_browser_run, initialize_run. unfold launched_this, launched_world.
  destruct (has_chromePath (this st)) eqn:Hknown.
  - subst path. rewrite puppeteer_launch_run. cbv zeta. rewrite Hacc.
    destruct st as [[b p c] w]. reflexivity.
  - destruct Hdisc as (s & Hs & ->). rewrite Hs. cbv beta iota zeta.
    rewrite puppeteer_launch_run. cbv zeta. wsimpl. rewrite Hacc. reflexivity.
Qed.

Lemma listeners_opened (n : nat) (b b' : BrowserHandle) (w : World) :
  listeners b' (opened n b w) = listeners b' w.
Proof.
  revert w. induction n as [|n IH]; intros w; simpl; [reflexivity|].
  rewrite IH, listeners_add_page. reflexivity.
Qed.

Lemma listeners_launched (st : State) (path : option string) (headless : bool)
    (width height : Z) (b : BrowserHandle) :
  listeners b (launched_world st path headless width height) =
    if decide (b = next_handle (world st)) then 1%nat else listeners b (world st).
Proof.
  unfold launched_world. cbv zeta.
  set (n := next_handle (world st)).
  set (w1 := set_browsers (<[n := _]> _) _).
  assert (Hin : browsers w1 !! n = Some (new_browser path headless width height))
    by (subst w1; cbn [browsers set_browsers]; apply lookup_insert_eq).
  pose proof (opened_browser (launch_pages (world st)) n w1 _ Hin) as Hopened.
  pose proof (listeners_opened (launch_pages (world st)) n b w1) as Hsame.
  unfold listeners in *. cbn [browsers set_browsers] in *.
  case_decide as Hb.
  - subst b. rewrite lookup_alter_eq, Hopened. reflexivity.
  - rewrite lookup_alter_ne by congruence. rewrite Hsame.
    subst w1. cbn [browsers set_browsers set_next_handle set_log].
    rewrite lookup_insert_ne by congruence. reflexivity.
Qed.

(** X11.  The ['targetcreated'] listener is registered once per launched
    browser and by nothing else: with a connected browser [ensureBrowser]
    leaves every browser's listener count as it was; otherwise, if it
    returns, the browser it returns is the newly allocated one, which
    carries exactly one listener, and the other browsers' counts are as
    they were. *)
Theorem ensureBrowser_one_listener_per_browser (headless : option bool)
    (width height : option Z) (st : State) :
  let out := ensureBrowser headless width height st in
  if browser_live (this st) (world st) then
    forall b, listeners b (world out.2) = listeners b (world st)
  else
    forall ob op, out.1 = Returned (ob, op) ->
      ob = Some (next_handle (world st)) /\
      listeners (next_handle (world st)) (world out.2) = 1%nat /\
      forall b, b <> next_handle (world st) ->
        listeners b (world out.2) = listeners b (world st).
Proof.
  cbv zeta. destruct (browser_live (this st) (world st)) eqn:Hlive.
  - intros b. rewrite ensureBrowser_live_branch by exact Hlive.
    apply keeps_listeners_ensure_page.
  - rewrite ensureBrowser_launch_branch by exact Hlive. intros ob op.
    destruct (launch_browser _ _ _ st) as [[[]|e] st1] eqn:Hlaunch; [|discriminate].
    destruct (launch_browser_returned _ _ _ _ _ Hlaunch) as (path & Hdisc & Hacc).
    rewrite (launch_browser_accepted_world _ _ _ _ _ Hdisc Hacc) in Hlaunch.
    injection Hlaunch as <-. intros Hret.
    destruct (ensure_page _ _ _) as [r st2] eqn:Hpage. cbn [fst snd] in *. subst r.
    pose proof (keeps_listeners_ensure_page (default 1280 width) (default 720 height)
                  {| this := launched_this st path;
                     world := launched_world st path (default false headless)
                                (default 1280 width) (default 720 height) |}) as Hkeep.
    rewrite Hpage in Hkeep. cbn [snd world] in Hkeep.
    apply ensure_page_returned in Hpage as (Hob & _ & _ & (Kb & _)).
    cbn [this launched_this set_browser browser] in Kb.
    split; [congruence|]. split.
    + rewrite Hkeep, listeners_launched. case_decide; [reflexivity|congruence].
    + intros b Hb. rewrite Hkeep, listeners_launched. case_decide; [congruence|reflexivity].
Qed.

Lemma ensureBrowser_one_listener_per_browser_witness :
  listeners 2 (world (ensureBrowser None None None crashed_state).2) = 1%nat /\
  listeners 0 (world (ensureBrowser None None None crashed_state).2) = 0%nat.
Proof.
  pose proof (ensureBrowser_one_listener_per_browser None None None crashed_state) as H.
  cbv zeta in H.
  assert (Hlive : browser_live (this crashed_state) (world crashed_state) = false)
    by (vm_compute; reflexivity).
  rewrite Hlive in H.
  assert (Hrun : { r | (ensureBrowser None None None crashed_state).1
                       = Returned (r.1, r.2) }).
  { eexists (_, _). vm_compute. reflexivity. }
  destruct Hrun as [[ob op] Hrun].
  destruct (H ob op Hrun) as (_ & Hone & Hothers).
  split; [exact Hone|].
  rewrite (Hothers 0%nat) by (vm_compute; discriminate).
  vm_compute. reflexivity.
Defined.

Lemma pages_launched_below (st : State) (path : option string) (headless : bool)
    (width height : Z) (p : PageHandle) :
  (p < next_handle (world st))%nat ->
  pages (launched_world st path headless width height) !! p = pages (world st) !! p.
Proof.
  intros Hp. unfold launched_world. cbv zeta. cbn [pages set_browsers].
  rewrite opened_pages_below by (cbn [next_handle set_browsers set_next_handle]; lia).
  reflexivity.
Qed.

Lemma log_launched (st : State) (path : option string) (headless : bool)
    (width height : Z) :
  log (launched_world st path headless width height) =
    CLaunch path headless width height ::
      (if has_chromePath (this st) then [] else [CFindChrome]) ++ log (world st).
Proof.
  unfold launched_world. cbv zeta. cbn [log set_browsers].
  destruct (opened_frame (launch_pages (world st)) (next_handle (world st))
              (set_browsers
                 (<[next_handle (world st) := new_browser path headless width height]>
                    (browsers (world st)))
                 (set_next_handle (S (next_handle (world st)))
                    (set_log ((CLaunch path headless width height ::
                                 (if has_chromePath (this st) then [] else [CFindChrome]))
                              ++ log (world st)) (world st))))) as (Hlog & _).
  rewrite Hlog. reflexivity.
Qed.

(** X12.  The page test does not look at which browser a page belongs to.
    When the browser is gone but the page object the manager holds still
    reports open, an accepted relaunch pairs the new browser with the old
    page: [ensureBrowser] returns the freshly allocated browser together
    with the page held before, makes no driver call after the launch (no
    [pages], [newPage], [setViewport] or [evaluateOnNewDocument]), and
    leaves that page object as it was. *)
Theorem ensureBrowser_relaunch_keeps_open_page (headless : option bool)
    (width height : option Z) (st : State) (p : PageHandle) (path : option string) :
  browser_live (this st) (world st) = false ->
  page (this st) = Some p ->
  (p < next_handle (world st))%nat ->
  isClosed p (world st) = false ->
  discovered (this st) (host (world st)) = Returned path ->
  let c := CLaunch path (default false headless) (default 1280 width)
             (default 720 height) in
  rejects (world st) c = false ->
  exists st',
    ensureBrowser headless width height st =
      (Returned (Some (next_handle (world st)), Some p), st') /\
    log (world st') =
      c :: (if has_chromePath (this st) then [] else [CFindChrome]) ++ log (world st) /\
    pages (world st') !! p = pages (world st) !! p.
Proof.
  intros Hlive Hpage Hp Hopen Hdisc c Hacc. subst c.
  rewrite ensureBrowser_launch_branch by exact Hlive.
  rewrite (launch_browser_accepted_world _ _ _ _ _ Hdisc Hacc).
  exists {| this := launched_this st path;
            world := launched_world st path (default false headless)
                       (default 1280 width) (default 720 height) |}.
  cbn [world].
  split; [|split; [apply log_launched|apply pages_launched_below; exact Hp]].
  unfold ensure_page. unfold mbind, Js_bind, gets, mret, Js_ret.
  cbn [this world fst snd].
  assert (Husable : page_usable (launched_this st path)
                      (launched_world st path (default false headless)
                         (default 1280 width) (default 720 height)) = true).
  { unfold page_usable, isClosed in *.
    unfold launched_this. cbn [page set_browser set_chromePath]. rewrite Hpage.
    rewrite pages_launched_below by exact Hp. rewrite Hopen. reflexivity. }
  rewrite Husable. unfold launched_this.
  cbn [this browser page set_browser set_chromePath].
  rewrite Hpage. reflexivity.
Qed.

Lemma ensureBrowser_relaunch_keeps_open_page_witness :
  exists st',
    ensureBrowser None None None crashed_state = (Returned (Some 2%nat, Some 1%nat), st') /\
    log (world st') = [CLaunch (Some "/usr/bin/chromium") false 1280 720].
Proof.
  assert (Hlive : browser_live (this crashed_state) (world crashed_state) = false)
    by (vm_compute; reflexivity).
  assert (Hlt : (1 < next_handle (world crashed_state))%nat) by (vm_compute; lia).
  assert (Hopen : isClosed 1%nat (world crashed_state) = false) by (vm_compute; reflexivity).
  destruct (ensureBrowser_relaunch_keeps_open_page None None None crashed_state 1%nat
              (Some "/usr/bin/chromium") Hlive eq_refl Hlt Hopen eq_refl eq_refl)
    as (st' & Hrun & Hlog & _).
  exists st'. split; [exact Hrun|exact Hlog].
Defined.

(** X13.  The executable path outlives the browser.  [closeBrowser] never
    touches a cached path, and a manager with a cached path and no
    connected browser launches with that path without running discovery,
    whatever the host looks like by then: the call recorded next after the
    earlier ones is the launch, with the options of the request, and none
    of the later calls is a discovery or a launch. *)
Theorem cached_path_survives_close (st : State) :
  has_chromePath (this st) = true ->
  let closed := (closeBrowser st).2 in
  chromePath (this closed) = chromePath (this st) /\
  forall (w2 : World) (headless : option bool) (width height : option Z),
    browser_live (this closed) w2 = false ->
    let next := ensureBrowser headless width height {| this := this closed; world := w2 |} in
    chromePath (this next.2) = chromePath (this st) /\
    exists more,
      log (world next.2) =
        more ++ CLaunch (chromePath (this st)) (default false headless)
                  (default 1280 width) (default 720 height) :: log w2 /\
      forallb (fun c => negb (is_launch c)) more = true.
Proof.
  intros Hknown. cbv zeta.
  assert (Hsame : chromePath (this (closeBrowser st).2) = chromePath (this st)).
  { rewrite closeBrowser_run. destruct (browser (this st)) as [b|]; [|reflexivity].
    cbv zeta. destruct (rejects (world st) (CBrowserClose b)); reflexivity. }
  split; [exact Hsame|].
  intros w2 headless width height Hlive.
  set (m := this (closeBrowser st).2) in *.
  assert (Hm : has_chromePath m = true).
  { unfold has_chromePath in *. rewrite Hsame. exact Hknown. }
  rewrite ensureBrowser_launch_branch by exact Hlive.
  rewrite launch_browser_run, initialize_run. cbn [this world]. rewrite Hm.
  rewrite puppeteer_launch_run. cbv zeta. cbn [this world]. rewrite Hsame.
  destruct (rejects w2 _).
  - cbn [fst snd this world log set_log]. split; [exact Hsame|].
    exists []. split; reflexivity.
  - cbv beta iota.
    match goal with |- context [ensure_page ?a ?b ?s] =>
      pose proof (keeps_session_ensure_page a b s) as (_ & Hpath & _ & more & Hlog & Hmore);
      set (out := ensure_page a b s) in *
    end.
    cbn [this world set_browser chromePath] in Hpath.
    split; [rewrite Hpath; exact Hsame|].
    exists more. split; [|exact Hmore].
    rewrite Hlog. cbn [world log set_browsers]. f_equal.
    match goal with |- log (opened ?n ?b ?w) = _ =>
      destruct (opened_frame n b w) as (Hl & _); rewrite Hl end.
    reflexivity.
Qed.

Lemma cached_path_survives_close_witness :
  let closed := (closeBrowser closed_page_state).2 in
  exists more,
    log (world (ensureBrowser None None None
                  {| this := this closed; world := world closed |}).2) =
      more ++ [CLaunch (Some "/usr/bin/chromium") false 1280 720; CBrowserClose 0].
Proof.
  cbv zeta.
  assert (Hknown : has_chromePath (this closed_page_state) = true)
    by (vm_compute; reflexivity).
  assert (Hgone : browser_live (this (closeBrowser closed_page_state).2)
                    (world (closeBrowser closed_page_state).2) = false)
    by (vm_compute; reflexivity).
  destruct (cached_path_survives_close closed_page_state Hknown) as (_ & Hnext).
  destruct (Hnext (world (closeBrowser closed_page_state).2) None None None Hgone)
    as (_ & more & Hlog & _).
  exists more. exact Hlog.
Defined.

Lemma launch_pages_opened (n : nat) (b : BrowserHandle) (w : World) :
  launch_pages (opened n b w) = launch_pages w.
Proof.
  revert w. induction n as [|n IH]; intros w; simpl; [reflexivity|].
  rewrite IH. reflexivity.
Qed.

Lemma launched_frame (st : State) (path : option string) (headless : bool)
    (width height : Z) :
  let n := next_handle (world st) in
  let w' := launched_world st path headless width height in
  rejects w' = rejects (world st) /\
  launch_pages w' = launch_pages (world st) /\
  next_handle w' = (S n + launch_pages (world st))%nat /\
  browsers w' !! n =
    Some (add_listener
            (set_br_pages (seq (S n) (launch_pages (world st)))
               (new_browser path headless width height))) /\
  (forall k, launch_pages (world st) = S k -> pages w' !! S n = Some (blank_page n)).
Proof.
  cbv zeta. unfold launched_world. cbv zeta.
  set (n := next_handle (world st)).
  set (w1 := set_browsers (<[n := _]> _) _).
  assert (Hin : browsers w1 !! n = Some (new_browser path headless width height))
    by (subst w1; cbn [browsers set_browsers]; apply lookup_insert_eq).
  pose proof (opened_browser (launch_pages (world st)) n w1 _ Hin) as Hopened.
  destruct (opened_frame (launch_pages (world st)) n w1) as (_ & Hrej & _ & Hnext & _).
  cbn [rejects launch_pages next_handle browsers pages set_browsers].
  split; [rewrite Hrej; reflexivity|]. split.
  { rewrite launch_pages_opened. reflexivity. }
  split; [rewrite Hnext; reflexivity|]. split.
  { rewrite lookup_alter_eq, Hopened. reflexivity. }
  intros k Hk. rewrite Hk.
  change (S n) with (next_handle w1). apply opened_first_page.
Qed.

Lemma ensureBrowser_fresh_run (headless : option bool) (width height : option Z)
    (st : State) (path : option string) :
  browser_live (this st) (world st) = false ->
  page_usable (this st) (world st) = false ->
  (forall p, page (this st) = Some p -> (p < next_handle (world st))%nat) ->
  discovered (this st) (host (world st)) = Returned path ->
  let n := next_handle (world st) in
  let hl := default false headless in
  let w := default 1280 width in
  let h := default 720 height in
  (forall c, In c (fresh_calls st path hl w h) -> rejects (world st) c = false) ->
  exists st',
    ensureBrowser headless width height st = (Returned (Some n, Some (S n)), st') /\
    this st' = {| browser := Some n; page := Some (S n); chromePath := path |} /\
    browsers (world st') !! n =
      Some {| br_connected := true; br_executablePath := path; br_headless := hl;
              br_args := launch_args w h; br_defaultViewport := (w, h);
              br_pages := seq (S n) (Nat.max 1 (launch_pages (world st)));
              br_targetcreated := 1 |} /\
    pages (world st') !! S n =
      Some {| pg_browser := n; pg_url := "about:blank"; pg_closed := false;
              pg_viewport := Some (w, h); pg_open_override := 1 |} /\
    log (world st') =
      fresh_calls st path hl w h ++
      (if has_chromePath (this st) then [] else [CFindChrome]) ++ log (world st).
Proof.
  intros Hlive Hstale Hbelow Hdisc n hl w h Hacc.
  assert (Hlaunch : rejects (world st) (CLaunch path hl w h) = false).
  { apply Hacc. unfold fresh_calls. rewrite !in_app_iff. right. right. simpl. auto. }
  rewrite ensureBrowser_launch_branch by exact Hlive. fold hl w h.
  rewrite (launch_browser_accepted_world _ _ _ _ _ Hdisc Hlaunch).
  destruct (launched_frame st path hl w h) as (Hrej & Hlp & Hnext & Hbr & Hfirst).
  cbv zeta in Hrej, Hlp, Hnext, Hbr, Hfirst. fold n in Hnext, Hbr, Hfirst.
  pose proof (log_launched st path hl w h) as Hlog.
  set (w' := launched_world st path hl w h) in *.
  set (st1 := {| this := launched_this st path; world := w' |}).
  assert (Hstale1 : page_usable (this st1) (world st1) = false).
  { unfold page_usable, isClosed in *. subst st1. unfold launched_this.
    cbn [this world page set_browser set_chromePath].
    destruct (page (this st)) as [p|] eqn:Hp; [|reflexivity].
    subst w'. rewrite pages_launched_below by (apply Hbelow; reflexivity).
    exact Hstale. }
  rewrite ensure_page_acquire_branch by exact Hstale1.
  rewrite (acquire_page_run w h st1 n eq_refl). cbv zeta.
  subst st1. cbn [this world]. rewrite Hrej, Hbr, Hnext, Hlog.
  change (default [] (br_pages <$> Some ?x)) with (br_pages x).
  cbn [br_pages add_listener set_br_pages].
  unfold fresh_calls in *. fold n in Hacc |- *.
  destruct (launch_pages (world st)) as [|k] eqn:Hk.
  - cbn [seq]. rewrite Nat.add_0_r.
    rewrite (Hacc (CPages n)) by (simpl; auto).
    rewrite (Hacc (CNewPage n)) by (simpl; auto).
    rewrite configure_page_run. cbv zeta. wsimpl. rewrite Hrej.
    rewrite (Hacc (CSetViewport (S n) w h)) by (simpl; auto).
    rewrite (Hacc (CEvaluateOnNewDocument (S n))) by (simpl; auto).
    eexists. split; [reflexivity|]. wsimpl. unfold launched_this. wsimpl.
    split; [reflexivity|]. split.
    { rewrite lookup_alter_eq, Hbr. reflexivity. }
    split; [|reflexivity].
    rewrite lookup_alter_eq, lookup_alter_eq, lookup_insert_eq. reflexivity.
  - cbn [seq]. specialize (Hfirst k eq_refl).
    rewrite (Hacc (CPages n)) by (simpl; auto).
    rewrite configure_page_run. cbv zeta. wsimpl. rewrite Hrej.
    rewrite (Hacc (CSetViewport (S n) w h)) by (simpl; auto).
    rewrite (Hacc (CEvaluateOnNewDocument (S n))) by (simpl; auto).
    eexists. split; [reflexivity|]. wsimpl. unfold launched_this. wsimpl.
    split; [reflexivity|]. split.
    { rewrite Hbr. reflexivity. }
    split; [|reflexivity].
    rewrite lookup_alter_eq, lookup_alter_eq, Hfirst. reflexivity.
Qed.

(** X14.  A launch that also has to acquire its page, with every driver
    call accepted: [ensureBrowser] returns the two handles it allocated; the
    browser was launched with exactly the requested options (executable
    path, [headless], the six arguments with [--window-size] at the
    requested size, the default viewport) and carries one listener; the
    page is the browser's first page, blank, with the requested viewport
    and the [window.open] override installed once; [newPage] is called
    only when the browser came up without a page. *)
Theorem ensureBrowser_fresh_configuration (headless : option bool)
    (width height : option Z) (st : State) (path : option string) :
  browser_live (this st) (world st) = false ->
  page_usable (this st) (world st) = false ->
  (forall p, page (this st) = Some p -> (p < next_handle (world st))%nat) ->
  discovered (this st) (host (world st)) = Returned path ->
  let n := next_handle (world st) in
  let hl := default false headless in
  let w := default 1280 width in
  let h := default 720 height in
  (forall c, In c (fresh_calls st path hl w h) -> rejects (world st) c = false) ->
  exists st',
    ensureBrowser headless width height st = (Returned (Some n, Some (S n)), st') /\
    this st' = {| browser := Some n; page := Some (S n); chromePath := path |} /\
    browsers (world st') !! n =
      Some {| br_connected := true; br_executablePath := path; br_headless := hl;
              br_args := launch_args w h; br_defaultViewport := (w, h);
              br_pages := seq (S n) (Nat.max 1 (launch_pages (world st)));
              br_targetcreated := 1 |} /\
    pages (world st') !! S n =
      Some {| pg_browser := n; pg_url := "about:blank"; pg_closed := false;
              pg_viewport := Some (w, h); pg_open_override := 1 |} /\
    log (world st') =
      fresh_calls st path hl w h ++
      (if has_chromePath (this st) then [] else [CFindChrome]) ++ log (world st).
Proof. exact (ensureBrowser_fresh_run headless width height st path). Qed.

Lemma ensureBrowser_fresh_configuration_witness :
  exists st',
    ensureBrowser (Some true) (Some 800) None new_state
      = (Returned (Some 0%nat, Some 1%nat), st') /\
    log (world st') =
      [CEvaluateOnNewDocument 1; CSetViewport 1 800 720; CPages 0;
       CLaunch (Some "/usr/bin/chromium") true 800 720; CFindChrome].
Proof.
  assert (Hlive : browser_live (this new_state) (world new_state) = false)
    by (vm_compute; reflexivity).
  assert (Hstale : page_usable (this new_state) (world new_state) = false)
    by (vm_compute; reflexivity).
  assert (Hbelow : forall p, page (this new_state) = Some p ->
                     (p < next_handle (world new_state))%nat)
    by (intros p Hp; vm_compute in Hp; discriminate).
  assert (Hdisc : discovered (this new_state) (host (world new_state))
                  = Returned (Some "/usr/bin/chromium")) by (vm_compute; reflexivity).
  destruct (ensureBrowser_fresh_configuration (Some true) (Some 800) None new_state
              (Some "/usr/bin/chromium") Hlive Hstale Hbelow Hdisc
              ltac:(intros c _; reflexivity))
    as (st' & Hrun & _ & _ & _ & Hlog).
  exists st'. split; [exact Hrun|exact Hlog].
Defined.

(** *** The [chrome_launch] handler *)

Lemma LaunchBrowserSchema_parse_run (args : LaunchArgs) :
  LaunchBrowserSchema_parse args =
    if in_range 100 7680 (arg_width args) && in_range 100 4320 (arg_height args)
    then Returned {| LaunchParams.headless := default false (arg_headless args);
                     LaunchParams.width := default 1280 (arg_width args);
                     LaunchParams.height := default 720 (arg_height args) |}
    else Thrown ZodError.
Proof.
  unfold LaunchBrowserSchema_parse, parse_int, in_range.
  destruct (arg_width args) as [w|], (arg_height args) as [h|]; cbn [default];
    repeat match goal with |- context [(?a <=? ?b) && (?c <=? ?d)] =>
      destruct ((a <=? b) && (c <=? d)) end; reflexivity.
Qed.

(** X15.  [chrome_launch] validates before it acts.  A width outside
    100..7680 or a height outside 100..4320 makes the handler throw the
    validation error with nothing called and nothing changed; otherwise it
    runs [ensureBrowser] with the given values, where a missing
    [headless], [width] or [height] stands for [false], 1280 or 720, and a
    returned response reports success with exactly these values. *)
Theorem chrome_launch_validates_first (args : LaunchArgs) (st : State) :
  let hl := default false (arg_headless args) in
  let w := default 1280 (arg_width args) in
  let h := default 720 (arg_height args) in
  if in_range 100 7680 (arg_width args) && in_range 100 4320 (arg_height args) then
    100 <= w <= 7680 /\ 100 <= h <= 4320 /\
    (chrome_launch args st).2 = (ensureBrowser (Some hl) (Some w) (Some h) st).2 /\
    match (ensureBrowser (Some hl) (Some w) (Some h) st).1 with
    | Returned _ =>
        (chrome_launch args st).1 =
          Returned {| resp_success := true;
                      resp_message := "Browser launched successfully";
                      resp_headless := hl;
                      resp_viewport := (w, h) |}
    | Thrown e => (chrome_launch args st).1 = Thrown e
    end
  else chrome_launch args st = (Thrown ZodError, st).
Proof.
  cbv zeta. unfold chrome_launch. unfold mbind at 1, Js_bind at 1, lift_outcome.
  rewrite LaunchBrowserSchema_parse_run.
  destruct (in_range 100 7680 (arg_width args) && in_range 100 4320 (arg_height args))
    eqn:Hrange; [|reflexivity].
  apply andb_true_iff in Hrange as [Hw Hh].
  split.
  { unfold in_range in Hw. destruct (arg_width args); unfold default; cbn [from_option id]; [|lia].
    apply andb_true_iff in Hw as [?%Z.leb_le ?%Z.leb_le]. lia. }
  split.
  { unfold in_range in Hh. destruct (arg_height args); unfold default; cbn [from_option id]; [|lia].
    apply andb_true_iff in Hh as [?%Z.leb_le ?%Z.leb_le]. lia. }
  cbn [LaunchParams.headless LaunchParams.width LaunchParams.height].
  unfold mbind, Js_bind, mret, Js_ret.
  destruct (ensureBrowser _ _ _ st) as [[r|e] st1]; split; reflexivity.
Qed.

(** X16.  On a session whose browser is connected and whose page is open,
    [chrome_launch] with valid arguments answers success and echoes the
    requested [headless] and viewport, yet calls nothing and changes
    nothing: the browser keeps the options it was launched with, which the
    response does not show. *)
Theorem chrome_launch_live_session_echoes_request (args : LaunchArgs) (st : State) :
  browser_live (this st) (world st) = true ->
  page_usable (this st) (world st) = true ->
  in_range 100 7680 (arg_width args) && in_range 100 4320 (arg_height args) = true ->
  chrome_launch args st =
    (Returned {| resp_success := true;
                 resp_message := "Browser launched successfully";
                 resp_headless := default false (arg_headless args);
                 resp_viewport := (default 1280 (arg_width args),
                                   default 720 (arg_height args)) |},
     st).
Proof.
  intros Hlive Husable Hrange. unfold chrome_launch.
  unfold mbind at 1, Js_bind at 1, lift_outcome.
  rewrite LaunchBrowserSchema_parse_run, Hrange.
  unfold mbind, Js_bind, mret, Js_ret.
  rewrite (ensureBrowser_ready_run _ _ _ st Hlive Husable). reflexivity.
Qed.

Lemma chrome_launch_live_session_echoes_request_witness :
  let st := popup_state never_rejects in
  let args := {| arg_headless := Some true; arg_width := Some 800; arg_height := Some 600 |} in
  (chrome_launch args st).1 =
    Returned {| resp_success := true;
                resp_message := "Browser launched successfully";
                resp_headless := true;
                resp_viewport := (800, 600) |} /\
  br_headless <$> browsers (world (chrome_launch args st).2) !! 0%nat = Some false.
Proof.
  cbv zeta.
  rewrite (chrome_launch_live_session_echoes_request
             {| arg_headless := Some true; arg_width := Some 800; arg_height := Some 600 |}
             (popup_state never_rejects)) by (vm_compute; reflexivity).
  split; vm_compute; reflexivity.
Defined.

(** X17.  After a launch that had to acquire its page, what
    [chrome_launch] reports is what the session has: the browser the
    manager holds runs with the reported [headless] flag and default
    viewport, and the page it holds has the reported viewport. *)
Theorem chrome_launch_fresh_reports_session (args : LaunchArgs) (st : State)
    (path : option string) :
  in_range 100 7680 (arg_width args) && in_range 100 4320 (arg_height args) = true ->
  browser_live (this st) (world st) = false ->
  page_usable (this st) (world st) = false ->
  (forall p, page (this st) = Some p -> (p < next_handle (world st))%nat) ->
  discovered (this st) (host (world st)) = Returned path ->
  (forall c, In c (fresh_calls st path (default false (arg_headless args))
                     (default 1280 (arg_width args)) (default 720 (arg_height args))) ->
             rejects (world st) c = false) ->
  exists resp st' b p br pg,
    chrome_launch args st = (Returned resp, st') /\
    resp_success resp = true /\
    browser (this st') = Some b /\ browsers (world st') !! b = Some br /\
    page (this st') = Some p /\ pages (world st') !! p = Some pg /\
    br_connected br = true /\
    br_headless br = resp_headless resp /\
    br_defaultViewport br = resp_viewport resp /\
    pg_viewport pg = Some (resp_viewport resp) /\
    pg_closed pg = false.
Proof.
  intros Hrange Hlive Hstale Hbelow Hdisc Hacc.
  destruct (ensureBrowser_fresh_run
              (Some (default false (arg_headless args)))
              (Some (default 1280 (arg_width args)))
              (Some (default 720 (arg_height args))) st path
              Hlive Hstale Hbelow Hdisc Hacc)
    as (st' & Hrun & Hthis & Hbr & Hpg & _).
  unfold chrome_launch. unfold mbind at 1, Js_bind at 1, lift_outcome.
  rewrite LaunchBrowserSchema_parse_run, Hrange.
  cbn [LaunchParams.headless LaunchParams.width LaunchParams.height].
  unfold mbind, Js_bind, mret, Js_ret. rewrite Hrun.
  do 2 eexists. exists (next_handle (world st)), (S (next_handle (world st))).
  do 2 eexists. split; [reflexivity|]. rewrite Hthis.
  split; [reflexivity|]. split; [reflexivity|]. split; [exact Hbr|].
  split; [reflexivity|]. split; [exact Hpg|]. repeat split.
Qed.

Lemma chrome_launch_fresh_reports_session_witness :
  exists resp st',
    chrome_launch {| arg_headless := Some true; arg_width := Some 800; arg_height := None |}
      new_state = (Returned resp, st') /\
    resp_success resp = true.
Proof.
  assert (Hbelow : forall p, page (this new_state) = Some p ->
                     (p < next_handle (world new_state))%nat)
    by (intros p Hp; vm_compute in Hp; discriminate).
  destruct (chrome_launch_fresh_reports_session
              {| arg_headless := Some true; arg_width := Some 800; arg_height := None |}
              new_state (Some "/usr/bin/chromium")
              eq_refl eq_refl eq_refl Hbelow eq_refl ltac:(intros c _; reflexivity))
    as (resp & st' & _ & _ & _ & _ & Hrun & Hok & _).
  exists resp, st'. split; [exact Hrun|exact Hok].
Defined.

(** *** The [chrome_screenshot] handler *)

Lemma ScreenshotSchema_parse_run (args : ScreenshotArgs) :
  ScreenshotSchema_parse args =
    if valid_screenshot_args args then Returned (screenshot_defaults args)
    else Thrown ZodError.
Proof.
  unfold ScreenshotSchema_parse, valid_screenshot_args, screenshot_defaults,
    parse_format, parse_int, known_format, in_range.
  destruct args as [fp sel [fmt|] [q|] [mw|] [mh|]]; cbn [arg_full_page arg_selector
    arg_format arg_quality arg_max_width arg_max_height];
    repeat match goal with
           | |- context [String.eqb ?a ?b] => destruct (String.eqb a b)
           | |- context [(?a <=? ?b) && (?c <=? ?d)] => destruct ((a <=? b) && (c <=? d))
           end; reflexivity.
Qed.

(** X18.  [chrome_screenshot] validates before it acts.  An unknown
    format, a quality outside 1..100, a maximum width outside 100..2560 or
    a maximum height outside 100..1440 makes the handler throw the
    validation error with no browser launched and nothing changed;
    otherwise the schema accepts the arguments and fills what is missing
    with [false], JPEG, 60, 1280 and 1440. *)
Theorem chrome_screenshot_validates_first `{Encoder} (args : ScreenshotArgs) (st : State) :
  if valid_screenshot_args args then
    ScreenshotSchema_parse args = Returned (screenshot_defaults args) /\
    1 <= quality (screenshot_defaults args) <= 100 /\
    100 <= max_width (screenshot_defaults args) <= 2560 /\
    100 <= max_height (screenshot_defaults args) <= 1440
  else chrome_screenshot args st = (Thrown ZodError, st).
Proof.
  unfold chrome_screenshot. unfold mbind at 1, Js_bind at 1, lift_outcome.
  rewrite ScreenshotSchema_parse_run.
  destruct (valid_screenshot_args args) eqn:Hvalid; [|reflexivity].
  split; [reflexivity|].
  unfold valid_screenshot_args in Hvalid.
  apply andb_true_iff in Hvalid as [Hvalid Hh].
  apply andb_true_iff in Hvalid as [Hvalid Hw].
  apply andb_true_iff in Hvalid as [_ Hq].
  unfold screenshot_defaults, in_range in *. cbn [quality max_width max_height].
  destruct (arg_quality args), (arg_max_width args), (arg_max_height args);
    unfold default; cbn [from_option id];
    repeat match goal with
           | H : _ && _ = true |- _ => apply andb_true_iff in H as [?%Z.leb_le ?%Z.leb_le]
           end; lia.
Qed.

Lemma ensureBrowser_launch_log (headless : option bool) (width height : option Z)
    (st : State) (path : option string) :
  browser_live (this st) (world st) = false ->
  discovered (this st) (host (world st)) = Returned path ->
  exists more,
    log (world (ensureBrowser headless width height st).2) =
      more ++ CLaunch path (default false headless) (default 1280 width)
                (default 720 height)
           :: (if has_chromePath (this st) then [] else [CFindChrome]) ++ log (world st) /\
    forallb (fun c => negb (is_launch c)) more = true.
Proof.
  intros Hlive Hdisc.
  rewrite ensureBrowser_launch_branch by exact Hlive.
  destruct (rejects (world st) (CLaunch path (default false headless) (default 1280 width)
                                  (default 720 height))) eqn:Hrej.
  - exists []. split; [|reflexivity].
    apply discovered_launch in Hdisc.
    rewrite launch_browser_run, initialize_run.
    destruct (has_chromePath (this st)).
    + subst path. rewrite puppeteer_launch_run. cbv zeta. rewrite Hrej. reflexivity.
    + destruct Hdisc as (s & Hs & ->). rewrite Hs. cbv beta iota zeta.
      rewrite puppeteer_launch_run. cbv zeta. wsimpl. rewrite Hrej. reflexivity.
  - rewrite (launch_browser_accepted_world _ _ _ _ _ Hdisc Hrej).
    match goal with |- context [ensure_page ?a ?b ?s] =>
      pose proof (keeps_session_ensure_page a b s) as (_ & _ & _ & more & Hlog & Hmore);
      set (out := ensure_page a b s) in *
    end.
    exists more. split; [|exact Hmore].
    rewrite Hlog. cbn [world]. rewrite log_launched. reflexivity.
Qed.

Lemma chrome_screenshot_after_ensureBrowser `{Encoder} (args : ScreenshotArgs)
    (st : State) :
  valid_screenshot_args args = true ->
  no_relaunch (ensureBrowser None None None st).2 (chrome_screenshot args st).2.
Proof.
  intros Hvalid. unfold chrome_screenshot.
  unfold mbind at 1, Js_bind at 1, lift_outcome.
  rewrite ScreenshotSchema_parse_run, Hvalid.
  unfold mbind at 1, Js_bind at 1.
  destruct (ensureBrowser None None None st) as [[[ob op]|e] st1]; cbn [fst snd];
    [|apply no_relaunch_refl].
  destruct op as [page|]; [|apply no_relaunch_refl].
  revert st1. apply @keeps_session_bind.
  - destruct (selector_given (screenshot_defaults args)) as [s|].
    + apply keeps_session_bind; [apply keeps_session_call; reflexivity|]. intros _.
      apply keeps_session_bind; [apply keeps_session_gets|]. intros [|].
      * apply keeps_session_bind; [apply keeps_session_call; reflexivity|]. intros _.
        apply keeps_session_gets.
      * apply keeps_session_throw.
    + apply keeps_session_bind; [apply keeps_session_call; reflexivity|]. intros _.
      apply keeps_session_gets.
  - intros screenshot. apply keeps_session_bind.
    + intros st1. apply no_relaunch_refl.
    + intros compressed. apply keeps_session_ret.
Qed.

(** X19.  The capture handler calls [ensureBrowser()] without arguments,
    as does every handler that needs a page apart from [chrome_launch], so
    a capture requested while no browser is connected brings one up with a
    visible window at 1280x720, whatever the request says about
    [max_width] and [max_height]: the handler makes exactly one launch
    call, with [headless: false] and that size, preceded by discovery only
    when no path is cached. *)
Theorem chrome_screenshot_launches_headed `{Encoder} (args : ScreenshotArgs) (st : State)
    (path : option string) :
  valid_screenshot_args args = true ->
  browser_live (this st) (world st) = false ->
  discovered (this st) (host (world st)) = Returned path ->
  exists more,
    log (world (chrome_screenshot args st).2) =
      more ++ CLaunch path false 1280 720
           :: (if has_chromePath (this st) then [] else [CFindChrome]) ++ log (world st) /\
    forallb (fun c => negb (is_launch c)) more = true.
Proof.
  intros Hvalid Hlive Hdisc.
  destruct (ensureBrowser_launch_log None None None st path Hlive Hdisc)
    as (more1 & Hlog1 & Hmore1).
  destruct (chrome_screenshot_after_ensureBrowser args st Hvalid)
    as (_ & _ & _ & more2 & Hlog2 & Hmore2).
  exists (more2 ++ more1). split.
  - rewrite Hlog2, Hlog1, <- app_assoc. reflexivity.
  - rewrite forallb_app, Hmore1, Hmore2. reflexivity.
Qed.

Lemma chrome_screenshot_launches_headed_witness :
  exists more,
    log (world (@chrome_screenshot pixel_encoder
                  {| arg_full_page := None; arg_selector := None; arg_format := None;
                     arg_quality := None; arg_max_width := Some 640;
                     arg_max_height := Some 480 |} new_state).2) =
      more ++ [CLaunch (Some "/usr/bin/chromium") false 1280 720; CFindChrome].
Proof.
  destruct (@chrome_screenshot_launches_headed pixel_encoder
              {| arg_full_page := None; arg_selector := None; arg_format := None;
                 arg_quality := None; arg_max_width := Some 640;
                 arg_max_height := Some 480 |} new_state (Some "/usr/bin/chromium")
              eq_refl eq_refl eq_refl) as (more & Hlog & _).
  exists more. exact Hlog.
Defined.

(** X20.  A selector that matches nothing: on a ready session the handler
    looks the element up, throws [Element not found: <selector>] and stops
    there; it takes no screenshot, and the lookup is the only call it
    made. *)
Theorem chrome_screenshot_element_not_found `{Encoder} (args : ScreenshotArgs) (st : State)
    (p : PageHandle) (s : string) :
  valid_screenshot_args args = true ->
  arg_selector args = Some s -> truthy s = true ->
  browser_live (this st) (world st) = true ->
  page (this st) = Some p -> isClosed p (world st) = false ->
  rejects (world st) (CQuery p s) = false ->
  matches (world st) p s = false ->
  chrome_screenshot args st =
    (Thrown (GenericError ("Element not found: " ++ s)),
     {| this := this st; world := set_log (CQuery p s :: log (world st)) (world st) |}).
Proof.
  intros Hvalid Hsel Hs Hlive Hpage Hopen Hacc Hnone.
  assert (Husable : page_usable (this st) (world st) = true).
  { unfold page_usable. rewrite Hpage, Hopen. reflexivity. }
  unfold chrome_screenshot. unfold mbind at 1, Js_bind at 1, lift_outcome.
  rewrite ScreenshotSchema_parse_run, Hvalid.
  unfold mbind at 1, Js_bind at 1.
  rewrite (ensureBrowser_ready_run _ _ _ st Hlive Husable). cbn [fst snd]. rewrite Hpage.
  unfold selector_given, screenshot_defaults. cbn [selector]. rewrite Hsel, Hs.
  unfold mbind at 1, Js_bind at 1. unfold mbind at 1, Js_bind at 1.
  rewrite call_run, Hacc. unfold mbind, Js_bind, gets, throw. wsimpl.
  rewrite Hnone. reflexivity.
Qed.

Lemma chrome_screenshot_element_not_found_witness :
  (@chrome_screenshot pixel_encoder
     {| arg_full_page := Some true; arg_selector := Some "#missing"; arg_format := None;
        arg_quality := None; arg_max_width := None; arg_max_height := None |}
     ready_state).1 =
  Thrown (GenericError "Element not found: #missing").
Proof.
  rewrite (@chrome_screenshot_element_not_found pixel_encoder
     {| arg_full_page := Some true; arg_selector := Some "#missing"; arg_format := None;
        arg_quality := None; arg_max_width := None; arg_max_height := None |}
     ready_state 1%nat "#missing"
     eq_refl eq_refl eq_refl eq_refl eq_refl eq_refl eq_refl eq_refl).
  reflexivity.
Defined.

(** X21.  The selector decides what is captured.  An empty selector is no
    selector: the request is served like one without the field, by a page
    screenshot.  With a non-empty selector the element is captured and
    [full_page] plays no part: any two values of it give the same calls
    and the same answer. *)
Theorem chrome_screenshot_selector_precedence `{Encoder} (args : ScreenshotArgs)
    (st : State) :
  chrome_screenshot (with_selector (Some EmptyString) args) st =
    chrome_screenshot (with_selector None args) st /\
  forall (c : Ascii.ascii) (s : string) (f g : option bool),
    chrome_screenshot (with_full_page f (with_selector (Some (String c s)) args)) st =
    chrome_screenshot (with_full_page g (with_selector (Some (String c s)) args)) st.
Proof.
  destruct args as [fp sel fmt q mw mh].
  split; [|intros c s f g];
    unfold chrome_screenshot, mbind, Js_bind, lift_outcome;
    rewrite !ScreenshotSchema_parse_run;
    unfold valid_screenshot_args, with_full_page, with_selector;
    cbn [arg_full_page arg_selector arg_format arg_quality arg_max_width arg_max_height];
    (destruct (known_format fmt && in_range 1 100 q && in_range 100 2560 mw &&
               in_range 100 1440 mh); [|reflexivity]);
    (destruct (ensureBrowser None None None st) as [[[ob [page|]]|e] st1];
       [|reflexivity|reflexivity]);
    reflexivity.
Qed.

(** *** The ['targetcreated'] listener, remaining cases *)

Lemma on_targetcreated_blank_run (st : State) (newPage : PageHandle) :
  same_page (page (this st)) newPage = false ->
  is_blank_or_empty (page_url newPage (world st)) = true ->
  on_targetcreated {| target_type := "page"; target_page := Some newPage |} st =
    page_close newPage st.
Proof.
  intros Hother Hblank. unfold on_targetcreated. cbn [target_type target_page].
  change (String.eqb "page" "page") with true. cbv iota.
  unfold mbind at 1, Js_bind at 1, gets at 1. rewrite Hother.
  unfold mbind at 1, Js_bind at 1, gets at 1.
  unfold is_blank_or_empty in Hblank.
  assert (Hgo : truthy (page_url newPage (world st)) &&
                negb (String.eqb (page_url newPage (world st)) "about:blank") = false).
  { destruct (truthy _), (String.eqb _ _); simpl in *; congruence. }
  rewrite Hgo. unfold mbind, Js_bind, mret, Js_ret. reflexivity.
Qed.

(** X22.  A new page without a URL of its own (empty or [about:blank]) that
    is not the current page is closed and nothing else: the listener makes
    the [close] call and no navigation, leaves every other page and the
    manager as they were, and the page reports closed once the driver
    accepts the call.  This holds with or without a current page, so also
    for a page opened while the manager holds none. *)
Theorem blank_popup_closed_without_navigation (st : State) (newPage : PageHandle) :
  same_page (page (this st)) newPage = false ->
  is_blank_or_empty (page_url newPage (world st)) = true ->
  let out := on_targetcreated {| target_type := "page"; target_page := Some newPage |} st in
  this out.2 = this st /\
  log (world out.2) = CPageClose newPage :: log (world st) /\
  (forall q, q <> newPage -> pages (world out.2) !! q = pages (world st) !! q) /\
  if rejects (world st) (CPageClose newPage)
  then out.1 = Thrown rejected /\
       isClosed newPage (world out.2) = isClosed newPage (world st)
  else out.1 = Returned tt /\ isClosed newPage (world out.2) = true.
Proof.
  intros Hother Hblank. cbv zeta.
  rewrite (on_targetcreated_blank_run st newPage Hother Hblank), page_close_run.
  destruct (rejects (world st) (CPageClose newPage)); wsimpl.
  - repeat split; reflexivity.
  - split; [reflexivity|]. split; [reflexivity|]. split.
    + intros q Hq. rewrite lookup_alter_ne by congruence. reflexivity.
    + split; [reflexivity|]. unfold isClosed. wsimpl. rewrite lookup_alter_eq.
      destruct (pages (world st) !! newPage); reflexivity.
Qed.

Lemma blank_popup_closed_without_navigation_witness :
  let target := {| target_type := "page"; target_page := Some 1%nat |} in
  log (world (on_targetcreated target pageless_state).2) = [CPageClose 1] /\
  isClosed 1%nat (world (on_targetcreated target pageless_state).2) = true.
Proof.
  cbv zeta.
  assert (Hblank : is_blank_or_empty (page_url 1%nat (world pageless_state)) = true)
    by (vm_compute; reflexivity).
  assert (Hacc : rejects (world pageless_state) (CPageClose 1) = false) by reflexivity.
  destruct (blank_popup_closed_without_navigation pageless_state 1%nat eq_refl Hblank)
    as (_ & Hlog & _ & Hclosed).
  rewrite Hacc in Hclosed. destruct Hclosed as [_ Hclosed].
  split; [exact Hlog|exact Hclosed].
Defined.

Lemma cons_neq {A : Type} (x : A) (l : list A) : x :: l <> l.
Proof.
  intros E. apply (f_equal (@length A)) in E. simpl in E. lia.
Qed.

(** X23.  The listener acts exactly on page targets other than the current
    page: it returns with nothing called and nothing changed if and only if
    the target is not a page, has no page object, or is the current page. *)
Theorem on_targetcreated_ignores_exactly (target : Target) (st : State) :
  on_targetcreated target st = (Returned tt, st) <-> ignored (this st) target = true.
Proof.
  unfold ignored. destruct target as [type [newPage|]]; cbn [target_type target_page].
  2: { unfold on_targetcreated. cbn [target_type target_page].
       destruct (String.eqb type "page"); simpl; split; auto. }
  destruct (String.eqb type "page") eqn:Htype.
  2: { unfold on_targetcreated. cbn [target_type target_page]. rewrite Htype.
       simpl. split; auto. }
  apply String.eqb_eq in Htype. subst type. cbn [negb orb].
  destruct (same_page (page (this st)) newPage) eqn:Hsame.
  { unfold on_targetcreated. cbn [target_type target_page].
    change (String.eqb "page" "page") with true. cbv iota.
    unfold mbind, Js_bind, gets, mret, Js_ret. rewrite Hsame. split; auto. }
  split; [|discriminate]. intros Hrun. exfalso.
  assert (Hlog : log (world (on_targetcreated
                   {| target_type := "page"; target_page := Some newPage |} st).2)
                 = log (world st)) by (rewrite Hrun; reflexivity).
  destruct (is_blank_or_empty (page_url newPage (world st))) eqn:Hblank.
  - rewrite (on_targetcreated_blank_run st newPage Hsame Hblank), page_close_run in Hlog.
    destruct (rejects (world st) (CPageClose newPage)); wsimpl;
      exact (cons_neq _ _ Hlog).
  - clear Hlog. unfold on_targetcreated in Hrun. cbn [target_type target_page] in Hrun.
    change (String.eqb "page" "page") with true in Hrun. cbv iota in Hrun.
    unfold mbind at 1, Js_bind at 1, gets at 1 in Hrun. rewrite Hsame in Hrun.
    unfold mbind at 1, Js_bind at 1, gets at 1 in Hrun.
    unfold is_blank_or_empty in Hblank.
    assert (Hgo : truthy (page_url newPage (world st)) &&
                  negb (String.eqb (page_url newPage (world st)) "about:blank") = true).
    { destruct (truthy _), (String.eqb _ _); simpl in *; congruence. }
    rewrite Hgo in Hrun.
    unfold mbind at 1, Js_bind at 1 in Hrun.
    unfold mbind at 1, Js_bind at 1, gets at 1 in Hrun.
    destruct (page (this st)) as [p|]; [|discriminate].
    rewrite page_goto_run in Hrun.
    destruct (rejects (world st) (CGoto p _)); [discriminate|].
    rewrite page_close_run in Hrun. wsimpl.
    destruct (rejects (world st) (CPageClose newPage)); [discriminate|].
    injection Hrun as Hst. apply (f_equal (fun s => log (world s))) in Hst.
    wsimpl. apply (f_equal (@length Call)) in Hst. simpl in Hst. lia.
Qed.
